(** * Formbricks data-access layer: action service, access checks, cache keys

    A shallow embedding of

    - [lib/webhook/auth.ts]         ([canUserAccessWebhook]),
    - [lib/attributeClass/auth.ts]  ([canUserAccessAttributeClass]),
    - [lib/action/service.ts]       (the action service),
    - [app/sync/lib/posthog.ts]     ([sendFreeLimitReachedEventToPosthogBiWeekly]).

    Asynchronous functions are computations in a state-and-exception monad
    over a [World]: the tables the ORM reads and writes, the clock, the ORM
    calls issued so far and the cache tags revalidated so far.  A thrown
    exception keeps the world it was thrown in, as in JavaScript.

    [unstable_cache(cb, keyParts, options)] is the framework's primitive.  A
    cached operation is kept as the triple it hands to the framework
    ([Cached]); [invoke] is what the trailing [()] computes when the
    framework has no fresh entry for the key, namely the callback, and the
    functions under the names of the sources are the operations in that
    case.  [serve] is the trailing [()] on a server with a data cache, where
    a fresh entry is handed back instead. *)

From Stdlib Require Import ZArith Lia Ascii.
From stdpp Require Import base option list strings sorting pretty gmap.

Local Open Scope string_scope.
Local Open Scope list_scope.
Local Open Scope Z_scope.

(** ** Exceptions *)

Inductive Error : Type :=
  | ValidationError
  | DatabaseError (message : string)
  | PrismaClientKnownRequestError (code : string)
  | PrismaClientUnknownRequestError (message : string)
  | PrismaClientValidationError (message : string)
  | OtherError (message : string).

(** [error instanceof Prisma.PrismaClientKnownRequestError] *)
Definition isPrismaClientKnownRequestError (error : Error) : bool :=
  match error with
  | PrismaClientKnownRequestError _ => true
  | _ => false
  end.

Inductive Outcome (A : Type) : Type :=
  | Return (value : A)
  | Throw (error : Error).
Arguments Return {A} value.
Arguments Throw {A} error.

(** ** Rows and types *)

Inductive TActionClassType : Type := code | noCode | automatic.

Module ActionClass.
Record t : Type := mk {
  id : string;
  name : string;
  type : TActionClassType;
  environmentId : string
}.
End ActionClass.
Abbreviation TActionClass := ActionClass.t.

Module Person.
Record t : Type := mk {
  id : string;
  environmentId : string;
  userId : string
}.
End Person.

(** A JSON object of scalar properties. *)
Definition Properties : Type := list (string * string).

(** A row of the [Action] table. *)
Module Action.
Record t : Type := mk {
  id : string;
  createdAt : Z;
  personId : string;
  properties : Properties;
  actionClassId : string
}.
End Action.

(** A date field is a [Date] object, or the ISO string that the cache's
    JSON encoding leaves in its place; both carry the epoch milliseconds. *)
Inductive DateField : Type :=
  | DateObject (ms : Z)
  | DateString (ms : Z).

Definition getTime (d : DateField) : Z :=
  match d with DateObject ms | DateString ms => ms end.

Record TAction : Type := mkTAction {
  id : string;
  createdAt : DateField;
  personId : string;
  properties : Properties;
  actionClass : TActionClass
}.

Record TActionInput : Type := mkTActionInput {
  input_environmentId : string;
  input_userId : string;
  input_name : string
}.

Record TActionClassInput : Type := mkTActionClassInput {
  new_name : string;
  new_type : TActionClassType;
  new_environmentId : string
}.

Module Webhook.
Record t : Type := mk { id : string; environmentId : string }.
End Webhook.

Module AttributeClass.
Record t : Type := mk { id : string; environmentId : string }.
End AttributeClass.

Inductive Plan : Type := inAppSurvey | userTargeting.

Definition Plan_toString (plan : Plan) : string :=
  match plan with
  | inAppSurvey => "inAppSurvey"
  | userTargeting => "userTargeting"
  end.

(** ** The world *)

Inductive PrismaCall : Type :=
  | action_findMany
  | action_findFirst
  | action_count
  | action_create.

Record World : Type := mkWorld {
  table_action : list Action.t;
  table_actionClass : list TActionClass;
  table_person : list Person.t;
  (** the exception the ORM raises when it is called, if the database fails *)
  prisma_failure : option Error;
  (** [Date.now()] *)
  now : Z;
  (** ORM calls issued so far, oldest first *)
  prisma_log : list PrismaCall;
  (** tags handed to [revalidateTag] so far, oldest first *)
  revalidated : list string
}.

Definition log_call (call : PrismaCall) (w : World) : World :=
  mkWorld (table_action w) (table_actionClass w) (table_person w)
    (prisma_failure w) (now w) (prisma_log w ++ [call]) (revalidated w).

Definition insert_action (a : Action.t) (w : World) : World :=
  mkWorld (table_action w ++ [a]) (table_actionClass w) (table_person w)
    (prisma_failure w) (now w) (prisma_log w) (revalidated w).

Definition insert_actionClass (c : TActionClass) (w : World) : World :=
  mkWorld (table_action w) (table_actionClass w ++ [c]) (table_person w)
    (prisma_failure w) (now w) (prisma_log w) (revalidated w).

Definition revalidateTag (tag : string) (w : World) : World :=
  mkWorld (table_action w) (table_actionClass w) (table_person w)
    (prisma_failure w) (now w) (prisma_log w) (revalidated w ++ [tag]).

(** [revalidateTag] for every tag of a list, in its order. *)
Definition revalidateTags (tags : list string) (w : World) : World :=
  mkWorld (table_action w) (table_actionClass w) (table_person w)
    (prisma_failure w) (now w) (prisma_log w) (revalidated w ++ tags).

(** ** The monad of asynchronous functions *)

Definition M (A : Type) : Type := World → Outcome A * World.

Definition ret {A} (a : A) : M A := λ w, (Return a, w).

Definition throw {A} (e : Error) : M A := λ w, (Throw e, w).

Definition bind {A B} (m : M A) (k : A → M B) : M B := λ w,
  match m w with
  | (Return a, w') => k a w'
  | (Throw e, w') => (Throw e, w')
  end.

(** [try { body } catch (error) { handler }] *)
Definition try_catch {A} (body : M A) (handler : Error → M A) : M A := λ w,
  match body w with
  | (Return a, w') => (Return a, w')
  | (Throw e, w') => handler e w'
  end.

(** A read of the world that may throw. *)
Definition read {A} (f : World → Outcome A) : M A := λ w, (f w, w).

(** A statement with an effect on the world. *)
Definition effect (f : World → World) : M unit := λ w, (Return tt, f w).

Notation "'await' x ← m ;; k" := (bind m (λ x, k))
  (at level 100, x name, m at level 99, k at level 200, right associativity,
   format "'[v' 'await'  x  ←  m  ;;  '/' k ']'").
Notation "m ;; k" := (bind m (λ _, k))
  (at level 100, k at level 200, right associativity).

(** ** What the sources import from the rest of the repository

    The schemas, constants, tag builders and sibling services below are
    imported by the modelled files; everything is stated for an arbitrary
    choice of them.  A service that only reads is a function of the world.
    [page] is a JavaScript number that is a whole number; its arithmetic is
    exact, as that of JavaScript is up to [2^53]. *)

Class Imports : Type := {
  (** [@formbricks/types]: Zod schemas, [true] when [safeParse] succeeds *)
  ZId : string → bool;
  ZOptionalNumber : option Z → bool;
  ZActionInput : TActionInput → bool;
  (** [../constants] *)
  ITEMS_PER_PAGE : nat;
  SERVICES_REVALIDATION_INTERVAL : Z;
  (** [cache.ts] of each service: tag builders *)
  webhookCache_tag_byId : string → string;
  actionCache_tag_byPersonId : string → string;
  actionCache_tag_byEnvironmentId : string → string;
  actionClassCache_tag_byId : string → string;
  activePersonCache_tag_byId : string → string;
  (** sibling services *)
  getWebhook : string → World → Outcome (option Webhook.t);
  getAttributeClass : string → World → Outcome (option AttributeClass.t);
  hasUserEnvironmentAccess : string → string → World → Outcome bool;
  getActionClassByEnvironmentIdAndName :
    string → string → World → Outcome (option TActionClass);
  createActionClass : string → TActionClassInput → World → Outcome TActionClass;
  (** the tags of its own cache that [createActionClass] invalidates for the
      class it has created *)
  createActionClass_tags : TActionClass → list string;
  getIsPersonMonthlyActive : string → World → Outcome bool;
  capturePosthogEnvironmentEvent : string → string → Plan → World → Outcome unit;
  (** [./utils] of the action service, as functions of the current time *)
  getStartDateOfLastWeek : Z → Z;
  getStartDateOfLastMonth : Z → Z;
  getStartDateOfLastQuarter : Z → Z;
  (** the [@default(cuid())] of [Action.id] *)
  cuid : World → string
}.

(** ** Input validation *)

(** One [[value, schema]] pair of [validateInputs]. *)
Inductive ValidationPair : Type :=
  | vp {A : Type} (value : A) (schema : A → bool).

Definition safeParse (pair : ValidationPair) : bool :=
  match pair with vp value schema => schema value end.

(** Modelled from the spec: [validateInputs] of [../utils/validate] is not
    among the sources.  "validate input": every pair is parsed with its
    schema and the first failure throws a validation error; nothing else
    happens. *)
Definition validateInputs (pairs : list ValidationPair) : M unit := λ w,
  if forallb safeParse pairs then (Return tt, w) else (Throw ValidationError, w).

(** ** The ORM: [prisma.action] *)

(** The conditions that occur in the [where] clauses of the service. *)
Inductive ActionWhere : Type :=
  | where_personId (personId : string)                    (* personId *)
  | where_actionClassId (actionClassId : string)          (* actionClassId: .. *)
  | where_createdAt_gte (date : Z)                        (* createdAt: { gte } *)
  | where_person_id (personId : string)                   (* person: { id } *)
  | where_actionClass_id (actionClassId : string)         (* actionClass: { id } *)
  | where_actionClass_environmentId (environmentId : string).

Inductive SortOrder : Type := asc | desc.

(** The related rows of an action. *)
Definition actionClass_of (w : World) (a : Action.t) : option TActionClass :=
  List.find (λ c, bool_decide (ActionClass.id c = Action.actionClassId a))
    (table_actionClass w).

Definition person_of (w : World) (a : Action.t) : option Person.t :=
  List.find (λ p, bool_decide (Person.id p = Action.personId a)) (table_person w).

Definition satisfies (w : World) (a : Action.t) (cond : ActionWhere) : bool :=
  match cond with
  | where_personId personId => bool_decide (Action.personId a = personId)
  | where_actionClassId actionClassId =>
      bool_decide (Action.actionClassId a = actionClassId)
  | where_createdAt_gte date => date <=? Action.createdAt a
  | where_person_id personId =>
      match person_of w a with
      | Some p => bool_decide (Person.id p = personId)
      | None => false
      end
  | where_actionClass_id actionClassId =>
      match actionClass_of w a with
      | Some c => bool_decide (ActionClass.id c = actionClassId)
      | None => false
      end
  | where_actionClass_environmentId environmentId =>
      match actionClass_of w a with
      | Some c => bool_decide (ActionClass.environmentId c = environmentId)
      | None => false
      end
  end.

(** A [where] object is the conjunction of its entries. *)
Definition matches (w : World) (where_ : list ActionWhere) (a : Action.t) : bool :=
  forallb (satisfies w a) where_.

Definition newest_first : relation Action.t :=
  λ x y, Action.createdAt y ≤ Action.createdAt x.

Definition oldest_first : relation Action.t :=
  λ x y, Action.createdAt x ≤ Action.createdAt y.

#[global] Instance newest_first_dec x y : Decision (newest_first x y).
Proof. unfold newest_first. apply _. Defined.

#[global] Instance oldest_first_dec x y : Decision (oldest_first x y).
Proof. unfold oldest_first. apply _. Defined.

(** [orderBy: { createdAt: order }] *)
Definition orderBy_createdAt (order : SortOrder) (rows : list Action.t)
  : list Action.t :=
  match order with
  | desc => merge_sort newest_first rows
  | asc => merge_sort oldest_first rows
  end.

(** [include: { actionClass: true }] *)
Definition include_actionClass (w : World) (rows : list Action.t)
  : list (Action.t * TActionClass) :=
  omap (λ a, match actionClass_of w a with
             | Some c => Some (a, c)
             | None => None
             end) rows.

(** Every call of the ORM is logged, and throws when the database fails. *)
Definition prisma {A} (call : PrismaCall) (run : M A) : M A := λ w,
  let w' := log_call call w in
  match prisma_failure w' with
  | Some e => (Throw e, w')
  | None => run w'
  end.

Definition selected (w : World) (where_ : list ActionWhere) : list Action.t :=
  List.filter (matches w where_) (table_action w).

(** The largest [Int] of the query engine, [2^63 - 1]. *)
Definition MAX_INT64 : Z := 9223372036854775807.

(** The exception for a [skip] the ORM cannot use: the database refuses a
    negative offset, which the client reports as an unknown request error,
    and a number that does not fit a signed 64-bit integer does not pass
    the validation of the query. *)
Definition rejected_skip (skip : Z) : option Error :=
  if skip <? 0
  then Some (PrismaClientUnknownRequestError "OFFSET must not be negative")
  else if MAX_INT64 <? skip
  then Some (PrismaClientValidationError
               "Unable to fit value into a 64-bit signed integer")
  else None.

(** [prisma.action.findMany({ where, orderBy, take, skip, include })].
    Rows with the same [createdAt] come in the order of the table, which
    stands for the order the database happens to scan them in. *)
Definition prisma_action_findMany (where_ : list ActionWhere) (order : SortOrder)
    (take_ : option nat) (skip : option Z) : M (list (Action.t * TActionClass)) :=
  prisma action_findMany (λ w,
    let sorted := orderBy_createdAt order (selected w where_) in
    let limit rows := match take_ with Some n => take n rows | None => rows end in
    match skip with
    | Some n =>
        match rejected_skip n with
        | Some e => (Throw e, w)
        | None => (Return (include_actionClass w (limit (drop (Z.to_nat n) sorted))), w)
        end
    | None => (Return (include_actionClass w (limit sorted)), w)
    end).

(** [prisma.action.count({ where })] *)
Definition prisma_action_count (where_ : list ActionWhere) : M Z :=
  prisma action_count (λ w, (Return (Z.of_nat (length (selected w where_))), w)).

(** [prisma.action.findFirst({ where, orderBy, select: { createdAt: true } })] *)
Definition prisma_action_findFirst (where_ : list ActionWhere) (order : SortOrder)
  : M (option Z) :=
  prisma action_findFirst (λ w,
    (Return (Action.createdAt <$> head (orderBy_createdAt order (selected w where_))), w)).

(** [prisma.action.create] connecting the person with the unique pair
    [(environmentId, userId)] and the action class with the given id; a
    record to connect that does not exist is a known request error. *)
Definition prisma_action_create `{Imports} (environmentId userId actionClassId : string)
  : M Action.t :=
  prisma action_create (λ w,
    let person :=
      List.find (λ p, bool_decide (Person.environmentId p = environmentId)
                      && bool_decide (Person.userId p = userId)) (table_person w) in
    let actionClass :=
      List.find (λ c, bool_decide (ActionClass.id c = actionClassId))
        (table_actionClass w) in
    match person, actionClass with
    | Some p, Some c =>
        let action := Action.mk (cuid w) (now w) (Person.id p) [] (ActionClass.id c) in
        (Return action, insert_action action w)
    | _, _ => (Throw (PrismaClientKnownRequestError "P2025"), w)
    end).

(** ** The framework cache *)

Record CacheOptions : Type := mkCacheOptions {
  tags : list string;
  (** seconds *)
  revalidate : Z
}.

Record Cached (A : Type) : Type := unstable_cache {
  callback : M A;
  keyParts : list string;
  options : CacheOptions
}.
Arguments unstable_cache {A} callback keyParts options.
Arguments callback {A} c.
Arguments keyParts {A} c.
Arguments options {A} c.

Definition invoke {A} (c : Cached A) : M A := callback c.

(** [`${page}`] for [page?: number]: a whole number is printed with all its
    digits (as JavaScript does below [10^21]). *)
Definition page_toString (page : option Z) : string :=
  match page with
  | Some n => pretty n
  | None => "undefined"
  end.

(** [page ? a : undefined] *)
Definition if_page {A} (page : option Z) (a : Z → A) : option A :=
  match page with
  | Some n => if bool_decide (n = 0) then None else Some (a n)
  | None => None
  end.

(** ** Helpers of other modules *)

(** [differenceInDays] of date-fns: the number of full days between two
    instants, truncated towards zero (in a zone without clock shifts). *)
Definition differenceInDays (dateLeft dateRight : Z) : Z :=
  (dateLeft - dateRight) ÷ 86400000.

(** Modelled from the spec: [formatDateFields] of [../utils/datetime] is not
    among the sources.  "Deserialize dates if caching does not support
    deserialization": the date field of the [ZAction] schema, [createdAt],
    becomes a [Date] object again. *)
Definition formatDateFields (action : TAction) : TAction :=
  mkTAction (id action) (DateObject (getTime (createdAt action)))
    (personId action) (properties action) (actionClass action).

Section Service.
Context `{Imports}.

(** Modelled from the spec: [actionCache.revalidate] of [./cache] is not
    among the sources.  "invalidate specific tags on writes": the tags of
    the given environment and of the given person are revalidated. *)
Definition actionCache_revalidate (environmentId personId : string) : M unit :=
  effect (revalidateTag (actionCache_tag_byEnvironmentId environmentId)) ;;
  effect (revalidateTag (actionCache_tag_byPersonId personId)).

(** Modelled from the spec: [activePersonCache.revalidate] of
    [../person/cache] is not among the sources; it revalidates the tag of
    the given person. *)
Definition activePersonCache_revalidate (id : string) : M unit :=
  effect (revalidateTag (activePersonCache_tag_byId id)).

(** The world after [createActionClass] has returned the class [c]. *)
Definition created_actionClass (c : TActionClass) (w : World) : World :=
  revalidateTags (createActionClass_tags c) (insert_actionClass c w).

(** Modelled from the spec: [createActionClass] of [../actionClass/service]
    is not among the sources.  It is a write, and the services "invalidate
    specific tags on writes": the class it returns is a new row, and the
    tags of its own cache for that class are invalidated. *)
Definition call_createActionClass (environmentId : string)
    (actionClass : TActionClassInput) : M TActionClass := λ w,
  match createActionClass environmentId actionClass w with
  | Return c => (Return c, created_actionClass c w)
  | Throw e => (Throw e, w)
  end.

(** ** [lib/webhook/auth.ts] *)

Definition cached_canUserAccessWebhook (userId webhookId : string) : Cached bool :=
  unstable_cache
    (validateInputs [vp userId ZId; vp webhookId ZId] ;;
     try_catch
       (await webhook ← read (getWebhook webhookId) ;;
        match webhook with
        | None => ret false
        | Some webhook =>
            await hasAccessToEnvironment ←
              read (hasUserEnvironmentAccess userId (Webhook.environmentId webhook)) ;;
            if negb hasAccessToEnvironment then ret false else
            ret true
        end)
       (λ error, throw error))
    ["canUserAccessWebhook-" +:+ userId +:+ "-" +:+ webhookId]
    {| tags := [webhookCache_tag_byId webhookId];
       revalidate := SERVICES_REVALIDATION_INTERVAL |}.

Definition canUserAccessWebhook (userId webhookId : string) : M bool :=
  invoke (cached_canUserAccessWebhook userId webhookId).

(** ** [lib/attributeClass/auth.ts] *)

(** [!userId] on a string *)
Definition is_empty (s : string) : bool := bool_decide (s = "").

Definition cached_canUserAccessAttributeClass (userId attributeClassId : string)
  : Cached bool :=
  unstable_cache
    (validateInputs [vp userId ZId; vp attributeClassId ZId] ;;
     if is_empty userId then ret false else
     try_catch
       (await attributeClass ← read (getAttributeClass attributeClassId) ;;
        match attributeClass with
        | None => ret false
        | Some attributeClass =>
            await hasAccessToEnvironment ←
              read (hasUserEnvironmentAccess userId
                      (AttributeClass.environmentId attributeClass)) ;;
            if negb hasAccessToEnvironment then ret false else
            ret true
        end)
       (λ error, throw error))
    ["canUserAccessAttributeClass-" +:+ userId +:+ "-" +:+ attributeClassId]
    {| revalidate := SERVICES_REVALIDATION_INTERVAL;
       tags := ["attributeClasses-" +:+ attributeClassId] |}.

Definition canUserAccessAttributeClass (userId attributeClassId : string) : M bool :=
  invoke (cached_canUserAccessAttributeClass userId attributeClassId).

(** ** [app/sync/lib/posthog.ts] *)

Definition cached_sendFreeLimitReachedEventToPosthogBiWeekly
    (environmentId : string) (plan : Plan) : Cached string :=
  unstable_cache
    (try_catch
       (read (capturePosthogEnvironmentEvent environmentId "free limit reached" plan) ;;
        ret "success")
       (* console.error(error) *)
       (λ error, throw error))
    ["sendFreeLimitReachedEventToPosthogBiWeekly-" +:+ Plan_toString plan
       +:+ "-" +:+ environmentId]
    {| tags := []; revalidate := 60 * 60 * 24 * 15 |}.

Definition sendFreeLimitReachedEventToPosthogBiWeekly
    (environmentId : string) (plan : Plan) : M string :=
  invoke (cached_sendFreeLimitReachedEventToPosthogBiWeekly environmentId plan).

(** ** [lib/action/service.ts] *)

(** The object literal [{ id, createdAt, personId, properties, actionClass }]
    built from a row and its included action class. *)
Definition toTAction (row : Action.t * TActionClass) : TAction :=
  mkTAction (Action.id row.1) (DateObject (Action.createdAt row.1))
    (Action.personId row.1) (Action.properties row.1) row.2.

(** The [catch] clause shared by the list operations and [createAction]. *)
Definition rethrowAsDatabaseError {A} (error : Error) : M A :=
  if isPrismaClientKnownRequestError error
  then throw (DatabaseError "Database operation failed")
  else throw error.

Definition cached_getActionsByPersonId (personId : string) (page : option Z)
  : Cached (list TAction) :=
  unstable_cache
    (validateInputs [vp personId ZId; vp page ZOptionalNumber] ;;
     try_catch
       (await actionsPrisma ←
          prisma_action_findMany [where_person_id personId] desc
            (if_page page (λ _, ITEMS_PER_PAGE))
            (if_page page (λ page, Z.of_nat ITEMS_PER_PAGE * (page - 1))) ;;
        ret (toTAction <$> actionsPrisma))
       rethrowAsDatabaseError)
    ["getActionsByPersonId-" +:+ personId +:+ "-" +:+ page_toString page]
    {| tags := [actionCache_tag_byPersonId personId];
       revalidate := SERVICES_REVALIDATION_INTERVAL |}.

Definition getActionsByPersonId (personId : string) (page : option Z)
  : M (list TAction) :=
  await actions ← invoke (cached_getActionsByPersonId personId page) ;;
  ret (formatDateFields <$> actions).

Definition cached_getActionsByEnvironmentId (environmentId : string) (page : option Z)
  : Cached (list TAction) :=
  unstable_cache
    (validateInputs [vp environmentId ZId; vp page ZOptionalNumber] ;;
     try_catch
       (await actionsPrisma ←
          prisma_action_findMany [where_actionClass_environmentId environmentId] desc
            (if_page page (λ _, ITEMS_PER_PAGE))
            (if_page page (λ page, Z.of_nat ITEMS_PER_PAGE * (page - 1))) ;;
        ret (foldl (λ actions action, actions ++ [toTAction action]) [] actionsPrisma))
       rethrowAsDatabaseError)
    ["getActionsByEnvironmentId-" +:+ environmentId +:+ "-" +:+ page_toString page]
    {| tags := [actionCache_tag_byEnvironmentId environmentId];
       revalidate := SERVICES_REVALIDATION_INTERVAL |}.

Definition getActionsByEnvironmentId (environmentId : string) (page : option Z)
  : M (list TAction) :=
  await actions ← invoke (cached_getActionsByEnvironmentId environmentId page) ;;
  ret (formatDateFields <$> actions).

Definition createAction (data : TActionInput) : M TAction :=
  validateInputs [vp data ZActionInput] ;;
  try_catch
    (let environmentId := input_environmentId data in
     let name := input_name data in
     let userId := input_userId data in
     let actionType :=
       if bool_decide (name = "Exit Intent (Desktop)") || bool_decide (name = "50% Scroll")
       then automatic else code in
     await found ← read (getActionClassByEnvironmentIdAndName environmentId name) ;;
     await actionClass ←
       match found with
       | Some actionClass => ret actionClass
       | None =>
           call_createActionClass environmentId
             (mkTActionClassInput name actionType environmentId)
       end ;;
     await action ← prisma_action_create environmentId userId (ActionClass.id actionClass) ;;
     await isPersonMonthlyActive ←
       read (getIsPersonMonthlyActive (Action.personId action)) ;;
     (if negb isPersonMonthlyActive
      then activePersonCache_revalidate (Action.personId action)
      else ret tt) ;;
     actionCache_revalidate environmentId (Action.personId action) ;;
     ret (mkTAction (Action.id action) (DateObject (Action.createdAt action))
            (Action.personId action) (Action.properties action) actionClass))
    rethrowAsDatabaseError.

(** [Date.now()] and [new Date()] *)
Definition Date_now : M Z := read (λ w, Return (now w)).

(** A date helper of [./utils], evaluated at the current time. *)
Definition startDate (helper : Z → Z) : M Z := read (λ w, Return (helper (now w))).

Definition cached_getActionCountInLastHour (actionClassId : string) : Cached Z :=
  unstable_cache
    (validateInputs [vp actionClassId ZId] ;;
     try_catch
       (await now ← Date_now ;;
        await numEventsLastHour ←
          prisma_action_count
            [where_actionClassId actionClassId;
             where_createdAt_gte (now - 60 * 60 * 1000)] ;;
        ret numEventsLastHour)
       (λ error, throw error))
    ["getActionCountInLastHour-" +:+ actionClassId]
    {| tags := [actionClassCache_tag_byId actionClassId];
       revalidate := SERVICES_REVALIDATION_INTERVAL |}.

Definition getActionCountInLastHour (actionClassId : string) : M Z :=
  invoke (cached_getActionCountInLastHour actionClassId).

Definition cached_getActionCountInLast24Hours (actionClassId : string) : Cached Z :=
  unstable_cache
    (validateInputs [vp actionClassId ZId] ;;
     try_catch
       (await now ← Date_now ;;
        await numEventsLast24Hours ←
          prisma_action_count
            [where_actionClassId actionClassId;
             where_createdAt_gte (now - 24 * 60 * 60 * 1000)] ;;
        ret numEventsLast24Hours)
       (λ error, throw error))
    ["getActionCountInLast24Hours-" +:+ actionClassId]
    {| tags := [actionClassCache_tag_byId actionClassId];
       revalidate := SERVICES_REVALIDATION_INTERVAL |}.

Definition getActionCountInLast24Hours (actionClassId : string) : M Z :=
  invoke (cached_getActionCountInLast24Hours actionClassId).

Definition cached_getActionCountInLast7Days (actionClassId : string) : Cached Z :=
  unstable_cache
    (validateInputs [vp actionClassId ZId] ;;
     try_catch
       (await now ← Date_now ;;
        await numEventsLast7Days ←
          prisma_action_count
            [where_actionClassId actionClassId;
             where_createdAt_gte (now - 7 * 24 * 60 * 60 * 1000)] ;;
        ret numEventsLast7Days)
       (λ error, throw error))
    ["getActionCountInLast7Days-" +:+ actionClassId]
    {| tags := [actionClassCache_tag_byId actionClassId];
       revalidate := SERVICES_REVALIDATION_INTERVAL |}.

Definition getActionCountInLast7Days (actionClassId : string) : M Z :=
  invoke (cached_getActionCountInLast7Days actionClassId).

Definition cached_getActionCountInLastQuarter (actionClassId personId : string)
  : Cached Z :=
  unstable_cache
    (validateInputs [vp actionClassId ZId; vp personId ZId] ;;
     try_catch
       (await start ← startDate getStartDateOfLastQuarter ;;
        await numEventsLastQuarter ←
          prisma_action_count
            [where_personId personId;
             where_actionClass_id actionClassId;
             where_createdAt_gte start] ;;
        ret numEventsLastQuarter)
       (λ error, throw error))
    ["getActionCountInLastQuarter-" +:+ actionClassId +:+ "-" +:+ personId]
    {| tags := [actionClassCache_tag_byId actionClassId];
       revalidate := SERVICES_REVALIDATION_INTERVAL |}.

Definition getActionCountInLastQuarter (actionClassId personId : string) : M Z :=
  invoke (cached_getActionCountInLastQuarter actionClassId personId).

Definition cached_getActionCountInLastMonth (actionClassId personId : string)
  : Cached Z :=
  unstable_cache
    (validateInputs [vp actionClassId ZId; vp personId ZId] ;;
     try_catch
       (await start ← startDate getStartDateOfLastMonth ;;
        await numEventsLastMonth ←
          prisma_action_count
            [where_personId personId;
             where_actionClass_id actionClassId;
             where_createdAt_gte start] ;;
        ret numEventsLastMonth)
       (λ error, throw error))
    ["getActionCountInLastMonth-" +:+ actionClassId +:+ "-" +:+ personId]
    {| tags := [actionClassCache_tag_byId actionClassId];
       revalidate := SERVICES_REVALIDATION_INTERVAL |}.

Definition getActionCountInLastMonth (actionClassId personId : string) : M Z :=
  invoke (cached_getActionCountInLastMonth actionClassId personId).

Definition cached_getActionCountInLastWeek (actionClassId personId : string)
  : Cached Z :=
  unstable_cache
    (validateInputs [vp actionClassId ZId; vp personId ZId] ;;
     try_catch
       (await start ← startDate getStartDateOfLastWeek ;;
        await numEventsLastWeek ←
          prisma_action_count
            [where_personId personId;
             where_actionClass_id actionClassId;
             where_createdAt_gte start] ;;
        ret numEventsLastWeek)
       (λ error, throw error))
    ["getActionCountInLastWeek-" +:+ actionClassId +:+ "-" +:+ personId]
    {| tags := [actionClassCache_tag_byId actionClassId];
       revalidate := SERVICES_REVALIDATION_INTERVAL |}.

Definition getActionCountInLastWeek (actionClassId personId : string) : M Z :=
  invoke (cached_getActionCountInLastWeek actionClassId personId).

Definition cached_getTotalOccurrencesForAction (actionClassId personId : string)
  : Cached Z :=
  unstable_cache
    (validateInputs [vp actionClassId ZId; vp personId ZId] ;;
     try_catch
       (await count ←
          prisma_action_count
            [where_personId personId; where_actionClass_id actionClassId] ;;
        ret count)
       (λ error, throw error))
    ["getTotalOccurrencesForAction-" +:+ actionClassId +:+ "-" +:+ personId]
    {| tags := [actionClassCache_tag_byId actionClassId];
       revalidate := SERVICES_REVALIDATION_INTERVAL |}.

Definition getTotalOccurrencesForAction (actionClassId personId : string) : M Z :=
  invoke (cached_getTotalOccurrencesForAction actionClassId personId).

Definition cached_getLastOccurrenceDaysAgo (actionClassId personId : string)
  : Cached (option Z) :=
  unstable_cache
    (validateInputs [vp actionClassId ZId; vp personId ZId] ;;
     try_catch
       (await lastEvent ←
          prisma_action_findFirst
            [where_personId personId; where_actionClass_id actionClassId] desc ;;
        match lastEvent with
        | None => ret None
        | Some lastEvent_createdAt =>
            await today ← Date_now ;;
            ret (Some (differenceInDays today lastEvent_createdAt))
        end)
       (λ error, throw error))
    ["getLastOccurrenceDaysAgo-" +:+ actionClassId +:+ "-" +:+ personId]
    {| tags := [actionClassCache_tag_byId actionClassId];
       revalidate := SERVICES_REVALIDATION_INTERVAL |}.

Definition getLastOccurrenceDaysAgo (actionClassId personId : string) : M (option Z) :=
  invoke (cached_getLastOccurrenceDaysAgo actionClassId personId).

Definition cached_getFirstOccurrenceDaysAgo (actionClassId personId : string)
  : Cached (option Z) :=
  unstable_cache
    (validateInputs [vp actionClassId ZId; vp personId ZId] ;;
     try_catch
       (await firstEvent ←
          prisma_action_findFirst
            [where_personId personId; where_actionClass_id actionClassId] asc ;;
        match firstEvent with
        | None => ret None
        | Some firstEvent_createdAt =>
            await today ← Date_now ;;
            ret (Some (differenceInDays today firstEvent_createdAt))
        end)
       (λ error, throw error))
    ["getFirstOccurrenceDaysAgo-" +:+ actionClassId +:+ "-" +:+ personId]
    {| tags := [actionClassCache_tag_byId actionClassId];
       revalidate := SERVICES_REVALIDATION_INTERVAL |}.

Definition getFirstOccurrenceDaysAgo (actionClassId personId : string) : M (option Z) :=
  invoke (cached_getFirstOccurrenceDaysAgo actionClassId personId).

End Service.

(** ** The data cache of the framework

    [unstable_cache] is cache-aside with tags and a time to live.  The
    framework keeps what a callback returned as JSON text, under the key
    parts, together with the tags and the time of the entry.  The trailing
    [()] hands back the parsed text of an entry that is younger than
    [revalidate] seconds and none of whose tags has been revalidated since
    it was written; otherwise it runs the callback, keeps the result and
    hands that result back as the callback returned it.  An exception of
    the callback is passed on and nothing is kept. *)

(** The JSON text of a result, up to [JSON.parse]. *)
Inductive Body : Type :=
  | body_boolean (b : bool)
  | body_number (n : Z)
  | body_nullable (n : option Z)
  | body_string (s : string)
  | body_actions (actions : list TAction).

(** [JSON.stringify] and [JSON.parse] at the result types of the cached
    callbacks. *)
Class Cacheable (A : Type) : Type := {
  JSON_stringify : A → Body;
  JSON_parse : Body → option A
}.

#[global] Instance Cacheable_boolean : Cacheable bool := {|
  JSON_stringify := body_boolean;
  JSON_parse body := match body with body_boolean b => Some b | _ => None end
|}.

#[global] Instance Cacheable_number : Cacheable Z := {|
  JSON_stringify := body_number;
  JSON_parse body := match body with body_number n => Some n | _ => None end
|}.

#[global] Instance Cacheable_nullable : Cacheable (option Z) := {|
  JSON_stringify := body_nullable;
  JSON_parse body := match body with body_nullable n => Some n | _ => None end
|}.

#[global] Instance Cacheable_string : Cacheable string := {|
  JSON_stringify := body_string;
  JSON_parse body := match body with body_string s => Some s | _ => None end
|}.

(** JSON has no dates: [Date.prototype.toJSON] leaves the ISO string. *)
Definition toJSON (action : TAction) : TAction :=
  mkTAction (id action) (DateString (getTime (createdAt action)))
    (personId action) (properties action) (actionClass action).

#[global] Instance Cacheable_actions : Cacheable (list TAction) := {|
  JSON_stringify actions := body_actions (toJSON <$> actions);
  JSON_parse body := match body with body_actions actions => Some actions | _ => None end
|}.

Record CacheEntry : Type := mkCacheEntry {
  body : Body;
  entry_tags : list string;
  (** [Date.now()] when the entry was written *)
  lastModified : Z;
  (** the number of tags revalidated before the entry was written *)
  revalidatedBefore : nat
}.

Abbreviation DataCache := (gmap (list string) CacheEntry).

(** The entry is younger than [revalidate] seconds and no tag of it has been
    revalidated since it was written. *)
Definition fresh (options : CacheOptions) (entry : CacheEntry) (w : World) : bool :=
  bool_decide (now w < lastModified entry + revalidate options * 1000)
  && forallb (λ tag, bool_decide (tag ∉ drop (revalidatedBefore entry) (revalidated w)))
       (entry_tags entry).

(** The value the cache holds for a call, if it holds a fresh one. *)
Definition cachedValue {A} `{Cacheable A} (c : Cached A) (cache : DataCache)
    (w : World) : option A :=
  match cache !! keyParts c with
  | Some entry => if fresh (options c) entry w then JSON_parse (body entry) else None
  | None => None
  end.

(** Asynchronous functions on a server with a data cache. *)
Definition Served (A : Type) : Type := DataCache → World → Outcome A * World * DataCache.

Definition served_ret {A} (a : A) : Served A := λ cache w, (Return a, w, cache).

Definition served_bind {A B} (m : Served A) (k : A → Served B) : Served B := λ cache w,
  match m cache w with
  | (Return a, w', cache') => k a cache' w'
  | (Throw e, w', cache') => (Throw e, w', cache')
  end.

(** [unstable_cache(cb, keyParts, options)()] *)
Definition serve {A} `{Cacheable A} (c : Cached A) : Served A := λ cache w,
  match cachedValue c cache w with
  | Some value => (Return value, w, cache)
  | None =>
      match callback c w with
      | (Return value, w') =>
          (Return value, w',
           <[keyParts c := mkCacheEntry (JSON_stringify value) (tags (options c))
                             (now w') (length (revalidated w'))]> cache)
      | (Throw e, w') => (Throw e, w', cache)
      end
  end.

(** The list operations on a server with a data cache: [formatDateFields]
    is applied to whatever the cache hands back. *)
Definition served_getActionsByPersonId `{Imports} (personId : string) (page : option Z)
  : Served (list TAction) :=
  served_bind (serve (cached_getActionsByPersonId personId page)) (λ actions,
  served_ret (formatDateFields <$> actions)).

Definition served_getActionsByEnvironmentId `{Imports} (environmentId : string)
    (page : option Z) : Served (list TAction) :=
  served_bind (serve (cached_getActionsByEnvironmentId environmentId page)) (λ actions,
  served_ret (formatDateFields <$> actions)).

(** ** The cached operations, as calls

    One constructor per [unstable_cache] site, carrying the arguments of the
    enclosing function. *)

Inductive CachedCall : Type :=
  | call_canUserAccessWebhook (userId webhookId : string)
  | call_canUserAccessAttributeClass (userId attributeClassId : string)
  | call_sendFreeLimitReachedEventToPosthogBiWeekly (environmentId : string) (plan : Plan)
  | call_getActionsByPersonId (personId : string) (page : option Z)
  | call_getActionsByEnvironmentId (environmentId : string) (page : option Z)
  | call_getActionCountInLastHour (actionClassId : string)
  | call_getActionCountInLast24Hours (actionClassId : string)
  | call_getActionCountInLast7Days (actionClassId : string)
  | call_getActionCountInLastQuarter (actionClassId personId : string)
  | call_getActionCountInLastMonth (actionClassId personId : string)
  | call_getActionCountInLastWeek (actionClassId personId : string)
  | call_getTotalOccurrencesForAction (actionClassId personId : string)
  | call_getLastOccurrenceDaysAgo (actionClassId personId : string)
  | call_getFirstOccurrenceDaysAgo (actionClassId personId : string).

Definition cacheKey `{Imports} (c : CachedCall) : list string :=
  match c with
  | call_canUserAccessWebhook u i => keyParts (cached_canUserAccessWebhook u i)
  | call_canUserAccessAttributeClass u i => keyParts (cached_canUserAccessAttributeClass u i)
  | call_sendFreeLimitReachedEventToPosthogBiWeekly e p =>
      keyParts (cached_sendFreeLimitReachedEventToPosthogBiWeekly e p)
  | call_getActionsByPersonId i p => keyParts (cached_getActionsByPersonId i p)
  | call_getActionsByEnvironmentId i p => keyParts (cached_getActionsByEnvironmentId i p)
  | call_getActionCountInLastHour a => keyParts (cached_getActionCountInLastHour a)
  | call_getActionCountInLast24Hours a => keyParts (cached_getActionCountInLast24Hours a)
  | call_getActionCountInLast7Days a => keyParts (cached_getActionCountInLast7Days a)
  | call_getActionCountInLastQuarter a p => keyParts (cached_getActionCountInLastQuarter a p)
  | call_getActionCountInLastMonth a p => keyParts (cached_getActionCountInLastMonth a p)
  | call_getActionCountInLastWeek a p => keyParts (cached_getActionCountInLastWeek a p)
  | call_getTotalOccurrencesForAction a p =>
      keyParts (cached_getTotalOccurrencesForAction a p)
  | call_getLastOccurrenceDaysAgo a p => keyParts (cached_getLastOccurrenceDaysAgo a p)
  | call_getFirstOccurrenceDaysAgo a p => keyParts (cached_getFirstOccurrenceDaysAgo a p)
  end.

Definition cacheOptions `{Imports} (c : CachedCall) : CacheOptions :=
  match c with
  | call_canUserAccessWebhook u i => options (cached_canUserAccessWebhook u i)
  | call_canUserAccessAttributeClass u i => options (cached_canUserAccessAttributeClass u i)
  | call_sendFreeLimitReachedEventToPosthogBiWeekly e p =>
      options (cached_sendFreeLimitReachedEventToPosthogBiWeekly e p)
  | call_getActionsByPersonId i p => options (cached_getActionsByPersonId i p)
  | call_getActionsByEnvironmentId i p => options (cached_getActionsByEnvironmentId i p)
  | call_getActionCountInLastHour a => options (cached_getActionCountInLastHour a)
  | call_getActionCountInLast24Hours a => options (cached_getActionCountInLast24Hours a)
  | call_getActionCountInLast7Days a => options (cached_getActionCountInLast7Days a)
  | call_getActionCountInLastQuarter a p => options (cached_getActionCountInLastQuarter a p)
  | call_getActionCountInLastMonth a p => options (cached_getActionCountInLastMonth a p)
  | call_getActionCountInLastWeek a p => options (cached_getActionCountInLastWeek a p)
  | call_getTotalOccurrencesForAction a p =>
      options (cached_getTotalOccurrencesForAction a p)
  | call_getLastOccurrenceDaysAgo a p => options (cached_getLastOccurrenceDaysAgo a p)
  | call_getFirstOccurrenceDaysAgo a p => options (cached_getFirstOccurrenceDaysAgo a p)
  end.

(** ** Vocabulary of the statements *)

(** The name of the function around the cache site. *)
Definition operationName (c : CachedCall) : string :=
  match c with
  | call_canUserAccessWebhook _ _ => "canUserAccessWebhook"
  | call_canUserAccessAttributeClass _ _ => "canUserAccessAttributeClass"
  | call_sendFreeLimitReachedEventToPosthogBiWeekly _ _ =>
      "sendFreeLimitReachedEventToPosthogBiWeekly"
  | call_getActionsByPersonId _ _ => "getActionsByPersonId"
  | call_getActionsByEnvironmentId _ _ => "getActionsByEnvironmentId"
  | call_getActionCountInLastHour _ => "getActionCountInLastHour"
  | call_getActionCountInLast24Hours _ => "getActionCountInLast24Hours"
  | call_getActionCountInLast7Days _ => "getActionCountInLast7Days"
  | call_getActionCountInLastQuarter _ _ => "getActionCountInLastQuarter"
  | call_getActionCountInLastMonth _ _ => "getActionCountInLastMonth"
  | call_getActionCountInLastWeek _ _ => "getActionCountInLastWeek"
  | call_getTotalOccurrencesForAction _ _ => "getTotalOccurrencesForAction"
  | call_getLastOccurrenceDaysAgo _ _ => "getLastOccurrenceDaysAgo"
  | call_getFirstOccurrenceDaysAgo _ _ => "getFirstOccurrenceDaysAgo"
  end.

(** The arguments of the call, as the template literal of the key prints
    them and in its order. *)
Definition printedArguments (c : CachedCall) : list string :=
  match c with
  | call_canUserAccessWebhook u i | call_canUserAccessAttributeClass u i => [u; i]
  | call_sendFreeLimitReachedEventToPosthogBiWeekly e p => [Plan_toString p; e]
  | call_getActionsByPersonId i p | call_getActionsByEnvironmentId i p =>
      [i; page_toString p]
  | call_getActionCountInLastHour a
  | call_getActionCountInLast24Hours a
  | call_getActionCountInLast7Days a => [a]
  | call_getActionCountInLastQuarter a p
  | call_getActionCountInLastMonth a p
  | call_getActionCountInLastWeek a p
  | call_getTotalOccurrencesForAction a p
  | call_getLastOccurrenceDaysAgo a p
  | call_getFirstOccurrenceDaysAgo a p => [a; p]
  end.

(** The identifiers among the arguments: the strings checked with [ZId]. *)
Definition identifiers (c : CachedCall) : list string :=
  match c with
  | call_sendFreeLimitReachedEventToPosthogBiWeekly _ _ => []
  | call_getActionsByPersonId i _ | call_getActionsByEnvironmentId i _ => [i]
  | _ => printedArguments c
  end.

Definition hyphen_free (s : string) : Prop := "-"%char ∉ String.list_ascii_of_string s.

#[global] Instance hyphen_free_dec s : Decision (hyphen_free s).
Proof. unfold hyphen_free. apply _. Defined.

(** The tenant entities of the data model that the cached operations
    read. *)
Inductive Entity : Type :=
  | entity_webhook (id : string)
  | entity_attributeClass (id : string)
  | entity_actionClass (id : string)
  | entity_person (id : string)
  | entity_environment (id : string).

(** The entity a call reads: the webhook or the attribute class that is
    looked up, the person or the environment whose actions are listed, the
    action class whose actions are counted; the PostHog event reads none. *)
Definition entityRead (c : CachedCall) : option Entity :=
  match c with
  | call_canUserAccessWebhook _ webhookId => Some (entity_webhook webhookId)
  | call_canUserAccessAttributeClass _ attributeClassId =>
      Some (entity_attributeClass attributeClassId)
  | call_sendFreeLimitReachedEventToPosthogBiWeekly _ _ => None
  | call_getActionsByPersonId personId _ => Some (entity_person personId)
  | call_getActionsByEnvironmentId environmentId _ =>
      Some (entity_environment environmentId)
  | call_getActionCountInLastHour a
  | call_getActionCountInLast24Hours a
  | call_getActionCountInLast7Days a
  | call_getActionCountInLastQuarter a _
  | call_getActionCountInLastMonth a _
  | call_getActionCountInLastWeek a _
  | call_getTotalOccurrencesForAction a _
  | call_getLastOccurrenceDaysAgo a _
  | call_getFirstOccurrenceDaysAgo a _ => Some (entity_actionClass a)
  end.

(** The tag that names an entity: that of the cache of its service, and for
    a person or an environment that of the action cache. *)
Definition entityTag `{Imports} (e : Entity) : string :=
  match e with
  | entity_webhook id => webhookCache_tag_byId id
  | entity_attributeClass id => "attributeClasses-" +:+ id
  | entity_actionClass id => actionClassCache_tag_byId id
  | entity_person id => actionCache_tag_byPersonId id
  | entity_environment id => actionCache_tag_byEnvironmentId id
  end.

(** The tag of the tenant entity a call reads. *)
Definition entityTags `{Imports} (c : CachedCall) : list string :=
  match entityRead c with
  | Some e => [entityTag e]
  | None => []
  end.

(** Referential integrity of the [Action] table: the action class and the
    person of every action exist. *)
Definition foreign_keys (w : World) : Prop :=
  Forall (λ a, is_Some (actionClass_of w a) ∧ is_Some (person_of w a)) (table_action w).

(** What the cache holds under the key of [c] is a result of the callback of
    [c], as JSON, with the tags of [c]. *)
Definition storedBy {A} `{Cacheable A} (c : Cached A) (cache : DataCache) : Prop :=
  ∀ entry, cache !! keyParts c = Some entry →
    entry_tags entry = tags (options c) ∧
    ∃ w0 w0' value,
      callback c w0 = (Return value, w0') ∧ body entry = JSON_stringify value.

(** The number of actions with a property. *)
Definition numberOfActions (w : World) (P : Action.t → Prop)
    `{∀ a, Decision (P a)} : Z :=
  Z.of_nat (length (filter P (table_action w))).

(** The action belongs to the action class with this id. *)
Definition ofActionClass (w : World) (actionClassId : string) (a : Action.t) : Prop :=
  ActionClass.id <$> actionClass_of w a = Some actionClassId.

#[global] Instance ofActionClass_dec w actionClassId a :
  Decision (ofActionClass w actionClassId a).
Proof. unfold ofActionClass. apply _. Defined.

(** The action belongs to the person with this id. *)
Definition ofPerson (w : World) (pid : string) (a : Action.t) : Prop :=
  Person.id <$> person_of w a = Some pid.

#[global] Instance ofPerson_dec w pid a : Decision (ofPerson w pid a).
Proof. unfold ofPerson. apply _. Defined.

(** The action class of the action belongs to the environment with this id. *)
Definition inEnvironment (w : World) (eid : string) (a : Action.t) : Prop :=
  ActionClass.environmentId <$> actionClass_of w a = Some eid.

#[global] Instance inEnvironment_dec w eid a : Decision (inEnvironment w eid a).
Proof. unfold inEnvironment. apply _. Defined.

Definition days (n : Z) : Z := n * 86400000.


(** The shaped action of a row, with the action class the row refers to. *)
Definition shaped (w : World) (a : Action.t) (t : TAction) : Prop :=
  ∃ c, actionClass_of w a = Some c ∧
    t = mkTAction (Action.id a) (DateObject (Action.createdAt a))
          (Action.personId a) (Action.properties a) c.

(** The rows of one request: all of them, or the page after the skipped
    ones. *)
Definition pageOfRows `{Imports} (page : option Z) (sorted : list Action.t)
  : list Action.t :=
  match page with
  | Some p =>
      if bool_decide (p = 0) then sorted
      else take ITEMS_PER_PAGE (drop (Z.to_nat (Z.of_nat ITEMS_PER_PAGE * (p - 1))) sorted)
  | None => sorted
  end.


(** The action class [createAction] works with, and the world it is in
    after that: the class found by environment and name, or else the class
    [createActionClass] returns for the name, with type [automatic] for the
    two built-in names and [code] otherwise. *)
Definition resolvesActionClass `{Imports} (data : TActionInput) (w : World)
    (c : TActionClass) (w1 : World) : Prop :=
  let environmentId := input_environmentId data in
  let name := input_name data in
  (getActionClassByEnvironmentIdAndName environmentId name w = Return (Some c) ∧ w1 = w) ∨
  (getActionClassByEnvironmentIdAndName environmentId name w = Return None ∧
   createActionClass environmentId
     (mkTActionClassInput name
        (if decide (name = "Exit Intent (Desktop)" ∨ name = "50% Scroll")
         then automatic else code)
        environmentId) w = Return c ∧
   w1 = created_actionClass c w).

(** The tags invalidated while [createAction] resolves the action class:
    none for a class that is found, those of [createActionClass] for a
    class [c] that is created. *)
Definition resolutionTags `{Imports} (data : TActionInput) (w : World)
    (c : TActionClass) : list string :=
  match getActionClassByEnvironmentIdAndName
          (input_environmentId data) (input_name data) w with
  | Return (Some _) => []
  | _ => createActionClass_tags c
  end.

(** The error that leaves the [catch] clause of the list operations and of
    [createAction] when [e] entered it. *)
Definition asDatabaseError (e : Error) : Error :=
  if isPrismaClientKnownRequestError e
  then DatabaseError "Database operation failed"
  else e.

(** ** A concrete installation, for examples

    Identifiers are non-empty strings of lower-case letters and digits, a
    page holds two items, and the sibling services answer from the tables. *)

Module Sample.

Definition lower_or_digit (c : ascii) : bool :=
  let n := nat_of_ascii c in
  ((97 <=? n)%nat && (n <=? 122)%nat) || ((48 <=? n)%nat && (n <=? 57)%nat).

Definition is_id (s : string) : bool :=
  negb (is_empty s) && forallb lower_or_digit (String.list_ascii_of_string s).

Definition actionsOfPerson (personId : string) (w : World) : list Action.t :=
  List.filter (λ a, bool_decide (Action.personId a = personId)) (table_action w).

#[local] Instance installation : Imports := {|
  ZId := is_id;
  ZOptionalNumber := λ _, true;
  ZActionInput := λ data, is_id (input_environmentId data)
                          && negb (is_empty (input_userId data))
                          && negb (is_empty (input_name data));
  ITEMS_PER_PAGE := 2;
  SERVICES_REVALIDATION_INTERVAL := 60 * 30;
  webhookCache_tag_byId := λ id, "webhooks-" +:+ id;
  actionCache_tag_byPersonId := λ id, "people-" +:+ id +:+ "-actions";
  actionCache_tag_byEnvironmentId := λ id, "environments-" +:+ id +:+ "-actions";
  actionClassCache_tag_byId := λ id, "actionClasses-" +:+ id;
  activePersonCache_tag_byId := λ id, "activePeople-" +:+ id;
  getWebhook := λ id _,
    Return (if bool_decide (id = "wh1") then Some (Webhook.mk "wh1" "env1") else None);
  getAttributeClass := λ id _,
    Return (if bool_decide (id = "at1") then Some (AttributeClass.mk "at1" "env1") else None);
  hasUserEnvironmentAccess := λ userId environmentId _,
    Return (bool_decide (userId = "user1") && bool_decide (environmentId = "env1"));
  getActionClassByEnvironmentIdAndName := λ environmentId name w,
    Return (List.find (λ c, bool_decide (ActionClass.environmentId c = environmentId)
                            && bool_decide (ActionClass.name c = name))
              (table_actionClass w));
  createActionClass := λ environmentId input w,
    Return (ActionClass.mk ("ac" +:+ pretty (S (length (table_actionClass w))))
              (new_name input) (new_type input) environmentId);
  createActionClass_tags := λ c,
    ["actionClasses-" +:+ ActionClass.id c;
     "environments-" +:+ ActionClass.environmentId c +:+ "-actionClasses"];
  getIsPersonMonthlyActive := λ personId w,
    Return (2 <? length (actionsOfPerson personId w))%nat;
  capturePosthogEnvironmentEvent := λ _ _ _ _, Return tt;
  getStartDateOfLastWeek := λ now, now - 7 * 86400000;
  getStartDateOfLastMonth := λ now, now - 30 * 86400000;
  getStartDateOfLastQuarter := λ now, now - 90 * 86400000;
  cuid := λ w, "a" +:+ pretty (length (table_action w))
|}.

Definition day : Z := 86400000.
Definition hour : Z := 3600000.

(** Two environments with one action class and one person each; person
    [p1] triggered [ac1] three times and person [p2] triggered [ac2] once. *)
Definition world : World :=
  mkWorld
    [ Action.mk "a0" (100 * day) "p1" [] "ac1";
      Action.mk "a1" (109 * day + 12 * hour) "p1" [] "ac1";
      Action.mk "a2" (103 * day) "p2" [] "ac2";
      Action.mk "a3" (110 * day - 1800000) "p1" [] "ac1" ]
    [ ActionClass.mk "ac1" "signup" code "env1";
      ActionClass.mk "ac2" "50% Scroll" automatic "env2" ]
    [ Person.mk "p1" "env1" "user1"; Person.mk "p2" "env2" "user2" ]
    None (110 * day) [] [].

(** The same world with a database that refuses every request. *)
Definition broken (e : Error) : World :=
  mkWorld (table_action world) (table_actionClass world) (table_person world)
    (Some e) (now world) [] [].

(** A new action of user [user2] in [env2], under a name without a class. *)
Definition newAction : TActionInput := mkTActionInput "env2" "user2" "checkout".

Definition created : Outcome TAction * World :=
  Eval vm_compute in createAction newAction world.

(** The first and the second page of the actions of person [p1]. *)
Definition firstPage : Outcome (list TAction) * World :=
  Eval vm_compute in getActionsByPersonId "p1" (Some 1) world.


(** All actions of environment [env1]. *)
Definition ofEnvironment : Outcome (list TAction) * World :=
  Eval vm_compute in getActionsByEnvironmentId "env1" None world.

End Sample.

(** ** [onboarding/components/PathwaySelect.tsx]

    The handler of the two option cards.  It reaches the browser's
    [localStorage] and the two setters the component receives as props; the
    calls of the setters are recorded in order. *)

Inductive PathwayOptionType : Type := link | website.

Definition PathwayOptionType_toString (pathway : PathwayOptionType) : string :=
  match pathway with
  | link => "link"
  | website => "website"
  end.

Inductive PropCall : Type :=
  | setSelectedPathway (pathway : option PathwayOptionType)
  | setCurrentStep (currentStep : Z).

Record Browser : Type := mkBrowser {
  localStorage : gmap string string;
  propCalls : list PropCall
}.

(** [localStorage.setItem(key, value)] *)
Definition localStorage_setItem (key value : string) (b : Browser) : Browser :=
  mkBrowser (<[key := value]> (localStorage b)) (propCalls b).

Definition callProp (c : PropCall) (b : Browser) : Browser :=
  mkBrowser (localStorage b) (propCalls b ++ [c]).

Definition handleSelect (isFormbricksCloud : bool) (pathway : PathwayOptionType)
    (b : Browser) : Browser :=
  let b :=
    match pathway with
    | link =>
        let b := localStorage_setItem "onboardingPathway" "link" b in
        if isFormbricksCloud then
          let b := callProp (setCurrentStep 2) b in
          localStorage_setItem "onboardingCurrentStep" "2" b
        else
          let b := callProp (setCurrentStep 5) b in
          localStorage_setItem "onboardingCurrentStep" "5" b
    | website =>
        let b := localStorage_setItem "onboardingPathway" "website" b in
        let b := callProp (setCurrentStep 2) b in
        localStorage_setItem "onboardingCurrentStep" "2" b
    end in
  callProp (setSelectedPathway (Some pathway)) b.

(** ** More vocabulary *)

(** The list a call returned; empty when it threw. *)
Definition returned {A} (r : Outcome (list A) * World) : list A :=
  match r.1 with
  | Return l => l
  | Throw _ => []
  end.

(** Two worlds with the same tables, clock, database state and revalidated
    tags, the second with the ORM calls of the first and possibly more. *)
Definition only_logged (w w' : World) : Prop :=
  table_action w' = table_action w ∧
  table_actionClass w' = table_actionClass w ∧
  table_person w' = table_person w ∧
  prisma_failure w' = prisma_failure w ∧
  now w' = now w ∧
  revalidated w' = revalidated w ∧
  prisma_log w `prefix_of` prisma_log w'.

(** A computation that, whatever its outcome, only logs ORM calls. *)
Definition reads_only {A} (m : M A) : Prop :=
  ∀ w o w', m w = (o, w') → only_logged w w'.

(** Two states of the database with the same rows: the action table of
    the second is that of the first in another order of scanning. *)
Definition same_rows (w w' : World) : Prop :=
  table_action w' ≡ₚ table_action w ∧
  table_actionClass w' = table_actionClass w ∧
  table_person w' = table_person w ∧
  prisma_failure w' = prisma_failure w.

(** The pages [1 .. n] of a list operation, one after the other, page [p]
    requested in the world [worlds p]. *)
Definition pagesUpTo (n : nat) (operation : option Z → M (list TAction))
    (worlds : nat → World) : list TAction :=
  concat ((λ p : nat, returned (operation (Some (Z.of_nat p)) (worlds p))) <$> seq 1 n).

(** ** A second installation, whose person service is down *)

Module Outage.

#[local] Instance installation : Imports := {|
  ZId := ZId (Imports := Sample.installation);
  ZOptionalNumber := ZOptionalNumber (Imports := Sample.installation);
  ZActionInput := ZActionInput (Imports := Sample.installation);
  ITEMS_PER_PAGE := ITEMS_PER_PAGE (Imports := Sample.installation);
  SERVICES_REVALIDATION_INTERVAL :=
    SERVICES_REVALIDATION_INTERVAL (Imports := Sample.installation);
  webhookCache_tag_byId := webhookCache_tag_byId (Imports := Sample.installation);
  actionCache_tag_byPersonId :=
    actionCache_tag_byPersonId (Imports := Sample.installation);
  actionCache_tag_byEnvironmentId :=
    actionCache_tag_byEnvironmentId (Imports := Sample.installation);
  actionClassCache_tag_byId := actionClassCache_tag_byId (Imports := Sample.installation);
  activePersonCache_tag_byId :=
    activePersonCache_tag_byId (Imports := Sample.installation);
  getWebhook := λ _ _, Throw (OtherError "webhook service is down");
  getAttributeClass := getAttributeClass (Imports := Sample.installation);
  hasUserEnvironmentAccess := λ _ _ _, Throw (OtherError "environment service is down");
  getActionClassByEnvironmentIdAndName :=
    getActionClassByEnvironmentIdAndName (Imports := Sample.installation);
  createActionClass := λ _ _ _, Throw (PrismaClientKnownRequestError "P1001");
  createActionClass_tags := createActionClass_tags (Imports := Sample.installation);
  getIsPersonMonthlyActive := λ _ _, Throw (PrismaClientKnownRequestError "P1001");
  capturePosthogEnvironmentEvent :=
    capturePosthogEnvironmentEvent (Imports := Sample.installation);
  getStartDateOfLastWeek := getStartDateOfLastWeek (Imports := Sample.installation);
  getStartDateOfLastMonth := getStartDateOfLastMonth (Imports := Sample.installation);
  getStartDateOfLastQuarter := getStartDateOfLastQuarter (Imports := Sample.installation);
  cuid := cuid (Imports := Sample.installation)
|}.

End Outage.

(** ** A third installation, whose identifiers may contain hyphens *)

Module Lenient.

#[local] Instance installation : Imports := {|
  ZId := λ s, negb (is_empty s);
  ZOptionalNumber := ZOptionalNumber (Imports := Sample.installation);
  ZActionInput := ZActionInput (Imports := Sample.installation);
  ITEMS_PER_PAGE := ITEMS_PER_PAGE (Imports := Sample.installation);
  SERVICES_REVALIDATION_INTERVAL :=
    SERVICES_REVALIDATION_INTERVAL (Imports := Sample.installation);
  webhookCache_tag_byId := webhookCache_tag_byId (Imports := Sample.installation);
  actionCache_tag_byPersonId :=
    actionCache_tag_byPersonId (Imports := Sample.installation);
  actionCache_tag_byEnvironmentId :=
    actionCache_tag_byEnvironmentId (Imports := Sample.installation);
  actionClassCache_tag_byId := actionClassCache_tag_byId (Imports := Sample.installation);
  activePersonCache_tag_byId :=
    activePersonCache_tag_byId (Imports := Sample.installation);
  getWebhook := getWebhook (Imports := Sample.installation);
  getAttributeClass := getAttributeClass (Imports := Sample.installation);
  hasUserEnvironmentAccess := λ userId environmentId _,
    Return (bool_decide (userId = "user-1") && bool_decide (environmentId = "env1"));
  getActionClassByEnvironmentIdAndName :=
    getActionClassByEnvironmentIdAndName (Imports := Sample.installation);
  createActionClass := createActionClass (Imports := Sample.installation);
  createActionClass_tags := createActionClass_tags (Imports := Sample.installation);
  getIsPersonMonthlyActive := getIsPersonMonthlyActive (Imports := Sample.installation);
  capturePosthogEnvironmentEvent :=
    capturePosthogEnvironmentEvent (Imports := Sample.installation);
  getStartDateOfLastWeek := getStartDateOfLastWeek (Imports := Sample.installation);
  getStartDateOfLastMonth := getStartDateOfLastMonth (Imports := Sample.installation);
  getStartDateOfLastQuarter := getStartDateOfLastQuarter (Imports := Sample.installation);
  cuid := cuid (Imports := Sample.installation)
|}.

End Lenient.

(** ** A returning visitor, for examples

    User [user2] scrolls half a page in [env2], where the action class
    exists: once with every service up, once during the outage. *)

Module Visit.

Definition scroll : TActionInput := mkTActionInput "env2" "user2" "50% Scroll".

Definition scrolled : Outcome TAction * World :=
  Eval vm_compute in @createAction Sample.installation scroll Sample.world.

Definition interrupted : Outcome TAction * World :=
  Eval vm_compute in @createAction Outage.installation scroll Sample.world.

(** The same scroll by a user nobody knows. *)
Definition stranger : TActionInput := mkTActionInput "env2" "nobody" "50% Scroll".

(** A first visit by a user nobody knows, under a name without a class. *)
Definition newcomer : TActionInput := mkTActionInput "env2" "nobody" "checkout".

(** The database after it has reorganised the action table. *)
Definition reorganised : World :=
  mkWorld (reverse (table_action Sample.world)) (table_actionClass Sample.world)
    (table_person Sample.world) None (now Sample.world) [] [].

(** The data cache after a first request for all actions of person [p1] on
    a server that started with an empty one, and the world then. *)
Definition requested : World := log_call action_findMany Sample.world.

Definition cache1 : DataCache :=
  <[ keyParts (@cached_getActionsByPersonId Sample.installation "p1" None) :=
       mkCacheEntry
         (JSON_stringify
            (returned (@getActionsByPersonId Sample.installation "p1" None
                         Sample.world)))
         ["people-p1-actions"] (now requested) (length (revalidated requested)) ]> ∅.

(** A browser that remembers an earlier choice. *)
Definition browser : Browser :=
  mkBrowser {[ "onboardingPathway" := "website"; "theme" := "dark" ]} [].

End Visit.

(** * Properties *)

(** ** Running the monad *)

Ltac unfold_monad :=
  unfold invoke, bind, ret, throw, try_catch, read, effect, validateInputs,
    rethrowAsDatabaseError in *; simpl in *.

Lemma forallb_safeParse_2 {A B} (a : A) (sa : A → bool) (b : B) (sb : B → bool) :
  forallb safeParse [vp a sa; vp b sb] = sa a && sb b.
Proof. simpl. by rewrite andb_true_r. Qed.

Lemma forallb_safeParse_1 {A} (a : A) (sa : A → bool) :
  forallb safeParse [vp a sa] = sa a.
Proof. simpl. by rewrite andb_true_r. Qed.

(** ** Access checks *)

Section Access.
Context `{Imports}.

Lemma canUserAccessWebhook_unfold userId webhookId w :
  canUserAccessWebhook userId webhookId w =
    if ZId userId && ZId webhookId then
      match getWebhook webhookId w with
      | Return None => (Return false, w)
      | Return (Some webhook) =>
          (hasUserEnvironmentAccess userId (Webhook.environmentId webhook) w, w)
      | Throw e => (Throw e, w)
      end
    else (Throw ValidationError, w).
Proof.
  unfold canUserAccessWebhook, cached_canUserAccessWebhook. unfold_monad.
  rewrite andb_true_r.
  destruct (ZId userId && ZId webhookId); [|done].
  destruct (getWebhook webhookId w) as [[webhook|]|e]; try done.
  by destruct (hasUserEnvironmentAccess _ _ w) as [[]|].
Qed.

Lemma canUserAccessAttributeClass_unfold userId attributeClassId w :
  canUserAccessAttributeClass userId attributeClassId w =
    if ZId userId && ZId attributeClassId then
      if is_empty userId then (Return false, w) else
      match getAttributeClass attributeClassId w with
      | Return None => (Return false, w)
      | Return (Some attributeClass) =>
          (hasUserEnvironmentAccess userId
             (AttributeClass.environmentId attributeClass) w, w)
      | Throw e => (Throw e, w)
      end
    else (Throw ValidationError, w).
Proof.
  unfold canUserAccessAttributeClass, cached_canUserAccessAttributeClass. unfold_monad.
  rewrite andb_true_r.
  destruct (ZId userId && ZId attributeClassId); [|done].
  destruct (is_empty userId); [done|].
  destruct (getAttributeClass attributeClassId w) as [[attributeClass|]|e]; try done.
  by destruct (hasUserEnvironmentAccess _ _ w) as [[]|].
Qed.

Lemma valid_not_empty userId : ZId "" = false → ZId userId = true → is_empty userId = false.
Proof.
  intros Hempty Hvalid. unfold is_empty. apply bool_decide_eq_false.
  intros ->. congruence.
Qed.


End Access.

(** ** Counting *)

Lemma filter_bool_Prop {A} (f : A → bool) (P : A → Prop) `{∀ a, Decision (P a)} l :
  (∀ a, f a = true ↔ P a) → List.filter f l = filter P l.
Proof.
  intros Hf. induction l as [|a l IH]; [done|]. simpl.
  rewrite IH, filter_cons.
  destruct (f a) eqn:Hfa, (decide (P a)) as [HP|HP]; try done.
  - apply Hf in Hfa. done.
  - apply Hf in HP. congruence.
Qed.

Lemma actionClass_of_log call w a : actionClass_of (log_call call w) a = actionClass_of w a.
Proof. done. Qed.

Lemma matches_log call w conds a : matches (log_call call w) conds a = matches w conds a.
Proof. done. Qed.

Lemma selected_log call w conds : selected (log_call call w) conds = selected w conds.
Proof. done. Qed.

Lemma prisma_action_count_returns w conds (P : Action.t → Prop) `{∀ a, Decision (P a)} :
  prisma_failure w = None →
  (∀ a, matches w conds a = true ↔ P a) →
  prisma_action_count conds w = (Return (numberOfActions w P), log_call action_count w).
Proof.
  intros Hdb HP. unfold prisma_action_count, prisma. simpl. rewrite Hdb.
  unfold numberOfActions. rewrite selected_log. unfold selected.
  by rewrite (filter_bool_Prop _ P _ HP).
Qed.

Lemma prisma_action_count_fails w conds e :
  prisma_failure w = Some e →
  prisma_action_count conds w = (Throw e, log_call action_count w).
Proof. intros Hdb. unfold prisma_action_count, prisma. simpl. by rewrite Hdb. Qed.

Lemma satisfies_actionClass_id w a actionClassId :
  satisfies w a (where_actionClass_id actionClassId) = true ↔ ofActionClass w actionClassId a.
Proof.
  unfold ofActionClass. simpl. destruct (actionClass_of w a) as [c|]; simpl.
  - rewrite bool_decide_eq_true. naive_solver.
  - naive_solver.
Qed.



Lemma matches_person_class w personId actionClassId a :
  matches w [where_personId personId; where_actionClass_id actionClassId] a = true ↔
  Action.personId a = personId ∧ ofActionClass w actionClassId a.
Proof.
  unfold matches, forallb. rewrite andb_true_r, !andb_true_iff.
  rewrite satisfies_actionClass_id. simpl.
  by rewrite bool_decide_eq_true.
Qed.

(** Under referential integrity an action is of a class exactly when its
    foreign key names the class. *)
Lemma ofActionClass_foreign_key w actionClassId a :
  foreign_keys w → a ∈ table_action w →
  ofActionClass w actionClassId a ↔ Action.actionClassId a = actionClassId.
Proof.
  intros Hfk Ha. unfold foreign_keys in Hfk.
  destruct (proj1 (Forall_forall _ _) Hfk a Ha) as [[c Hc] _]. unfold ofActionClass. rewrite Hc. simpl.
  unfold actionClass_of in Hc. apply List.find_some in Hc as [_ Hc].
  apply bool_decide_eq_true in Hc. rewrite <- Hc. naive_solver.
Qed.

Section Counts.
Context `{Imports}.





End Counts.

(** ** Validation comes first *)

Section Validation.
Context `{Imports}.

(** C3.  Every operation of the action service parses its inputs before
    anything else.  If [personId], [environmentId], [actionClassId] or
    [page] fails its schema, or the data of [createAction] fails
    [ZActionInput], the operation throws the validation error in the world
    it was called in: no ORM call has been logged, no table has changed and
    no tag has been revalidated. *)
Theorem invalid_input_throws_in_unchanged_world
    (personId environmentId actionClassId : string) (page : option Z)
    (data : TActionInput) (w : World) :
  (ZId personId && ZOptionalNumber page = false →
     getActionsByPersonId personId page w = (Throw ValidationError, w)) ∧
  (ZId environmentId && ZOptionalNumber page = false →
     getActionsByEnvironmentId environmentId page w = (Throw ValidationError, w)) ∧
  (ZActionInput data = false →
     createAction data w = (Throw ValidationError, w)) ∧
  (ZId actionClassId = false →
     getActionCountInLastHour actionClassId w = (Throw ValidationError, w) ∧
     getActionCountInLast24Hours actionClassId w = (Throw ValidationError, w) ∧
     getActionCountInLast7Days actionClassId w = (Throw ValidationError, w)) ∧
  (ZId actionClassId && ZId personId = false →
     getActionCountInLastQuarter actionClassId personId w = (Throw ValidationError, w) ∧
     getActionCountInLastMonth actionClassId personId w = (Throw ValidationError, w) ∧
     getActionCountInLastWeek actionClassId personId w = (Throw ValidationError, w) ∧
     getTotalOccurrencesForAction actionClassId personId w = (Throw ValidationError, w) ∧
     getLastOccurrenceDaysAgo actionClassId personId w = (Throw ValidationError, w) ∧
     getFirstOccurrenceDaysAgo actionClassId personId w = (Throw ValidationError, w)).
Proof.
  split_and!.
  - intros Hinvalid. unfold getActionsByPersonId, cached_getActionsByPersonId, invoke.
    unfold bind at 1 2. simpl callback. unfold validateInputs.
    by rewrite forallb_safeParse_2, Hinvalid.
  - intros Hinvalid.
    unfold getActionsByEnvironmentId, cached_getActionsByEnvironmentId, invoke.
    unfold bind at 1 2. simpl callback. unfold validateInputs.
    by rewrite forallb_safeParse_2, Hinvalid.
  - intros Hinvalid. unfold createAction. unfold bind at 1. unfold validateInputs.
    by rewrite forallb_safeParse_1, Hinvalid.
  - intros Hinvalid.
    unfold getActionCountInLastHour, getActionCountInLast24Hours,
      getActionCountInLast7Days, invoke. simpl callback.
    unfold bind at 1 4 7. unfold validateInputs.
    by rewrite forallb_safeParse_1, Hinvalid.
  - intros Hinvalid.
    unfold getActionCountInLastQuarter, getActionCountInLastMonth,
      getActionCountInLastWeek, getTotalOccurrencesForAction,
      getLastOccurrenceDaysAgo, getFirstOccurrenceDaysAgo, invoke. simpl callback.
    repeat split;
      (unfold bind at 1; unfold validateInputs;
       by rewrite forallb_safeParse_2, Hinvalid).
Qed.

End Validation.

(** ** Ordering by [createdAt] *)

#[global] Instance newest_first_total : Total newest_first.
Proof. intros x y. unfold newest_first. lia. Qed.

#[global] Instance newest_first_trans : Transitive newest_first.
Proof. intros x y z. unfold newest_first. lia. Qed.

#[global] Instance oldest_first_total : Total oldest_first.
Proof. intros x y. unfold oldest_first. lia. Qed.

#[global] Instance oldest_first_trans : Transitive oldest_first.
Proof. intros x y z. unfold oldest_first. lia. Qed.

Lemma orderBy_createdAt_Permutation order rows : orderBy_createdAt order rows ≡ₚ rows.
Proof. destruct order; apply merge_sort_Permutation. Qed.

Lemma orderBy_desc_sorted rows : StronglySorted newest_first (orderBy_createdAt desc rows).
Proof. apply StronglySorted_merge_sort; apply _. Qed.

Lemma orderBy_asc_sorted rows : StronglySorted oldest_first (orderBy_createdAt asc rows).
Proof. apply StronglySorted_merge_sort; apply _. Qed.

Lemma head_orderBy_None order rows :
  head (orderBy_createdAt order rows) = None ↔ rows = [].
Proof.
  rewrite head_None. split.
  - intros Hnil. apply Permutation_nil_r. rewrite <- Hnil.
    symmetry. apply orderBy_createdAt_Permutation.
  - intros ->. by destruct order.
Qed.

Lemma head_orderBy_desc rows x :
  head (orderBy_createdAt desc rows) = Some x →
  x ∈ rows ∧ ∀ y, y ∈ rows → Action.createdAt y ≤ Action.createdAt x.
Proof.
  intros Hhead. pose proof (orderBy_desc_sorted rows) as Hsorted.
  pose proof (orderBy_createdAt_Permutation desc rows) as Hperm.
  destruct (orderBy_createdAt desc rows) as [|x' l]; simplify_eq/=.
  apply StronglySorted_cons in Hsorted as [Hall _]. rewrite Forall_forall in Hall.
  split.
  - rewrite <- Hperm. apply list_elem_of_here.
  - intros y Hy. rewrite <- Hperm in Hy. apply elem_of_cons in Hy as [->|Hy]; [lia|].
    by apply Hall.
Qed.

Lemma head_orderBy_asc rows x :
  head (orderBy_createdAt asc rows) = Some x →
  x ∈ rows ∧ ∀ y, y ∈ rows → Action.createdAt x ≤ Action.createdAt y.
Proof.
  intros Hhead. pose proof (orderBy_asc_sorted rows) as Hsorted.
  pose proof (orderBy_createdAt_Permutation asc rows) as Hperm.
  destruct (orderBy_createdAt asc rows) as [|x' l]; simplify_eq/=.
  apply StronglySorted_cons in Hsorted as [Hall _]. rewrite Forall_forall in Hall.
  split.
  - rewrite <- Hperm. apply list_elem_of_here.
  - intros y Hy. rewrite <- Hperm in Hy. apply elem_of_cons in Hy as [->|Hy]; [lia|].
    by apply Hall.
Qed.

Lemma prisma_action_findFirst_returns w conds order :
  prisma_failure w = None →
  prisma_action_findFirst conds order w =
    (Return (Action.createdAt <$> head (orderBy_createdAt order (selected w conds))),
     log_call action_findFirst w).
Proof. intros Hdb. unfold prisma_action_findFirst, prisma. simpl. by rewrite Hdb. Qed.

Lemma prisma_action_findFirst_fails w conds order e :
  prisma_failure w = Some e →
  prisma_action_findFirst conds order w = (Throw e, log_call action_findFirst w).
Proof. intros Hdb. unfold prisma_action_findFirst, prisma. simpl. by rewrite Hdb. Qed.


Lemma numberOfActions_mono w (P Q : Action.t → Prop)
    `{∀ a, Decision (P a)} `{∀ a, Decision (Q a)} :
  (∀ a, P a → Q a) → numberOfActions w P ≤ numberOfActions w Q.
Proof.
  intros HPQ. unfold numberOfActions. apply inj_le.
  induction (table_action w) as [|a l IH]; [done|].
  rewrite !filter_cons. destruct (decide (P a)) as [HP|HP].
  - rewrite decide_True by auto. simpl. lia.
  - destruct (decide (Q a)); simpl; lia.
Qed.


Section Relations.
Context `{Imports}.


End Relations.

(** ** Lists of actions *)

Lemma formatDateFields_toTAction row : formatDateFields (toTAction row) = toTAction row.
Proof. done. Qed.

Lemma formatDateFields_deserializes action :
  createdAt (formatDateFields action) = DateObject (getTime (createdAt action)) ∧
  id (formatDateFields action) = id action ∧
  personId (formatDateFields action) = personId action ∧
  properties (formatDateFields action) = properties action ∧
  actionClass (formatDateFields action) = actionClass action.
Proof. done. Qed.

Lemma foldl_push {A B} (f : A → B) (l : list A) (acc : list B) :
  foldl (λ actions action, actions ++ [f action]) acc l = acc ++ (f <$> l).
Proof.
  revert acc. induction l as [|x l IH]; intros acc; simpl.
  - by rewrite app_nil_r.
  - by rewrite IH, <- app_assoc.
Qed.

Lemma matches_person w pid a :
  matches w [where_person_id pid] a = true ↔ ofPerson w pid a.
Proof.
  unfold matches, ofPerson. simpl. rewrite andb_true_r.
  destruct (person_of w a) as [p|]; simpl.
  - rewrite bool_decide_eq_true. naive_solver.
  - naive_solver.
Qed.

Lemma matches_environment w eid a :
  matches w [where_actionClass_environmentId eid] a = true ↔ inEnvironment w eid a.
Proof.
  unfold matches, inEnvironment. simpl. rewrite andb_true_r.
  destruct (actionClass_of w a) as [c|]; simpl.
  - rewrite bool_decide_eq_true. naive_solver.
  - naive_solver.
Qed.

Lemma ofPerson_personId w pid a : ofPerson w pid a → Action.personId a = pid.
Proof.
  unfold ofPerson, person_of. destruct (List.find _ _) as [p|] eqn:Hp; [|done].
  apply List.find_some in Hp as [_ Hp]. apply bool_decide_eq_true in Hp.
  simpl. congruence.
Qed.

Lemma shaped_elem w rows t :
  t ∈ toTAction <$> include_actionClass w rows ↔ ∃ a, a ∈ rows ∧ shaped w a t.
Proof.
  unfold include_actionClass, shaped. rewrite list_elem_of_fmap. split.
  - intros ([a c] & -> & Hin). apply list_elem_of_omap in Hin as (a' & Ha' & Hc).
    destruct (actionClass_of w a') as [c'|] eqn:Hc'; simplify_eq. eauto.
  - intros (a & Ha & c & Hc & ->). exists (a, c). split; [done|].
    apply list_elem_of_omap. exists a. by rewrite Hc.
Qed.



Lemma shaped_Forall2 w rows :
  Forall (λ a, is_Some (actionClass_of w a)) rows →
  Forall2 (shaped w) rows (toTAction <$> include_actionClass w rows).
Proof.
  induction 1 as [|a rows [c Hc] _ IH]; [constructor|].
  unfold include_actionClass. simpl. rewrite Hc. simpl. constructor; [|done].
  by exists c.
Qed.


Section Lists.
Context `{Imports}.

Lemma pageOfRows_sublist page rows : pageOfRows page rows `sublist_of` rows.
Proof.
  unfold pageOfRows. destruct page as [p|]; [|done]. case_bool_decide; [done|].
  etrans; [apply sublist_take|apply sublist_drop].
Qed.

Lemma pageOfRows_positive p rows :
  0 < p →
  pageOfRows (Some p) rows =
    take ITEMS_PER_PAGE (drop (ITEMS_PER_PAGE * Z.to_nat (p - 1)) rows).
Proof.
  intros Hp. unfold pageOfRows. rewrite bool_decide_eq_false_2 by lia.
  by rewrite Z2Nat.inj_mul, Nat2Z.id by lia.
Qed.

(** The request shared by the two list operations. *)
Lemma findMany_page conds page w :
  prisma_action_findMany conds desc (if_page page (λ _, ITEMS_PER_PAGE))
    (if_page page (λ page, Z.of_nat ITEMS_PER_PAGE * (page - 1))) w =
  (match prisma_failure w with
   | Some e => Throw e
   | None =>
       match if_page page (λ p, Z.of_nat ITEMS_PER_PAGE * (p - 1)) with
       | Some skip =>
           match rejected_skip skip with
           | Some e => Throw e
           | None =>
               Return (include_actionClass w
                         (pageOfRows page (orderBy_createdAt desc (selected w conds))))
           end
       | None =>
           Return (include_actionClass w
                     (pageOfRows page (orderBy_createdAt desc (selected w conds))))
       end
   end, log_call action_findMany w).
Proof.
  unfold prisma_action_findMany, prisma. simpl.
  destruct (prisma_failure w) as [e|]; [done|].
  destruct page as [p|]; [|done]. unfold if_page, pageOfRows.
  destruct (bool_decide (p = 0)); [done|]. by destruct (rejected_skip _).
Qed.

Lemma getActionsByPersonId_unfold pid page w :
  getActionsByPersonId pid page w =
    if ZId pid && ZOptionalNumber page then
      (match prisma_failure w with
       | Some e => Throw (asDatabaseError e)
       | None =>
           match if_page page (λ p, Z.of_nat ITEMS_PER_PAGE * (p - 1)) with
           | Some skip =>
               match rejected_skip skip with
               | Some e => Throw (asDatabaseError e)
               | None =>
                   Return (toTAction <$> include_actionClass w
                             (pageOfRows page
                                (orderBy_createdAt desc
                                   (selected w [where_person_id pid]))))
               end
           | None =>
               Return (toTAction <$> include_actionClass w
                         (pageOfRows page
                            (orderBy_createdAt desc (selected w [where_person_id pid]))))
           end
       end, log_call action_findMany w)
    else (Throw ValidationError, w).
Proof.
  unfold getActionsByPersonId, cached_getActionsByPersonId, invoke. simpl callback.
  unfold bind at 1 2. unfold validateInputs. rewrite forallb_safeParse_2.
  destruct (ZId pid && ZOptionalNumber page); [|done].
  unfold try_catch, bind. rewrite findMany_page.
  unfold rethrowAsDatabaseError, asDatabaseError, throw, ret.
  destruct (prisma_failure w) as [e|].
  { by destruct (isPrismaClientKnownRequestError e). }
  destruct (if_page page _) as [skip|];
    [destruct (rejected_skip skip) as [e|];
       [by destruct (isPrismaClientKnownRequestError e)|]|];
    rewrite <- list_fmap_compose; f_equal; f_equal; by apply list_fmap_ext.
Qed.

Lemma getActionsByEnvironmentId_unfold eid page w :
  getActionsByEnvironmentId eid page w =
    if ZId eid && ZOptionalNumber page then
      (match prisma_failure w with
       | Some e => Throw (asDatabaseError e)
       | None =>
           match if_page page (λ p, Z.of_nat ITEMS_PER_PAGE * (p - 1)) with
           | Some skip =>
               match rejected_skip skip with
               | Some e => Throw (asDatabaseError e)
               | None =>
                   Return (toTAction <$> include_actionClass w
                             (pageOfRows page
                                (orderBy_createdAt desc
                                   (selected w [where_actionClass_environmentId eid]))))
               end
           | None =>
               Return (toTAction <$> include_actionClass w
                         (pageOfRows page
                            (orderBy_createdAt desc
                               (selected w [where_actionClass_environmentId eid]))))
           end
       end, log_call action_findMany w)
    else (Throw ValidationError, w).
Proof.
  unfold getActionsByEnvironmentId, cached_getActionsByEnvironmentId, invoke.
  simpl callback.
  unfold bind at 1 2. unfold validateInputs. rewrite forallb_safeParse_2.
  destruct (ZId eid && ZOptionalNumber page); [|done].
  unfold try_catch, bind. rewrite findMany_page.
  unfold rethrowAsDatabaseError, asDatabaseError, throw, ret.
  destruct (prisma_failure w) as [e|].
  { by destruct (isPrismaClientKnownRequestError e). }
  destruct (if_page page _) as [skip|];
    [destruct (rejected_skip skip) as [e|];
       [by destruct (isPrismaClientKnownRequestError e)|]|];
    rewrite foldl_push; simpl; rewrite <- list_fmap_compose;
    f_equal; f_equal; by apply list_fmap_ext.
Qed.

End Lists.

Lemma ofPerson_foreign_key w pid a :
  foreign_keys w → a ∈ table_action w →
  ofPerson w pid a ↔ Action.personId a = pid.
Proof.
  intros Hfk Ha. unfold foreign_keys in Hfk.
  destruct (proj1 (Forall_forall _ _) Hfk a Ha) as [_ [p Hp]].
  unfold ofPerson. rewrite Hp. simpl.
  unfold person_of in Hp. apply List.find_some in Hp as [_ Hp].
  apply bool_decide_eq_true in Hp. rewrite <- Hp. naive_solver.
Qed.

Lemma inEnvironment_actionClass w eid a t :
  inEnvironment w eid a → shaped w a t → ActionClass.environmentId (actionClass t) = eid.
Proof.
  unfold inEnvironment. intros Henv (c & Hc & ->). rewrite Hc in Henv. simpl in *.
  congruence.
Qed.

Lemma selected_elem w conds a :
  a ∈ selected w conds ↔ a ∈ table_action w ∧ matches w conds a = true.
Proof. unfold selected. by rewrite !list_elem_of_In, List.filter_In. Qed.

Section ListProperties.
Context `{Imports}.

Lemma answer_elem w conds page t :
  t ∈ toTAction <$> include_actionClass w
        (pageOfRows page (orderBy_createdAt desc (selected w conds))) →
  ∃ a, a ∈ table_action w ∧ matches w conds a = true ∧ shaped w a t.
Proof.
  intros (a & Ha & Hshaped)%shaped_elem. exists a.
  eapply elem_of_sublist in Ha; [|apply pageOfRows_sublist].
  rewrite orderBy_createdAt_Permutation in Ha.
  apply selected_elem in Ha as [Ha Hmatches]. done.
Qed.


Lemma getActionsByPersonId_Return pid page w rs w' :
  getActionsByPersonId pid page w = (Return rs, w') →
  rs = toTAction <$> include_actionClass w
         (pageOfRows page (orderBy_createdAt desc (selected w [where_person_id pid]))).
Proof.
  rewrite getActionsByPersonId_unfold.
  destruct (ZId pid && ZOptionalNumber page); [|done].
  destruct (prisma_failure w); [done|].
  destruct (if_page page _) as [skip|]; [destruct (rejected_skip skip)|]; congruence.
Qed.

Lemma getActionsByEnvironmentId_Return eid page w rs w' :
  getActionsByEnvironmentId eid page w = (Return rs, w') →
  rs = toTAction <$> include_actionClass w
         (pageOfRows page
            (orderBy_createdAt desc (selected w [where_actionClass_environmentId eid]))).
Proof.
  rewrite getActionsByEnvironmentId_unfold.
  destruct (ZId eid && ZOptionalNumber page); [|done].
  destruct (prisma_failure w); [done|].
  destruct (if_page page _) as [skip|]; [destruct (rejected_skip skip)|]; congruence.
Qed.

Lemma rejected_skip_None skip : 0 ≤ skip ≤ MAX_INT64 → rejected_skip skip = None.
Proof.
  intros [Hlow Hhigh]. unfold rejected_skip.
  rewrite (proj2 (Z.ltb_ge _ _) Hlow). by rewrite (proj2 (Z.ltb_ge _ _) Hhigh).
Qed.


Lemma if_page_skip_accepted page :
  (∀ p, page = Some p → 0 ≤ p ∧ Z.of_nat ITEMS_PER_PAGE * (p - 1) ≤ MAX_INT64) →
  match if_page page (λ p, Z.of_nat ITEMS_PER_PAGE * (p - 1)) with
  | Some skip => rejected_skip skip = None
  | None => True
  end.
Proof.
  intros Hpage. destruct page as [p|]; [|done]. unfold if_page.
  case_bool_decide; [done|]. destruct (Hpage p eq_refl) as [Hp Hfits].
  apply rejected_skip_None. nia.
Qed.

(** On what the callbacks return, [formatDateFields] changes nothing: the
    callback of a list operation computes what the operation returns. *)
Lemma callback_getActionsByPersonId pid page w :
  callback (cached_getActionsByPersonId pid page) w = getActionsByPersonId pid page w.
Proof.
  unfold getActionsByPersonId, invoke, bind, ret.
  destruct (callback _ w) as [[actions|e] w'] eqn:Hrun; [|done].
  assert (getActionsByPersonId pid page w = (Return (formatDateFields <$> actions), w'))
    as Hplain.
  { unfold getActionsByPersonId, invoke, bind, ret. by rewrite Hrun. }
  revert Hrun. unfold cached_getActionsByPersonId. simpl callback.
  unfold bind at 1, validateInputs.
  destruct (forallb _ _); [|done]. unfold try_catch, bind, ret.
  destruct (prisma_action_findMany _ _ _ _ w) as [[rows|e] w1].
  - intros [= <- <-]. f_equal. f_equal.
    rewrite <- list_fmap_compose. by apply list_fmap_ext.
  - unfold rethrowAsDatabaseError, throw. by case_match.
Qed.

Lemma callback_getActionsByEnvironmentId eid page w :
  callback (cached_getActionsByEnvironmentId eid page) w
    = getActionsByEnvironmentId eid page w.
Proof.
  unfold getActionsByEnvironmentId, invoke, bind, ret.
  destruct (callback _ w) as [[actions|e] w'] eqn:Hrun; [|done].
  revert Hrun. unfold cached_getActionsByEnvironmentId. simpl callback.
  unfold bind at 1, validateInputs.
  destruct (forallb _ _); [|done]. unfold try_catch, bind, ret.
  destruct (prisma_action_findMany _ _ _ _ w) as [[rows|e] w1].
  - intros [= <- <-]. f_equal. f_equal. rewrite foldl_push. simpl.
    rewrite <- list_fmap_compose. by apply list_fmap_ext.
  - unfold rethrowAsDatabaseError, throw. by case_match.
Qed.

Lemma formatDateFields_toJSON (actions : list TAction) :
  formatDateFields <$> (toJSON <$> actions) = formatDateFields <$> actions.
Proof. rewrite <- list_fmap_compose. by apply list_fmap_ext. Qed.

Lemma toJSON_formatDateFields (actions : list TAction) :
  toJSON <$> (formatDateFields <$> actions) = toJSON <$> actions.
Proof. rewrite <- list_fmap_compose. by apply list_fmap_ext. Qed.

Lemma formatDateFields_answer w rows :
  formatDateFields <$> (toTAction <$> include_actionClass w rows)
    = toTAction <$> include_actionClass w rows.
Proof. rewrite <- list_fmap_compose. by apply list_fmap_ext. Qed.

(** What a list operation returns on a server with a data cache: the rows
    the callback shaped in the world [w0] it ran in, which is the present
    world unless the cache held a fresh entry. *)
Lemma served_list_Return (c : Cached (list TAction)) where_ page
    (operation : M (list TAction)) cache w rs w' cache' :
  (∀ w0, callback c w0 = operation w0) →
  (∀ w0 rs0 w0', operation w0 = (Return rs0, w0') →
     rs0 = toTAction <$> include_actionClass w0
             (pageOfRows page (orderBy_createdAt desc (selected w0 where_)))) →
  storedBy c cache →
  served_bind (serve c) (λ actions, served_ret (formatDateFields <$> actions)) cache w
    = (Return rs, w', cache') →
  ∃ actions w0,
    serve c cache w = (Return actions, w', cache') ∧
    rs = formatDateFields <$> actions ∧
    match cachedValue c cache w with
    | Some _ => actions = toJSON <$> rs
    | None => actions = rs ∧ w0 = w
    end ∧
    rs = toTAction <$> include_actionClass w0
           (pageOfRows page (orderBy_createdAt desc (selected w0 where_))).
Proof.
  intros Hcallback Hreturn Hstored.
  unfold served_bind, served_ret, serve.
  destruct (cachedValue c cache w) as [actions|] eqn:Hcached.
  - intros [= <- <- <-].
    unfold cachedValue in Hcached.
    destruct (cache !! keyParts c) as [entry|] eqn:Hentry; [|done].
    destruct (fresh _ entry w); [|done].
    destruct (Hstored entry Hentry) as (_ & w0 & w0' & value & Hrun & Hbody).
    rewrite Hbody in Hcached. injection Hcached as <-.
    rewrite Hcallback in Hrun. apply Hreturn in Hrun.
    exists (toJSON <$> value), w0.
    rewrite formatDateFields_toJSON, toJSON_formatDateFields.
    split; [done|]. split; [done|]. split; [done|].
    by rewrite Hrun, formatDateFields_answer.
  - destruct (callback c w) as [[actions|e] w1] eqn:Hrun; [|done].
    intros [= <- <- <-]. rewrite Hcallback in Hrun. apply Hreturn in Hrun.
    exists actions, w. by rewrite Hrun, formatDateFields_answer.
Qed.

(** C5.  On a server whose data cache holds, under the keys of the list
    operations, results of their callbacks: [getActionsByPersonId] returns
    only actions of the given person and [getActionsByEnvironmentId] only
    actions whose action class belongs to the given environment.  What
    either returns is the list handed back by the cache with
    [formatDateFields] applied to every element.  Handed back is the
    callback's own result when the callback has run, and otherwise the JSON
    of the returned list, in which [createdAt] is a string.  Every element
    returned is the object [{ id, createdAt, personId, properties,
    actionClass }] of a selected row of the table and of the action class of
    that row, with [createdAt] a [Date] object; the table is that of the
    world the callback ran in, the present one unless the cache held a
    fresh entry. *)
Theorem action_lists_return_shaped_matching_actions
    (pid eid : string) (page : option Z) (cache : DataCache) (w : World) :
  (storedBy (cached_getActionsByPersonId pid page) cache →
   ∀ rs w' cache',
     served_getActionsByPersonId pid page cache w = (Return rs, w', cache') →
     ∃ actions w0,
       serve (cached_getActionsByPersonId pid page) cache w
         = (Return actions, w', cache') ∧
       rs = formatDateFields <$> actions ∧
       match cachedValue (cached_getActionsByPersonId pid page) cache w with
       | Some _ => actions = toJSON <$> rs
       | None => actions = rs ∧ w0 = w
       end ∧
       Forall (λ t, personId t = pid ∧
                    (∃ ms, createdAt t = DateObject ms) ∧
                    ∃ a, a ∈ table_action w0 ∧ ofPerson w0 pid a ∧ shaped w0 a t) rs) ∧
  (storedBy (cached_getActionsByEnvironmentId eid page) cache →
   ∀ rs w' cache',
     served_getActionsByEnvironmentId eid page cache w = (Return rs, w', cache') →
     ∃ actions w0,
       serve (cached_getActionsByEnvironmentId eid page) cache w
         = (Return actions, w', cache') ∧
       rs = formatDateFields <$> actions ∧
       match cachedValue (cached_getActionsByEnvironmentId eid page) cache w with
       | Some _ => actions = toJSON <$> rs
       | None => actions = rs ∧ w0 = w
       end ∧
       Forall (λ t, ActionClass.environmentId (actionClass t) = eid ∧
                    (∃ ms, createdAt t = DateObject ms) ∧
                    ∃ a, a ∈ table_action w0 ∧ inEnvironment w0 eid a ∧ shaped w0 a t) rs).
Proof.
  split; intros Hstored rs w' cache' Hrun.
  - eapply (served_list_Return _ [where_person_id pid] page) in Hrun
      as (actions & w0 & Hserved & Hformat & Hhanded & Hrows);
      [|apply callback_getActionsByPersonId
       |intros w0 rs0 w0'; apply getActionsByPersonId_Return|done].
    exists actions, w0. split_and!; [done..|].
    rewrite Hrows. apply Forall_forall.
    intros t (a & Ha & Hmatches & Hshaped)%answer_elem.
    apply matches_person in Hmatches.
    pose proof Hshaped as (c & Hc & ->). split_and!.
    + simpl. by eapply ofPerson_personId.
    + by eexists.
    + by exists a.
  - eapply (served_list_Return _ [where_actionClass_environmentId eid] page) in Hrun
      as (actions & w0 & Hserved & Hformat & Hhanded & Hrows);
      [|apply callback_getActionsByEnvironmentId
       |intros w0 rs0 w0'; apply getActionsByEnvironmentId_Return|done].
    exists actions, w0. split_and!; [done..|].
    rewrite Hrows. apply Forall_forall.
    intros t (a & Ha & Hmatches & Hshaped)%answer_elem.
    apply matches_environment in Hmatches. split_and!.
    + by eapply inEnvironment_actionClass.
    + destruct Hshaped as (c & Hc & ->). by eexists.
    + by exists a.
Qed.


End ListProperties.

(** ** [createAction] *)

Lemma actionType_decide {A} (P Q : Prop) `{Decision P} `{Decision Q} (x y : A) :
  (if bool_decide P || bool_decide Q then x else y) = if decide (P ∨ Q) then x else y.
Proof.
  rewrite <- bool_decide_or. destruct (decide (P ∨ Q)) as [HPQ|HPQ].
  - by rewrite bool_decide_eq_true_2.
  - by rewrite bool_decide_eq_false_2.
Qed.

Section CreateAction.
Context `{Imports}.

(** The steps of a call that returns. *)
Lemma createAction_Return data w action w' :
  createAction data w = (Return action, w') →
  ∃ c w1 p (isPersonMonthlyActive : bool),
    ZActionInput data = true ∧
    resolvesActionClass data w c w1 ∧
    prisma_failure w1 = None ∧
    p ∈ table_person w1 ∧
    Person.environmentId p = input_environmentId data ∧
    Person.userId p = input_userId data ∧
    let row := Action.mk (cuid (log_call action_create w1)) (now w1) (Person.id p) []
                 (ActionClass.id c) in
    let w2 := insert_action row (log_call action_create w1) in
    getIsPersonMonthlyActive (Person.id p) w2 = Return isPersonMonthlyActive ∧
    action = mkTAction (Action.id row) (DateObject (now w1)) (Person.id p) [] c ∧
    w' = revalidateTag (actionCache_tag_byPersonId (Person.id p))
           (revalidateTag (actionCache_tag_byEnvironmentId (input_environmentId data))
              (if isPersonMonthlyActive then w2
               else revalidateTag (activePersonCache_tag_byId (Person.id p)) w2)).
Proof.
  unfold createAction, resolvesActionClass.
  unfold bind at 1. unfold validateInputs. rewrite forallb_safeParse_1.
  destruct (ZActionInput data); [|done].
  unfold try_catch, bind at 1. unfold read at 1.
  rewrite actionType_decide.
  destruct (getActionClassByEnvironmentIdAndName _ _ w) as [found|e];
    [|unfold rethrowAsDatabaseError, throw; by case_match].
  unfold bind at 1.
  set (input := mkTActionClassInput _ _ _).
  assert (∃ r, (match found with
                | Some actionClass => ret actionClass
                | None => call_createActionClass (input_environmentId data) input
                end) w = r ∧
               match r with
               | (Return c, w1) =>
                   (found = Some c ∧ w1 = w) ∨
                   (found = None ∧
                    createActionClass (input_environmentId data) input w = Return c ∧
                    w1 = created_actionClass c w)
               | (Throw _, _) => True
               end) as ([[c|e] w1] & -> & Hresolved).
  { eexists. split; [done|]. destruct found as [c|]; simpl.
    - by left.
    - unfold call_createActionClass.
      destruct (createActionClass _ _ w) as [c|e]; [|done]. by right. }
  2: { unfold rethrowAsDatabaseError, throw; by case_match. }
  unfold bind at 1. unfold prisma_action_create, prisma.
  change (prisma_failure (log_call action_create w1)) with (prisma_failure w1).
  destruct (prisma_failure w1) as [e|] eqn:Hdb;
    [unfold rethrowAsDatabaseError, throw; by case_match|].
  change (table_person (log_call action_create w1)) with (table_person w1).
  change (table_actionClass (log_call action_create w1)) with (table_actionClass w1).
  destruct (List.find _ (table_person w1)) as [p|] eqn:Hp; [|done].
  destruct (List.find _ (table_actionClass w1)) as [c'|] eqn:Hc'; [|done].
  apply List.find_some in Hp as [Hp [Henv Huser]%andb_prop].
  apply bool_decide_eq_true in Henv, Huser.
  apply List.find_some in Hc' as [_ Hc']. apply bool_decide_eq_true in Hc'.
  rewrite Hc'. unfold bind at 1. unfold read at 1.
  change (Action.personId (Action.mk ?i ?t ?q ?r ?k)) with q.
  destruct (getIsPersonMonthlyActive (Person.id p) _) as [active|e] eqn:Hactive;
    [|unfold rethrowAsDatabaseError, throw; by case_match].
  intros Hrun. exists c, w1, p, active.
  assert (found = Some c ∧ w1 = w ∨
          found = None ∧
          createActionClass (input_environmentId data) input w = Return c ∧
          w1 = created_actionClass c w) as Hresolved' by done.
  clear Hresolved.
  split; [done|]. split.
  { destruct Hresolved' as [[-> ->]|(-> & ? & ->)]; [by left|by right]. }
  split; [done|]. split; [by apply list_elem_of_In|].
  split; [done|]. split; [done|]. split; [exact Hactive|].
  unfold activePersonCache_revalidate, actionCache_revalidate in Hrun.
  destruct active; unfold_monad; by simplify_eq.
Qed.

Lemma rethrowAsDatabaseError_run {A} e w :
  @rethrowAsDatabaseError A e w = (Throw (asDatabaseError e), w).
Proof. unfold rethrowAsDatabaseError, asDatabaseError, throw. by case_match. Qed.

(** A call that throws has revalidated none of the tags of [createAction];
    those of an action class created on the way stay revalidated. *)
Lemma createAction_Throw data w e w' :
  createAction data w = (Throw e, w') →
  revalidated w' = revalidated w ∨
  ∃ c w1, getActionClassByEnvironmentIdAndName
            (input_environmentId data) (input_name data) w = Return None ∧
          resolvesActionClass data w c w1 ∧
          revalidated w' = revalidated w ++ createActionClass_tags c.
Proof.
  unfold createAction, resolvesActionClass.
  unfold bind at 1. unfold validateInputs. rewrite forallb_safeParse_1.
  destruct (ZActionInput data); [|intros [= _ <-]; by left].
  unfold try_catch, bind at 1. unfold read at 1. rewrite actionType_decide.
  destruct (getActionClassByEnvironmentIdAndName _ _ w) as [found|e0];
    [|rewrite rethrowAsDatabaseError_run; intros [= _ <-]; by left].
  unfold bind at 1.
  set (input := mkTActionClassInput _ _ _).
  assert (∃ r, (match found with
                | Some actionClass => ret actionClass
                | None => call_createActionClass (input_environmentId data) input
                end) w = r ∧
               match r with
               | (Return c, w1) =>
                   (found = Some c ∧ w1 = w) ∨
                   (found = None ∧
                    createActionClass (input_environmentId data) input w = Return c ∧
                    w1 = created_actionClass c w)
               | (Throw _, w1) => w1 = w
               end) as ([o w1] & -> & Hw1).
  { eexists. split; [done|]. destruct found as [c|]; simpl; [by left|].
    unfold call_createActionClass.
    destruct (createActionClass _ _ w) as [c|e0]; [by right|done]. }
  destruct o as [c|e0];
    [|subst w1; rewrite rethrowAsDatabaseError_run; intros [= _ <-]; by left].
  assert (∀ w2, revalidated w2 = revalidated w1 →
            revalidated w2 = revalidated w ∨
            ∃ c w1, Return found = Return None ∧
              (Return found = Return (Some c) ∧ w1 = w ∨
               Return found = Return None ∧
               createActionClass (input_environmentId data) input w = Return c ∧
               w1 = created_actionClass c w) ∧
              revalidated w2 = revalidated w ++ createActionClass_tags c) as Hkept.
  { intros w2 Hw2. destruct Hw1 as [[-> ->]|(-> & Hcreated & ->)]; [by left|].
    right. exists c, (created_actionClass c w). split; [done|]. split; [|done].
    by right. }
  unfold bind at 1. unfold prisma_action_create, prisma.
  change (prisma_failure (log_call action_create w1)) with (prisma_failure w1).
  destruct (prisma_failure w1) as [e0|];
    [rewrite rethrowAsDatabaseError_run; intros [= _ <-]; by apply Hkept|].
  destruct (List.find _ (table_person _)) as [p|];
    [|rewrite rethrowAsDatabaseError_run; intros [= _ <-]; by apply Hkept].
  destruct (List.find _ (table_actionClass _)) as [c'|];
    [|rewrite rethrowAsDatabaseError_run; intros [= _ <-]; by apply Hkept].
  unfold bind at 1. unfold read at 1.
  destruct (getIsPersonMonthlyActive _ _) as [active|e0];
    [|rewrite rethrowAsDatabaseError_run; intros [= _ <-]; by apply Hkept].
  unfold activePersonCache_revalidate, actionCache_revalidate.
  destruct active; unfold_monad; done.
Qed.

(** A failing database stops [createAction] at the [catch] clause. *)
Lemma createAction_database_failure data w e c w1 :
  ZActionInput data = true → resolvesActionClass data w c w1 →
  prisma_failure w = Some e →
  (createAction data w).1 = Throw (asDatabaseError e).
Proof.
  intros Hvalid Hresolved Hdb. unfold createAction.
  unfold bind at 1. unfold validateInputs. rewrite forallb_safeParse_1, Hvalid.
  unfold try_catch, bind at 1. unfold read at 1. rewrite actionType_decide.
  unfold resolvesActionClass in Hresolved.
  assert (prisma_failure w1 = Some e) as Hdb1.
  { by destruct Hresolved as [[_ ->]|(_ & _ & ->)]. }
  unfold bind at 1.
  destruct Hresolved as [[-> ->]|(-> & Hcreated & ->)].
  - unfold ret at 1. unfold bind at 1. unfold prisma_action_create, prisma.
    change (prisma_failure (log_call action_create w)) with (prisma_failure w).
    rewrite Hdb. by rewrite rethrowAsDatabaseError_run.
  - unfold call_createActionClass. rewrite Hcreated.
    unfold bind at 1. unfold prisma_action_create, prisma.
    change (prisma_failure (log_call action_create ?x)) with (prisma_failure x).
    rewrite Hdb1. by rewrite rethrowAsDatabaseError_run.
Qed.

(** An exception of the class lookup goes through the [catch] clause too. *)
Lemma createAction_lookup_failure data w e :
  ZActionInput data = true →
  getActionClassByEnvironmentIdAndName (input_environmentId data) (input_name data) w
    = Throw e →
  createAction data w = (Throw (asDatabaseError e), w).
Proof.
  intros Hvalid Hlookup. unfold createAction.
  unfold bind at 1. unfold validateInputs. rewrite forallb_safeParse_1, Hvalid.
  unfold try_catch, bind at 1. unfold read at 1. rewrite Hlookup.
  by rewrite rethrowAsDatabaseError_run.
Qed.

(** C4.  A call of [createAction] that returns has revalidated, in this
    order: the tags that [createActionClass] invalidates, when the action
    class did not exist and was created; the active-person tag of the
    created action's person, when and only when [getIsPersonMonthlyActive]
    returned [false] for that person after the action was stored; the
    action tag of the environment of the data and the action tag of that
    person; and no other tag.  A call that throws has revalidated none of
    the last three; either it has revalidated no tag at all, or it had
    created the action class before it threw and the tags of that class
    stay revalidated. *)
Theorem createAction_revalidates_its_tags (data : TActionInput) (w : World) :
  (∀ action w', createAction data w = (Return action, w') →
     ∃ (w1 stored : World) (row : Action.t) (isPersonMonthlyActive : bool),
       resolvesActionClass data w (actionClass action) w1 ∧
       revalidated w1 = revalidated w ++ resolutionTags data w (actionClass action) ∧
       table_action stored = table_action w ++ [row] ∧
       Action.id row = id action ∧
       Action.personId row = personId action ∧
       revalidated stored = revalidated w1 ∧
       getIsPersonMonthlyActive (personId action) stored = Return isPersonMonthlyActive ∧
       revalidated w' =
         revalidated w
         ++ resolutionTags data w (actionClass action)
         ++ (if isPersonMonthlyActive then []
             else [activePersonCache_tag_byId (personId action)])
         ++ [actionCache_tag_byEnvironmentId (input_environmentId data);
             actionCache_tag_byPersonId (personId action)]) ∧
  (∀ e w', createAction data w = (Throw e, w') →
     revalidated w' = revalidated w ∨
     ∃ c w1, getActionClassByEnvironmentIdAndName
               (input_environmentId data) (input_name data) w = Return None ∧
             resolvesActionClass data w c w1 ∧
             revalidated w' = revalidated w ++ createActionClass_tags c).
Proof.
  split; [|apply createAction_Throw].
  intros action w' Hrun.
  apply createAction_Return in Hrun
    as (c & w1 & p & active & _ & Hresolved & _ & _ & _ & _ & Hactive & -> & ->).
  assert (table_action w1 = table_action w ∧
          revalidated w1 = revalidated w ++ resolutionTags data w c)
    as [Htable Hrevalidated].
  { unfold resolutionTags.
    destruct Hresolved as [[-> ->]|(-> & _ & ->)]; simpl; [|done].
    by rewrite app_nil_r. }
  eexists w1, _, _, active. split_and!; [exact Hresolved|exact Hrevalidated| | | | |exact Hactive|].
  - simpl. by rewrite Htable.
  - done.
  - done.
  - done.
  - destruct active; simpl; rewrite Hrevalidated; by rewrite <- ?app_assoc.
Qed.

End CreateAction.

(** ** Exceptions of the database *)

Section Errors.
Context `{Imports}.

Lemma count_operation_fails {A} (k : Z → M A) conds w e :
  prisma_failure w = Some e →
  try_catch (await n ← prisma_action_count conds ;; k n) (λ error, throw error) w =
    (Throw e, log_call action_count w).
Proof.
  intros Hdb. unfold try_catch, bind. by rewrite (prisma_action_count_fails _ _ e).
Qed.

Lemma count_after_read_fails {A} (f : World → Z) (conds : Z → list ActionWhere)
    (k : Z → M A) w e :
  prisma_failure w = Some e →
  try_catch
    (await t ← read (λ w, Return (f w)) ;;
     await n ← prisma_action_count (conds t) ;; k n)
    (λ error, throw error) w =
    (Throw e, log_call action_count w).
Proof.
  intros Hdb. unfold try_catch, bind, read.
  by rewrite (prisma_action_count_fails _ _ e).
Qed.

Lemma occurrence_operation_fails {A} (k : option Z → M A) conds order w e :
  prisma_failure w = Some e →
  try_catch (await event ← prisma_action_findFirst conds order ;; k event)
    (λ error, throw error) w =
    (Throw e, log_call action_findFirst w).
Proof.
  intros Hdb. unfold try_catch, bind.
  by rewrite (prisma_action_findFirst_fails _ _ _ e).
Qed.

(** C8.  When the ORM call fails with an exception [e]:
    [getActionsByPersonId], [getActionsByEnvironmentId] and [createAction]
    throw [DatabaseError("Database operation failed")] if [e] is a
    [PrismaClientKnownRequestError] and throw [e] itself otherwise (and so
    does [createAction] for an exception of its class lookup); the count and
    occurrence functions throw [e] itself in every case. *)
Theorem known_request_errors_become_database_errors
    (pid eid actionClassId : string) (page : option Z) (data : TActionInput)
    (w : World) (e : Error) :
  let thrown (e : Error) :=
    if isPrismaClientKnownRequestError e
    then DatabaseError "Database operation failed" else e in
  prisma_failure w = Some e →
  (ZId pid = true → ZOptionalNumber page = true →
     (getActionsByPersonId pid page w).1 = Throw (thrown e)) ∧
  (ZId eid = true → ZOptionalNumber page = true →
     (getActionsByEnvironmentId eid page w).1 = Throw (thrown e)) ∧
  (ZActionInput data = true →
     (∀ c w1, resolvesActionClass data w c w1 →
        (createAction data w).1 = Throw (thrown e)) ∧
     (∀ e', getActionClassByEnvironmentIdAndName
              (input_environmentId data) (input_name data) w = Throw e' →
        (createAction data w).1 = Throw (thrown e'))) ∧
  (ZId actionClassId = true → ZId pid = true →
     (getActionCountInLastHour actionClassId w).1 = Throw e ∧
     (getActionCountInLast24Hours actionClassId w).1 = Throw e ∧
     (getActionCountInLast7Days actionClassId w).1 = Throw e ∧
     (getActionCountInLastQuarter actionClassId pid w).1 = Throw e ∧
     (getActionCountInLastMonth actionClassId pid w).1 = Throw e ∧
     (getActionCountInLastWeek actionClassId pid w).1 = Throw e ∧
     (getTotalOccurrencesForAction actionClassId pid w).1 = Throw e ∧
     (getLastOccurrenceDaysAgo actionClassId pid w).1 = Throw e ∧
     (getFirstOccurrenceDaysAgo actionClassId pid w).1 = Throw e).
Proof.
  intros thrown Hdb. split_and!.
  - intros Hid Hpage. by rewrite getActionsByPersonId_unfold, Hid, Hpage, Hdb.
  - intros Hid Hpage. by rewrite getActionsByEnvironmentId_unfold, Hid, Hpage, Hdb.
  - intros Hdata. split.
    + intros c w1 Hresolved. by eapply createAction_database_failure.
    + intros e' Hlookup. by rewrite (createAction_lookup_failure _ _ e').
  - intros Hclass Hperson.
    unfold getActionCountInLastHour, getActionCountInLast24Hours,
      getActionCountInLast7Days, getActionCountInLastQuarter,
      getActionCountInLastMonth, getActionCountInLastWeek,
      getTotalOccurrencesForAction, getLastOccurrenceDaysAgo,
      getFirstOccurrenceDaysAgo, invoke. simpl callback.
    split_and!;
      unfold bind at 1; unfold validateInputs;
      rewrite ?forallb_safeParse_1, ?forallb_safeParse_2, ?Hclass, ?Hperson;
      simpl andb; cbv iota.
    + exact (f_equal fst (count_after_read_fails now
        (λ t, [where_actionClassId actionClassId;
               where_createdAt_gte (t - 60 * 60 * 1000)]) (λ n, ret n) w e Hdb)).
    + exact (f_equal fst (count_after_read_fails now
        (λ t, [where_actionClassId actionClassId;
               where_createdAt_gte (t - 24 * 60 * 60 * 1000)]) (λ n, ret n) w e Hdb)).
    + exact (f_equal fst (count_after_read_fails now
        (λ t, [where_actionClassId actionClassId;
               where_createdAt_gte (t - 7 * 24 * 60 * 60 * 1000)]) (λ n, ret n) w e Hdb)).
    + exact (f_equal fst (count_after_read_fails
        (λ w, getStartDateOfLastQuarter (now w))
        (λ t, [where_personId pid; where_actionClass_id actionClassId;
               where_createdAt_gte t]) (λ n, ret n) w e Hdb)).
    + exact (f_equal fst (count_after_read_fails
        (λ w, getStartDateOfLastMonth (now w))
        (λ t, [where_personId pid; where_actionClass_id actionClassId;
               where_createdAt_gte t]) (λ n, ret n) w e Hdb)).
    + exact (f_equal fst (count_after_read_fails
        (λ w, getStartDateOfLastWeek (now w))
        (λ t, [where_personId pid; where_actionClass_id actionClassId;
               where_createdAt_gte t]) (λ n, ret n) w e Hdb)).
    + exact (f_equal fst (count_operation_fails (λ n, ret n)
        [where_personId pid; where_actionClass_id actionClassId] w e Hdb)).
    + by rewrite (occurrence_operation_fails _ _ _ _ e).
    + by rewrite (occurrence_operation_fails _ _ _ _ e).
Qed.

End Errors.

(** ** Cache keys *)

Lemma hyphen_free_String c s : hyphen_free (String c s) ↔ c ≠ "-"%char ∧ hyphen_free s.
Proof.
  unfold hyphen_free. simpl. rewrite not_elem_of_cons.
  split; intros [Hc Hs]; split; auto.
Qed.

(** A string with a hyphen-free head splits at its first hyphen in one way. *)
Lemma split_at_hyphen a a' b b' :
  hyphen_free a → hyphen_free a' →
  a +:+ "-" +:+ b = a' +:+ "-" +:+ b' → a = a' ∧ b = b'.
Proof.
  revert a'. induction a as [|c a IH]; intros [|c' a'] Ha Ha' Heq; simplify_eq/=.
  - done.
  - apply hyphen_free_String in Ha' as [? _]. done.
  - apply hyphen_free_String in Ha as [? _]. done.
  - apply hyphen_free_String in Ha as [_ Ha].
    apply hyphen_free_String in Ha' as [_ Ha'].
    destruct (IH a' Ha Ha') as [-> ->]; done.
Qed.

Lemma pretty_N_go_not_u x s s' :
  (∀ s', s ≠ String "u" s') → pretty_N_go x s ≠ String "u" s'.
Proof.
  revert s. induction (N.lt_wf_0 x) as [x _ IH]; intros s Hs.
  assert (x = 0 ∨ 0 < x)%N as [->|?] by lia.
  - rewrite pretty_N_go_0. apply Hs.
  - rewrite pretty_N_go_step by done. apply IH.
    { by apply N.div_lt. }
    intros s''. unfold pretty_N_char. by repeat case_match.
Qed.

Lemma pretty_Z_not_undefined (n : Z) : pretty n ≠ "undefined".
Proof.
  destruct n as [|x|x]; [done| |done].
  unfold pretty, pretty_Z, pretty, pretty_positive, pretty, pretty_N.
  rewrite decide_False by done. by apply pretty_N_go_not_u.
Qed.

Lemma page_toString_inj page page' :
  page_toString page = page_toString page' → page = page'.
Proof.
  destruct page as [n|], page' as [n'|]; simpl; intros Heq.
  - f_equal. by apply (inj pretty).
  - by apply pretty_Z_not_undefined in Heq.
  - symmetry in Heq. by apply pretty_Z_not_undefined in Heq.
  - done.
Qed.

Section Keys.
Context `{Imports}.

Lemma cacheKey_embeds c :
  cacheKey c = [String.concat "-" (operationName c :: printedArguments c)].
Proof. by destruct c as [| |? []| | | | | | | | | | |]. Qed.

Ltac same_operation :=
  match goal with
  | Ha : Forall hyphen_free [_; _], Hb : Forall hyphen_free [_; _],
    Hkey : _ +:+ "-" +:+ _ = _ +:+ "-" +:+ _ |- _ =>
      apply Forall_cons in Ha as [Ha _]; apply Forall_cons in Hb as [Hb _];
      destruct (split_at_hyphen _ _ _ _ Ha Hb Hkey) as [-> ->]
  | Ha : Forall hyphen_free [_], Hb : Forall hyphen_free [_],
    Hkey : _ +:+ "-" +:+ _ = _ +:+ "-" +:+ _ |- _ =>
      apply Forall_cons in Ha as [Ha _]; apply Forall_cons in Hb as [Hb _];
      destruct (split_at_hyphen _ _ _ _ Ha Hb Hkey) as [-> ->%page_toString_inj]
  end.

Lemma cacheKey_inj c1 c2 :
  Forall hyphen_free (identifiers c1) → Forall hyphen_free (identifiers c2) →
  cacheKey c1 = cacheKey c2 → c1 = c2.
Proof.
  intros H1 H2 Hkey.
  destruct c1 as [| |? []| | | | | | | | | | |], c2 as [| |? []| | | | | | | | | | |];
    simpl in H1, H2; injection Hkey as Hkey; simpl in Hkey;
    try discriminate Hkey; simplify_eq/=; try done; by same_operation.
Qed.

(** C6.  Every cached operation hands the framework one key part, built
    from the name of the operation and all of its arguments joined by
    hyphens; the tag of the tenant entity it reads (the webhook, the
    attribute class, the action class, the person or the environment; none
    for the PostHog event); and a revalidation interval in seconds, 15 days
    for the PostHog event and [SERVICES_REVALIDATION_INTERVAL] for the
    others.  Two calls whose identifiers contain no hyphen and that have
    the same key are the same operation with the same arguments; so are two
    calls whose identifiers pass [ZId], when [ZId] accepts no string with a
    hyphen.  (Identifiers with hyphens can share a key.) *)
Theorem cache_entries_are_keyed_by_operation_and_arguments (c1 c2 : CachedCall) :
  cacheKey c1 = [String.concat "-" (operationName c1 :: printedArguments c1)] ∧
  tags (cacheOptions c1) = entityTags c1 ∧
  revalidate (cacheOptions c1) =
    match c1 with
    | call_sendFreeLimitReachedEventToPosthogBiWeekly _ _ => 15 * 24 * 60 * 60
    | _ => SERVICES_REVALIDATION_INTERVAL
    end ∧
  (Forall hyphen_free (identifiers c1) → Forall hyphen_free (identifiers c2) →
   cacheKey c1 = cacheKey c2 → c1 = c2) ∧
  ((∀ s, ZId s = true → hyphen_free s) →
   Forall (λ s, ZId s = true) (identifiers c1) →
   Forall (λ s, ZId s = true) (identifiers c2) →
   cacheKey c1 = cacheKey c2 → c1 = c2).
Proof.
  split_and!.
  - apply cacheKey_embeds.
  - by destruct c1.
  - by destruct c1.
  - apply cacheKey_inj.
  - intros Hschema H1 H2. apply cacheKey_inj.
    + eapply Forall_impl; [exact H1|]. intros s. apply Hschema.
    + eapply Forall_impl; [exact H2|]. intros s. apply Hschema.
Qed.

End Keys.

(** * Further properties of the code *)

(** ** Pages of the list operations *)

Lemma shape_app w rows1 rows2 :
  toTAction <$> include_actionClass w (rows1 ++ rows2) =
  (toTAction <$> include_actionClass w rows1) ++
  (toTAction <$> include_actionClass w rows2).
Proof. unfold include_actionClass. by rewrite omap_app, fmap_app. Qed.

Lemma selected_count w conds (P : Action.t → Prop) `{∀ a, Decision (P a)} order :
  (∀ a, matches w conds a = true ↔ P a) →
  Z.of_nat (length (orderBy_createdAt order (selected w conds))) = numberOfActions w P.
Proof.
  intros HP. rewrite orderBy_createdAt_Permutation. unfold numberOfActions, selected.
  by rewrite (filter_bool_Prop _ P _ HP).
Qed.

(** A list sorted newest first is determined by its elements when no two
    of them have the same [createdAt]. *)
Lemma newest_first_unique (l1 l2 : list Action.t) :
  StronglySorted newest_first l1 → StronglySorted newest_first l2 →
  l1 ≡ₚ l2 → NoDup (Action.createdAt <$> l1) → l1 = l2.
Proof.
  revert l2. induction l1 as [|x l1 IH]; intros l2 Hs1 Hs2 Hperm Hdistinct.
  { by apply Permutation_nil_l in Hperm. }
  destruct l2 as [|y l2]; [by apply Permutation_nil_r in Hperm|].
  apply StronglySorted_cons in Hs1 as [Hx Hs1].
  apply StronglySorted_cons in Hs2 as [Hy Hs2].
  rewrite Forall_forall in Hx, Hy.
  assert (x = y) as <-.
  { assert (y ∈ x :: l1) as Hyin by (rewrite Hperm; apply list_elem_of_here).
    assert (x ∈ y :: l2) as Hxin by (rewrite <- Hperm; apply list_elem_of_here).
    apply elem_of_cons in Hyin as [->|Hyin]; [done|].
    apply elem_of_cons in Hxin as [->|Hxin]; [done|].
    pose proof (Hx y Hyin) as Hxy. pose proof (Hy x Hxin) as Hyx.
    unfold newest_first in Hxy, Hyx.
    rewrite fmap_cons in Hdistinct. apply NoDup_cons in Hdistinct as [Hfresh _].
    exfalso. apply Hfresh. apply list_elem_of_fmap. exists y. split; [lia|done]. }
  f_equal. apply IH; [done|done|by eapply Permutation_cons_inv|].
  rewrite fmap_cons in Hdistinct. by apply NoDup_cons in Hdistinct as [_ ?].
Qed.

Lemma matches_same_rows w w' conds a :
  same_rows w w' → matches w' conds a = matches w conds a.
Proof.
  intros (_ & Hclasses & Hpersons & _). unfold matches.
  induction conds as [|cond conds IH]; [done|]. simpl. rewrite IH. f_equal.
  unfold satisfies, person_of, actionClass_of. by rewrite Hclasses, Hpersons.
Qed.

Lemma selected_same_rows w w' conds :
  same_rows w w' → selected w' conds ≡ₚ selected w conds.
Proof.
  intros Hsame. pose proof Hsame as (Hrows & _).
  assert (selected w' conds = filter (λ a, matches w conds a = true) (table_action w'))
    as ->.
  { apply filter_bool_Prop. intros a. by rewrite (matches_same_rows w w'). }
  assert (selected w conds = filter (λ a, matches w conds a = true) (table_action w))
    as ->.
  { by apply filter_bool_Prop. }
  by rewrite Hrows.
Qed.

Lemma orderBy_same_rows w w' conds :
  same_rows w w' →
  NoDup (Action.createdAt <$> selected w conds) →
  orderBy_createdAt desc (selected w' conds) = orderBy_createdAt desc (selected w conds).
Proof.
  intros Hsame Hdistinct. symmetry. apply newest_first_unique.
  - apply orderBy_desc_sorted.
  - apply orderBy_desc_sorted.
  - rewrite !orderBy_createdAt_Permutation. symmetry. by apply selected_same_rows.
  - by rewrite orderBy_createdAt_Permutation.
Qed.

Section Pages.
Context `{Imports}.

Lemma getActionsByPersonId_returns pid page w :
  ZId pid = true → ZOptionalNumber page = true → prisma_failure w = None →
  (∀ p, page = Some p → 0 ≤ p ∧ Z.of_nat ITEMS_PER_PAGE * (p - 1) ≤ MAX_INT64) →
  getActionsByPersonId pid page w =
    (Return (toTAction <$> include_actionClass w
               (pageOfRows page
                  (orderBy_createdAt desc (selected w [where_person_id pid])))),
     log_call action_findMany w).
Proof.
  intros Hid Hpage Hdb Hp. rewrite getActionsByPersonId_unfold, Hid, Hpage, Hdb.
  simpl. apply if_page_skip_accepted in Hp.
  destruct (if_page page _) as [skip|]; [by rewrite Hp|done].
Qed.

Lemma getActionsByEnvironmentId_returns eid page w :
  ZId eid = true → ZOptionalNumber page = true → prisma_failure w = None →
  (∀ p, page = Some p → 0 ≤ p ∧ Z.of_nat ITEMS_PER_PAGE * (p - 1) ≤ MAX_INT64) →
  getActionsByEnvironmentId eid page w =
    (Return (toTAction <$> include_actionClass w
               (pageOfRows page
                  (orderBy_createdAt desc
                     (selected w [where_actionClass_environmentId eid])))),
     log_call action_findMany w).
Proof.
  intros Hid Hpage Hdb Hp. rewrite getActionsByEnvironmentId_unfold, Hid, Hpage, Hdb.
  simpl. apply if_page_skip_accepted in Hp.
  destruct (if_page page _) as [skip|]; [by rewrite Hp|done].
Qed.

(** X1.  Page 0 is no page: [page ? .. : undefined] takes the branch of an
    absent page, so both list operations answer a request for page 0 with
    the whole list, exactly as they answer a request without a page. *)
Theorem page_zero_lists_everything (pid eid : string) (w : World) :
  ZOptionalNumber (Some 0) = ZOptionalNumber None →
  getActionsByPersonId pid (Some 0) w = getActionsByPersonId pid None w ∧
  getActionsByEnvironmentId eid (Some 0) w = getActionsByEnvironmentId eid None w.
Proof.
  intros Hschema. split.
  - by rewrite !getActionsByPersonId_unfold, Hschema.
  - by rewrite !getActionsByEnvironmentId_unfold, Hschema.
Qed.


Lemma pagesUpTo_S n operation worlds :
  pagesUpTo (S n) operation worlds =
  pagesUpTo n operation worlds
    ++ returned (operation (Some (Z.of_nat (S n))) (worlds (S n))).
Proof.
  unfold pagesUpTo. rewrite seq_S, fmap_app, concat_app. simpl.
  by rewrite app_nil_r.
Qed.

Lemma pagesUpTo_take n operation worlds w rows :
  (∀ p : nat, (0 < p ≤ n)%nat →
     returned (operation (Some (Z.of_nat p)) (worlds p)) =
       toTAction <$> include_actionClass w (pageOfRows (Some (Z.of_nat p)) rows)) →
  pagesUpTo n operation worlds =
    toTAction <$> include_actionClass w (take (n * ITEMS_PER_PAGE) rows).
Proof.
  induction n as [|n IH]; intros Hpage; [done|].
  rewrite pagesUpTo_S, IH, Hpage by (try lia; intros; apply Hpage; lia).
  rewrite pageOfRows_positive by lia.
  rewrite <- shape_app. do 2 f_equal.
  replace (Z.to_nat (Z.of_nat (S n) - 1)) with n by lia.
  rewrite (Nat.mul_comm ITEMS_PER_PAGE n), take_take_drop. f_equal. lia.
Qed.

(** The page the database answers with does not depend on the order it
    scans the rows in, when no two matching rows have the same [createdAt]. *)
Lemma page_same_rows w w' conds page :
  same_rows w w' →
  NoDup (Action.createdAt <$> selected w conds) →
  toTAction <$> include_actionClass w'
    (pageOfRows page (orderBy_createdAt desc (selected w' conds))) =
  toTAction <$> include_actionClass w
    (pageOfRows page (orderBy_createdAt desc (selected w conds))).
Proof.
  intros Hsame Hdistinct. rewrite (orderBy_same_rows w w') by done.
  destruct Hsame as (_ & Hclasses & _ & _).
  unfold include_actionClass, actionClass_of. by rewrite Hclasses.
Qed.

(** X3.  The pages tile the list when no two matching actions were created
    in the same millisecond: for valid input and a database that answers,
    the results of pages 1 to [n], each requested on its own and whatever
    order the database scans the rows in at that request, are, one after the
    other, the result of the request without a page, as soon as [n] pages
    hold all matching actions (and the ORM takes the numbers to skip); no
    action is repeated or left out between pages. *)
Theorem pages_concatenate_to_the_whole_list (pid eid : string) (n : nat) (w : World)
    (worlds : nat → World) :
  (∀ page, ZOptionalNumber page = true) → prisma_failure w = None →
  (∀ p, same_rows w (worlds p)) →
  Z.of_nat (n * ITEMS_PER_PAGE) ≤ MAX_INT64 →
  (ZId pid = true →
   NoDup (Action.createdAt <$> filter (ofPerson w pid) (table_action w)) →
   numberOfActions w (ofPerson w pid) ≤ Z.of_nat (n * ITEMS_PER_PAGE) →
   pagesUpTo n (getActionsByPersonId pid) worlds
     = returned (getActionsByPersonId pid None w)) ∧
  (ZId eid = true →
   NoDup (Action.createdAt <$> filter (inEnvironment w eid) (table_action w)) →
   numberOfActions w (inEnvironment w eid) ≤ Z.of_nat (n * ITEMS_PER_PAGE) →
   pagesUpTo n (getActionsByEnvironmentId eid) worlds
     = returned (getActionsByEnvironmentId eid None w)).
Proof.
  intros Hpage Hdb Hsame Hfits. split; intros Hid Hdistinct Hall.
  - assert (selected w [where_person_id pid] = filter (ofPerson w pid) (table_action w))
      as Hsel.
    { apply filter_bool_Prop. intros a. apply matches_person. }
    rewrite <- Hsel in Hdistinct.
    rewrite <- (selected_count w [where_person_id pid] _ desc) in Hall
      by (intros a; apply matches_person).
    apply Nat2Z.inj_le in Hall.
    rewrite (pagesUpTo_take n _ worlds w
               (orderBy_createdAt desc (selected w [where_person_id pid]))).
    + rewrite getActionsByPersonId_returns by done. unfold returned.
      cbn [fst]. by rewrite take_ge by exact Hall.
    + intros p Hp. destruct (Hsame p) as (Hrows & Hclasses & Hpersons & Hfailure).
      rewrite getActionsByPersonId_returns;
        [|done|done|congruence|intros ? [= <-]; nia].
      unfold returned. cbn [fst]. by apply page_same_rows.
  - assert (selected w [where_actionClass_environmentId eid]
            = filter (inEnvironment w eid) (table_action w)) as Hsel.
    { apply filter_bool_Prop. intros a. apply matches_environment. }
    rewrite <- Hsel in Hdistinct.
    rewrite <- (selected_count w [where_actionClass_environmentId eid] _ desc) in Hall
      by (intros a; apply matches_environment).
    apply Nat2Z.inj_le in Hall.
    rewrite (pagesUpTo_take n _ worlds w
               (orderBy_createdAt desc
                  (selected w [where_actionClass_environmentId eid]))).
    + rewrite getActionsByEnvironmentId_returns by done. unfold returned.
      cbn [fst]. by rewrite take_ge by exact Hall.
    + intros p Hp. destruct (Hsame p) as (Hrows & Hclasses & Hpersons & Hfailure).
      rewrite getActionsByEnvironmentId_returns;
        [|done|done|congruence|intros ? [= <-]; nia].
      unfold returned. cbn [fst]. by apply page_same_rows.
Qed.

End Pages.

(** ** What the list operations keep *)

Lemma ids_sublist w rows :
  (id <$> (toTAction <$> include_actionClass w rows)) `sublist_of` (Action.id <$> rows).
Proof.
  unfold include_actionClass. induction rows as [|a rows IH]; [done|]. simpl.
  destruct (actionClass_of w a); simpl.
  - by apply sublist_skip.
  - by apply sublist_cons.
Qed.

Lemma selected_sublist w conds : selected w conds `sublist_of` table_action w.
Proof.
  unfold selected. induction (table_action w) as [|a l IH]; [done|]. simpl.
  destruct (matches w conds a).
  - by apply sublist_skip.
  - by apply sublist_cons.
Qed.

Lemma answer_ids_NoDup `{Imports} w conds page :
  NoDup (Action.id <$> table_action w) →
  NoDup (id <$> (toTAction <$> include_actionClass w
                   (pageOfRows page (orderBy_createdAt desc (selected w conds))))).
Proof.
  intros Hunique. eapply sublist_NoDup; [|apply ids_sublist].
  eapply sublist_NoDup; [|apply fmap_sublist, pageOfRows_sublist].
  rewrite orderBy_createdAt_Permutation.
  eapply sublist_NoDup; [done|apply fmap_sublist, selected_sublist].
Qed.

Lemma getTotalOccurrencesForAction_returns `{Imports} actionClassId pid w :
  ZId actionClassId = true → ZId pid = true → prisma_failure w = None →
  getTotalOccurrencesForAction actionClassId pid w =
    (Return (numberOfActions w (λ a, Action.personId a = pid ∧
                                     ofActionClass w actionClassId a)),
     log_call action_count w).
Proof.
  intros Hclass Hperson Hdb.
  unfold getTotalOccurrencesForAction, cached_getTotalOccurrencesForAction.
  unfold_monad. rewrite Hclass, Hperson. simpl.
  erewrite prisma_action_count_returns; [done..|].
  intros a. apply matches_person_class.
Qed.

Lemma numberOfActions_mono_in w (P Q : Action.t → Prop)
    `{∀ a, Decision (P a)} `{∀ a, Decision (Q a)} :
  (∀ a, a ∈ table_action w → P a → Q a) → numberOfActions w P ≤ numberOfActions w Q.
Proof.
  intros HPQ. unfold numberOfActions. apply inj_le.
  induction (table_action w) as [|a l IH]; [done|].
  rewrite !filter_cons. destruct (decide (P a)) as [HP|HP].
  - rewrite decide_True by (apply HPQ; [left|done]). simpl.
    apply le_n_S, IH. intros a' Ha'. apply HPQ. by right.
  - assert (length (filter P l) ≤ length (filter Q l))%nat as Hle.
    { apply IH. intros a' Ha'. apply HPQ. by right. }
    destruct (decide (Q a)); simpl; lia.
Qed.

Section Kept.
Context `{Imports}.

(** X4.  The list operations keep identifiers unique: if no two rows of
    the action table share an id, no two elements of a returned list do,
    whatever the page. *)
Theorem action_lists_keep_ids_unique (pid eid : string) (page : option Z) (w : World) :
  NoDup (Action.id <$> table_action w) →
  (∀ rs w', getActionsByPersonId pid page w = (Return rs, w') → NoDup (id <$> rs)) ∧
  (∀ rs w', getActionsByEnvironmentId eid page w = (Return rs, w') → NoDup (id <$> rs)).
Proof.
  intros Hunique. split.
  - intros rs w' ->%getActionsByPersonId_Return. by apply answer_ids_NoDup.
  - intros rs w' ->%getActionsByEnvironmentId_Return. by apply answer_ids_NoDup.
Qed.

(** X5.  Under referential integrity the list without a page has exactly
    one element per action of the person, and [getTotalOccurrencesForAction]
    for any action class of that person never exceeds its length. *)
Theorem unpaged_list_counts_the_actions_of_the_person
    (pid actionClassId : string) (w : World) :
  foreign_keys w → ZId pid = true → ZOptionalNumber None = true →
  prisma_failure w = None →
  Z.of_nat (length (returned (getActionsByPersonId pid None w)))
    = numberOfActions w (λ a, Action.personId a = pid) ∧
  (ZId actionClassId = true →
   ∃ total, (getTotalOccurrencesForAction actionClassId pid w).1 = Return total ∧
            total ≤ Z.of_nat (length (returned (getActionsByPersonId pid None w)))).
Proof.
  intros Hfk Hid Hpage Hdb.
  assert (Z.of_nat (length (returned (getActionsByPersonId pid None w)))
          = numberOfActions w (λ a, Action.personId a = pid)) as Hlength.
  { rewrite getActionsByPersonId_returns by done. unfold returned, pageOfRows.
    cbn [fst].
    set (sorted := orderBy_createdAt desc (selected w [where_person_id pid])).
    assert (Forall (λ a, is_Some (actionClass_of w a)) sorted) as Hclasses.
    { apply Forall_forall. intros a Ha. unfold sorted in Ha.
      rewrite orderBy_createdAt_Permutation in Ha.
      apply selected_elem in Ha as [Ha _].
      unfold foreign_keys in Hfk. rewrite Forall_forall in Hfk. by apply Hfk. }
    apply shaped_Forall2, Forall2_length in Hclasses. rewrite <- Hclasses.
    unfold sorted.
    rewrite (selected_count w [where_person_id pid] (ofPerson w pid) desc)
      by (intros a; apply matches_person).
    apply Z.le_antisymm; apply numberOfActions_mono_in; intros a Ha.
    - by apply ofPerson_personId.
    - by apply ofPerson_foreign_key. }
  split; [done|]. intros Hclass.
  rewrite getTotalOccurrencesForAction_returns by done.
  eexists. split; [done|]. rewrite Hlength.
  apply numberOfActions_mono. by intros a [? _].
Qed.

End Kept.

(** ** Queries do not write *)

Lemma only_logged_refl w : only_logged w w.
Proof. by repeat split. Qed.

Lemma only_logged_trans w1 w2 w3 :
  only_logged w1 w2 → only_logged w2 w3 → only_logged w1 w3.
Proof.
  intros (? & ? & ? & ? & ? & ? & ?) (? & ? & ? & ? & ? & ? & ?).
  repeat split; try congruence. by etrans.
Qed.

Lemma only_logged_log_call call w : only_logged w (log_call call w).
Proof. repeat split. simpl. by apply prefix_app_r. Qed.

Lemma reads_only_ret {A} (a : A) : reads_only (ret a).
Proof. intros w o w' [= <- <-]. apply only_logged_refl. Qed.

Lemma reads_only_throw {A} e : reads_only (@throw A e).
Proof. intros w o w' [= <- <-]. apply only_logged_refl. Qed.

Lemma reads_only_read {A} (f : World → Outcome A) : reads_only (read f).
Proof. intros w o w' [= <- <-]. apply only_logged_refl. Qed.

Lemma reads_only_validateInputs pairs : reads_only (validateInputs pairs).
Proof.
  intros w o w'. unfold validateInputs.
  destruct (forallb safeParse pairs); intros [= <- <-]; apply only_logged_refl.
Qed.

Lemma reads_only_bind {A B} (m : M A) (k : A → M B) :
  reads_only m → (∀ a, reads_only (k a)) → reads_only (bind m k).
Proof.
  intros Hm Hk w o w'. unfold bind.
  destruct (m w) as [[a|e] w1] eqn:Hrun.
  - intros Hcont. eapply only_logged_trans; [by eapply Hm|by eapply Hk].
  - intros [= <- <-]. by eapply Hm.
Qed.

Lemma reads_only_try_catch {A} (body : M A) (handler : Error → M A) :
  reads_only body → (∀ e, reads_only (handler e)) → reads_only (try_catch body handler).
Proof.
  intros Hbody Hhandler w o w'. unfold try_catch.
  destruct (body w) as [[a|e] w1] eqn:Hrun.
  - intros [= <- <-]. by eapply Hbody.
  - intros Hcont. eapply only_logged_trans; [by eapply Hbody|by eapply Hhandler].
Qed.

Lemma reads_only_prisma {A} call (run : M A) :
  (∀ w o w', run w = (o, w') → w' = w) → reads_only (prisma call run).
Proof.
  intros Hrun w o w'. unfold prisma. simpl.
  destruct (prisma_failure w).
  - intros [= <- <-]. apply only_logged_log_call.
  - intros ->%Hrun. apply only_logged_log_call.
Qed.

Lemma reads_only_findMany conds order take_ skip :
  reads_only (prisma_action_findMany conds order take_ skip).
Proof.
  apply reads_only_prisma. intros w o w'.
  destruct skip as [n|]; [destruct (rejected_skip n)|]; by intros [= <- <-].
Qed.

Lemma reads_only_count conds : reads_only (prisma_action_count conds).
Proof. apply reads_only_prisma. by intros w o w' [= <- <-]. Qed.

Lemma reads_only_findFirst conds order : reads_only (prisma_action_findFirst conds order).
Proof. apply reads_only_prisma. by intros w o w' [= <- <-]. Qed.

Lemma reads_only_rethrow {A} e : reads_only (@rethrowAsDatabaseError A e).
Proof.
  unfold rethrowAsDatabaseError.
  destruct (isPrismaClientKnownRequestError e); apply reads_only_throw.
Qed.

Ltac reads_only :=
  repeat first
    [ apply reads_only_bind; [|intros ?]
    | apply reads_only_try_catch; [|intros ?]
    | apply reads_only_validateInputs
    | apply reads_only_findMany
    | apply reads_only_count
    | apply reads_only_findFirst
    | apply reads_only_ret
    | apply reads_only_throw
    | apply reads_only_read
    | apply reads_only_rethrow
    | match goal with |- reads_only (match ?x with _ => _ end) => destruct x end ].

Section Queries.
Context `{Imports}.

(** X6.  The eleven query operations of the action service never write:
    whether they return or throw, the tables, the clock and the revalidated
    tags are as before, and the log of ORM calls has only been extended. *)
Theorem action_queries_only_read (pid eid actionClassId : string) (page : option Z) :
  reads_only (getActionsByPersonId pid page) ∧
  reads_only (getActionsByEnvironmentId eid page) ∧
  reads_only (getActionCountInLastHour actionClassId) ∧
  reads_only (getActionCountInLast24Hours actionClassId) ∧
  reads_only (getActionCountInLast7Days actionClassId) ∧
  reads_only (getActionCountInLastQuarter actionClassId pid) ∧
  reads_only (getActionCountInLastMonth actionClassId pid) ∧
  reads_only (getActionCountInLastWeek actionClassId pid) ∧
  reads_only (getTotalOccurrencesForAction actionClassId pid) ∧
  reads_only (getLastOccurrenceDaysAgo actionClassId pid) ∧
  reads_only (getFirstOccurrenceDaysAgo actionClassId pid).
Proof.
  unfold getActionsByPersonId, getActionsByEnvironmentId, getActionCountInLastHour,
    getActionCountInLast24Hours, getActionCountInLast7Days,
    getActionCountInLastQuarter, getActionCountInLastMonth, getActionCountInLastWeek,
    getTotalOccurrencesForAction, getLastOccurrenceDaysAgo,
    getFirstOccurrenceDaysAgo, invoke, Date_now, startDate.
  simpl callback. split_and!; reads_only.
Qed.

End Queries.

(** ** Windows of one person *)

Section Windows.
Context `{Imports}.




End Windows.

(** ** The data cache *)

Lemma serve_miss {A} `{Cacheable A} (c : Cached A) cache w :
  cache !! keyParts c = None →
  serve c cache w =
    match callback c w with
    | (Return value, w') =>
        (Return value, w',
         <[keyParts c := mkCacheEntry (JSON_stringify value) (tags (options c))
                           (now w') (length (revalidated w'))]> cache)
    | (Throw e, w') => (Throw e, w', cache)
    end.
Proof. intros Hnone. unfold serve, cachedValue. by rewrite Hnone. Qed.

Lemma serve_fresh {A} `{Cacheable A} (c : Cached A) cache entry value w :
  cache !! keyParts c = Some entry → fresh (options c) entry w = true →
  JSON_parse (body entry) = Some value →
  serve c cache w = (Return value, w, cache).
Proof.
  intros Hentry Hfresh Hvalue. unfold serve, cachedValue.
  by rewrite Hentry, Hfresh, Hvalue.
Qed.

(** An entry written in [w1] is handed back in [w2] when the clock has not
    advanced and none of its tags has been revalidated in between. *)
Lemma serve_again {A} `{Cacheable A} (c : Cached A) cache value value' w1 w2 :
  now w2 = now w1 → 0 < revalidate (options c) →
  Forall (λ tag, tag ∉ drop (length (revalidated w1)) (revalidated w2))
    (tags (options c)) →
  JSON_parse (JSON_stringify value) = Some value' →
  serve c (<[keyParts c := mkCacheEntry (JSON_stringify value) (tags (options c))
                            (now w1) (length (revalidated w1))]> cache) w2
    = (Return value', w2,
       <[keyParts c := mkCacheEntry (JSON_stringify value) (tags (options c))
                         (now w1) (length (revalidated w1))]> cache).
Proof.
  intros Hnow Hpositive Htags Hvalue.
  eapply serve_fresh; [apply lookup_insert_eq| |exact Hvalue].
  unfold fresh. simpl. apply andb_true_intro. split.
  - apply bool_decide_eq_true. lia.
  - apply forallb_forall. intros tag Htag%list_elem_of_In.
    apply bool_decide_eq_true. rewrite Forall_forall in Htags. by apply Htags.
Qed.

(** Without an entry under the key, a list operation on a server with a
    data cache is the operation under its name in the sources. *)
Lemma served_getActionsByPersonId_miss `{Imports} pid page cache w :
  cache !! keyParts (cached_getActionsByPersonId pid page) = None →
  (served_getActionsByPersonId pid page cache w).1 = getActionsByPersonId pid page w.
Proof.
  intros Hnone. unfold served_getActionsByPersonId, served_bind, served_ret.
  rewrite serve_miss by done.
  unfold getActionsByPersonId, invoke, bind, ret.
  by destruct (callback _ w) as [[actions|e] w'].
Qed.

Lemma served_getActionsByEnvironmentId_miss `{Imports} eid page cache w :
  cache !! keyParts (cached_getActionsByEnvironmentId eid page) = None →
  (served_getActionsByEnvironmentId eid page cache w).1
    = getActionsByEnvironmentId eid page w.
Proof.
  intros Hnone. unfold served_getActionsByEnvironmentId, served_bind, served_ret.
  rewrite serve_miss by done.
  unfold getActionsByEnvironmentId, invoke, bind, ret.
  by destruct (callback _ w) as [[actions|e] w'].
Qed.

(** What a call stores holds a result of its callback. *)
Lemma serve_storedBy {A} `{Cacheable A} (c : Cached A) cache w o w' cache' :
  storedBy c cache → serve c cache w = (o, w', cache') → storedBy c cache'.
Proof.
  intros Hstored. unfold serve.
  destruct (cachedValue c cache w); [by intros [= _ _ <-]|].
  destruct (callback c w) as [[value|e] w1] eqn:Hrun; [|by intros [= _ _ <-]].
  intros [= _ _ <-]. unfold storedBy. intros entry.
  rewrite lookup_insert_eq. intros [= <-]. split; [done|].
  by exists w, w1, value.
Qed.

Lemma storedBy_empty {A} `{Cacheable A} (c : Cached A) : storedBy c ∅.
Proof. intros entry. by rewrite lookup_empty. Qed.

(** ** What [createAction] stores *)

Lemma find_app_Some {A} (f : A → bool) l l' x :
  List.find f l = Some x → List.find f (l ++ l') = Some x.
Proof.
  induction l as [|a l IH]; [done|]. simpl. destruct (f a); [done|]. apply IH.
Qed.

Lemma find_app_is_Some {A} (f : A → bool) l l' :
  is_Some (List.find f l) → List.find f (l ++ l') = List.find f l.
Proof. intros [x Hx]. rewrite Hx. by apply find_app_Some. Qed.

Lemma find_id_Some (l : list TActionClass) (c : TActionClass) :
  c ∈ l →
  ∃ c', List.find (λ c0, bool_decide (ActionClass.id c0 = ActionClass.id c)) l = Some c'.
Proof.
  intros Hc. destruct (List.find _ l) as [c'|] eqn:Hfind; [by eexists|].
  apply list_elem_of_In in Hc.
  apply (List.find_none _ _ Hfind) in Hc. by apply bool_decide_eq_false in Hc.
Qed.

Lemma find_actionClass_is_Some (l : list TActionClass) (c : TActionClass) i :
  c ∈ l → ActionClass.id c = i →
  ∃ c', List.find (λ c0, bool_decide (ActionClass.id c0 = i)) l = Some c' ∧
        ActionClass.id c' = i.
Proof.
  intros Hc Hid. destruct (List.find _ l) as [c'|] eqn:Hfind.
  - exists c'. split; [done|]. apply List.find_some in Hfind as [_ Hfind].
    by apply bool_decide_eq_true in Hfind.
  - apply list_elem_of_In in Hc.
    apply (List.find_none _ _ Hfind) in Hc. by apply bool_decide_eq_false in Hc.
Qed.

Lemma find_person_is_Some (l : list Person.t) (p : Person.t) i :
  p ∈ l → Person.id p = i →
  ∃ p', List.find (λ p0, bool_decide (Person.id p0 = i)) l = Some p' ∧ Person.id p' = i.
Proof.
  intros Hp Hid. destruct (List.find _ l) as [p'|] eqn:Hfind.
  - exists p'. split; [done|]. apply List.find_some in Hfind as [_ Hfind].
    by apply bool_decide_eq_true in Hfind.
  - apply list_elem_of_In in Hp.
    apply (List.find_none _ _ Hfind) in Hp. by apply bool_decide_eq_false in Hp.
Qed.

Lemma filter_ext_in {A} (P Q : A → Prop) `{∀ a, Decision (P a)} `{∀ a, Decision (Q a)}
    (l : list A) :
  (∀ a, a ∈ l → P a ↔ Q a) → filter P l = filter Q l.
Proof.
  intros HPQ. induction l as [|a l IH]; [done|]. rewrite !filter_cons.
  rewrite IH by (intros a' Ha'; apply HPQ; by right).
  destruct (decide (P a)) as [HP|HP].
  - rewrite decide_True; [done|]. apply HPQ; [left|done].
  - rewrite decide_False; [done|]. intros HQ. apply HP, HPQ; [left|done].
Qed.

Section Stored.
Context `{Imports}.

(** The steps of a call that returns, with the rows the ORM connected. *)
Lemma createAction_stored data w action w' :
  createAction data w = (Return action, w') →
  ∃ c w1 p c' row,
    resolvesActionClass data w c w1 ∧
    prisma_failure w1 = None ∧
    p ∈ table_person w1 ∧
    Person.environmentId p = input_environmentId data ∧
    Person.userId p = input_userId data ∧
    c' ∈ table_actionClass w1 ∧ ActionClass.id c' = ActionClass.id c ∧
    row = Action.mk (cuid (log_call action_create w1)) (now w1) (Person.id p) []
            (ActionClass.id c) ∧
    action = mkTAction (Action.id row) (DateObject (now w1)) (Person.id p) [] c ∧
    table_action w' = table_action w1 ++ [row] ∧
    table_actionClass w' = table_actionClass w1 ∧
    table_person w' = table_person w1 ∧
    prisma_failure w' = None ∧
    now w' = now w1.
Proof.
  unfold createAction, resolvesActionClass.
  unfold bind at 1. unfold validateInputs. rewrite forallb_safeParse_1.
  destruct (ZActionInput data); [|done].
  unfold try_catch, bind at 1. unfold read at 1.
  rewrite actionType_decide.
  destruct (getActionClassByEnvironmentIdAndName _ _ w) as [found|e];
    [|by rewrite rethrowAsDatabaseError_run].
  unfold bind at 1.
  set (input := mkTActionClassInput _ _ _).
  assert (∃ r, (match found with
                | Some actionClass => ret actionClass
                | None => call_createActionClass (input_environmentId data) input
                end) w = r ∧
               match r with
               | (Return c, w1) =>
                   (found = Some c ∧ w1 = w) ∨
                   (found = None ∧
                    createActionClass (input_environmentId data) input w = Return c ∧
                    w1 = created_actionClass c w)
               | (Throw _, _) => True
               end) as ([[c|e] w1] & -> & Hresolved).
  { eexists. split; [done|]. destruct found as [c|]; simpl.
    - by left.
    - unfold call_createActionClass.
      destruct (createActionClass _ _ w) as [c|e]; [|done]. by right. }
  2: { by rewrite rethrowAsDatabaseError_run. }
  unfold bind at 1. unfold prisma_action_create, prisma.
  change (prisma_failure (log_call action_create w1)) with (prisma_failure w1).
  destruct (prisma_failure w1) as [e|] eqn:Hdb;
    [by rewrite rethrowAsDatabaseError_run|].
  change (table_person (log_call action_create w1)) with (table_person w1).
  change (table_actionClass (log_call action_create w1)) with (table_actionClass w1).
  destruct (List.find _ (table_person w1)) as [p|] eqn:Hp; [|done].
  destruct (List.find _ (table_actionClass w1)) as [c'|] eqn:Hc'; [|done].
  apply List.find_some in Hp as [Hp [Henv Huser]%andb_prop].
  apply bool_decide_eq_true in Henv, Huser.
  apply List.find_some in Hc' as [Hin Hc']. apply bool_decide_eq_true in Hc'.
  rewrite Hc'. unfold bind at 1. unfold read at 1.
  change (Action.personId (Action.mk ?i ?t ?q ?r ?k)) with q.
  destruct (getIsPersonMonthlyActive (Person.id p) _) as [active|e] eqn:Hactive;
    [|by rewrite rethrowAsDatabaseError_run].
  intros Hrun. exists c, w1, p, c'. eexists.
  assert (found = Some c ∧ w1 = w ∨
          found = None ∧
          createActionClass (input_environmentId data) input w = Return c ∧
          w1 = created_actionClass c w) as Hresolved' by done.
  clear Hresolved.
  split.
  { destruct Hresolved' as [[-> ->]|(-> & ? & ->)]; [by left|by right]. }
  split; [done|]. split; [by apply list_elem_of_In|].
  split; [done|]. split; [done|]. split; [by apply list_elem_of_In|].
  split; [done|]. split; [reflexivity|].
  unfold activePersonCache_revalidate, actionCache_revalidate in Hrun.
  destruct active; unfold_monad; by simplify_eq.
Qed.

Lemma resolved_world data w c w1 :
  resolvesActionClass data w c w1 →
  table_action w1 = table_action w ∧ table_person w1 = table_person w ∧
  prisma_failure w1 = prisma_failure w ∧ now w1 = now w ∧
  (table_actionClass w1 = table_actionClass w ∨
   table_actionClass w1 = table_actionClass w ++ [c]).
Proof.
  intros [[_ ->]|(_ & _ & ->)]; split_and!; try done; [by left|by right].
Qed.

(** X8.  A call of [createAction] that returns has stored exactly one
    action: a new last row with the returned id, stamped with the current
    time, of the person with the [environmentId] and [userId] of the data
    and pointing to the returned action class.  It has changed no person, has
    added at most the returned action class, and keeps referential integrity
    of the action table. *)
Theorem createAction_stores_one_action (data : TActionInput) (w w' : World)
    (action : TAction) :
  createAction data w = (Return action, w') →
  (∃ row p,
     table_action w' = table_action w ++ [row] ∧
     Action.id row = id action ∧
     Action.createdAt row = now w ∧ createdAt action = DateObject (now w) ∧
     Action.personId row = personId action ∧
     Action.actionClassId row = ActionClass.id (actionClass action) ∧
     p ∈ table_person w ∧ Person.id p = personId action ∧
     Person.environmentId p = input_environmentId data ∧
     Person.userId p = input_userId data) ∧
  table_person w' = table_person w ∧
  (table_actionClass w' = table_actionClass w ∨
   table_actionClass w' = table_actionClass w ++ [actionClass action]) ∧
  (foreign_keys w → foreign_keys w').
Proof.
  intros (c & w1 & p & c' & row & Hresolved & _ & Hp & Henv & Huser & Hc' & Hid
          & -> & -> & Hactions & Hclasses & Hpersons & _ & _)%createAction_stored.
  apply resolved_world in Hresolved as (Ha1 & Hp1 & _ & Hnow & Hc1).
  rewrite Ha1 in Hactions. rewrite Hp1 in Hpersons, Hp. rewrite Hnow.
  split_and!.
  - eexists _, p. by split_and!.
  - done.
  - rewrite Hclasses. simpl. done.
  - intros Hfk. unfold foreign_keys in *. rewrite Hactions.
    apply Forall_app. split.
    + eapply Forall_impl; [exact Hfk|]. intros a [Hclass Hperson]. split.
      * unfold actionClass_of in *. rewrite Hclasses.
        destruct Hc1 as [->| ->]; [done|]. by rewrite find_app_is_Some.
      * unfold person_of in *. by rewrite Hpersons.
    + apply Forall_singleton. split.
      * unfold actionClass_of. rewrite Hclasses. simpl.
        destruct (find_actionClass_is_Some _ c' (ActionClass.id c) Hc' Hid)
          as (c'' & -> & _). by eexists.
      * unfold person_of. rewrite Hpersons. simpl.
        destruct (find_person_is_Some _ p (Person.id p) Hp eq_refl) as (p' & -> & _).
        by eexists.
Qed.

(** The class and the person a stored row refers to are found again. *)
Lemma stored_row_relations data w w' action :
  createAction data w = (Return action, w') →
  ∃ row c'' p'',
    table_action w' = table_action w ++ [row] ∧
    Action.id row = id action ∧ Action.createdAt row = now w ∧
    createdAt action = DateObject (now w) ∧
    Action.personId row = personId action ∧
    Action.properties row = properties action ∧
    actionClass_of w' row = Some c'' ∧
    ActionClass.id c'' = ActionClass.id (actionClass action) ∧
    person_of w' row = Some p'' ∧ Person.id p'' = personId action ∧
    prisma_failure w' = None ∧ now w' = now w ∧
    (foreign_keys w → ∀ a, a ∈ table_action w →
       actionClass_of w' a = actionClass_of w a).
Proof.
  intros (c & w1 & p & c' & row & Hresolved & _ & Hp & Henv & Huser & Hc' & Hid
          & -> & -> & Hactions & Hclasses & Hpersons & Hdb & Hnow)%createAction_stored.
  apply resolved_world in Hresolved as (Ha1 & Hp1 & _ & Hnow1 & Hc1).
  destruct (find_actionClass_is_Some _ c' (ActionClass.id c) Hc' Hid)
    as (c'' & Hfind & Hc'').
  destruct (find_person_is_Some _ p (Person.id p) Hp eq_refl) as (p'' & Hfindp & Hp'').
  eexists _, c'', p''. rewrite Ha1 in Hactions. rewrite Hnow1 in *.
  split_and!; try done.
  - unfold actionClass_of. by rewrite Hclasses.
  - unfold person_of. by rewrite Hpersons.
  - intros Hfk a Ha. unfold actionClass_of. rewrite Hclasses.
    destruct Hc1 as [->| ->]; [done|]. apply find_app_is_Some.
    unfold foreign_keys in Hfk. rewrite Forall_forall in Hfk.
    by destruct (Hfk a Ha) as [Hclass _].
Qed.

(** In the database the action is counted: under referential integrity,
    after a call that returned, the callback of
    [getTotalOccurrencesForAction] computes one more than before for the
    person and the class of the returned action, and what it computed
    before for every other pair. *)
Lemma createAction_total_in_database (data : TActionInput) (w w' : World)
    (action : TAction) (actionClassId pid : string) (total : Z) :
  createAction data w = (Return action, w') → foreign_keys w →
  ZId actionClassId = true → ZId pid = true →
  (getTotalOccurrencesForAction actionClassId pid w).1 = Return total →
  (getTotalOccurrencesForAction actionClassId pid w').1 =
    Return (if decide (personId action = pid ∧
                       ActionClass.id (actionClass action) = actionClassId)
            then total + 1 else total).
Proof.
  intros Hrun Hfk Hclass Hperson.
  pose proof Hrun as (c & w1 & _ & _ & _ & Hresolved & Hdb1 & _)%createAction_stored.
  apply resolved_world in Hresolved as (_ & _ & Hdb & _).
  rewrite Hdb1 in Hdb.
  apply stored_row_relations in Hrun
    as (row & c'' & p'' & Hactions & _ & _ & _ & Hrowp & _ & Hrowc & Hc'' & _ & _
        & Hdb' & _ & Hstable).
  rewrite !getTotalOccurrencesForAction_returns by done.
  cbn [fst]. intros [= <-]. f_equal. unfold numberOfActions.
  rewrite Hactions, filter_app, length_app, Nat2Z.inj_add.
  rewrite (filter_ext_in _ (λ a, Action.personId a = pid ∧
                                 ofActionClass w actionClassId a) (table_action w)).
  2: { intros a Ha. unfold ofActionClass. by rewrite (Hstable Hfk a Ha). }
  rewrite filter_cons, filter_nil.
  assert (Action.personId row = pid ∧ ofActionClass w' actionClassId row ↔
          personId action = pid ∧
          ActionClass.id (actionClass action) = actionClassId) as Hrow.
  { unfold ofActionClass. rewrite Hrowc, Hrowp. simpl. rewrite Hc''.
    split; intros [? ?]; split; congruence. }
  destruct (decide (personId action = pid ∧ _)) as [Hyes|Hno].
  - by rewrite decide_True by (by apply Hrow).
  - rewrite decide_False by (by rewrite Hrow). simpl. lia.
Qed.

(** X9.  [createAction] does not refresh the cached totals.  On a server
    whose data cache has no entry for the total of a person and an action
    class: read the total, let [createAction] store an action of that person
    and class, and read the total again.  While the entry is young and
    unless the tag of the action class is among the tags revalidated in
    between, the second read is answered from the cache with the total of
    the first read, without a query, although the callback would now count
    one more. *)
Theorem createAction_leaves_the_total_stale (data : TActionInput) (cache : DataCache)
    (w w' : World) (action : TAction) (actionClassId pid : string) :
  cache !! keyParts (cached_getTotalOccurrencesForAction actionClassId pid) = None →
  ZId actionClassId = true → ZId pid = true →
  prisma_failure w = None → foreign_keys w →
  0 < SERVICES_REVALIDATION_INTERVAL →
  createAction data (log_call action_count w) = (Return action, w') →
  personId action = pid → ActionClass.id (actionClass action) = actionClassId →
  actionClassCache_tag_byId actionClassId
    ∉ drop (length (revalidated w)) (revalidated w') →
  ∃ total cache1,
    serve (cached_getTotalOccurrencesForAction actionClassId pid) cache w
      = (Return total, log_call action_count w, cache1) ∧
    serve (cached_getTotalOccurrencesForAction actionClassId pid) cache1 w'
      = (Return total, w', cache1) ∧
    (getTotalOccurrencesForAction actionClassId pid w').1 = Return (total + 1).
Proof.
  intros Hnone Hclass Hperson Hdb Hfk Hpositive Hrun Hp Hc Htag.
  pose proof (getTotalOccurrencesForAction_returns actionClassId pid w
                Hclass Hperson Hdb) as Hfirst.
  eexists _, _. split_and!.
  - rewrite serve_miss by done.
    change (callback (cached_getTotalOccurrencesForAction actionClassId pid) w)
      with (getTotalOccurrencesForAction actionClassId pid w).
    rewrite Hfirst. reflexivity.
  - apply serve_again; [|done| |done].
    + by apply stored_row_relations in Hrun
        as (_ & _ & _ & _ & _ & _ & _ & _ & _ & _ & _ & _ & _ & _ & Hnow & _).
    + by apply Forall_singleton.
  - erewrite (createAction_total_in_database data _ w' action); [|done|done..|].
    + by rewrite decide_True.
    + by rewrite getTotalOccurrencesForAction_returns.
Qed.

(** X10.  [createAction] and [getActionsByPersonId] compose: after a call
    that returned, the list of the person without a page contains an action
    with the id, the creation date, the person, the properties and the
    action class id of the returned action. *)
Theorem createAction_is_listed (data : TActionInput) (w w' : World) (action : TAction) :
  createAction data w = (Return action, w') →
  ZId (personId action) = true → ZOptionalNumber None = true →
  ∃ t, t ∈ returned (getActionsByPersonId (personId action) None w') ∧
       id t = id action ∧ createdAt t = createdAt action ∧
       personId t = personId action ∧ properties t = properties action ∧
       ActionClass.id (actionClass t) = ActionClass.id (actionClass action).
Proof.
  intros Hrun Hperson Hpage.
  apply stored_row_relations in Hrun
    as (row & c'' & p'' & Hactions & Hid & Hcreated & Hdate & Hrowp & Hprops & Hrowc
        & Hc'' & Hrowperson & Hp'' & Hdb' & _ & _).
  rewrite getActionsByPersonId_returns by done. unfold returned, pageOfRows.
  cbn [fst].
  exists (toTAction (row, c'')). split.
  - apply shaped_elem. exists row. split; [|by exists c''].
    rewrite orderBy_createdAt_Permutation. apply selected_elem. split.
    + rewrite Hactions. apply elem_of_app. right. by left.
    + apply matches_person. unfold ofPerson. by rewrite Hrowperson, <- Hp''.
  - simpl. rewrite Hdate, Hcreated. by split_and!.
Qed.

(** X11.  A call of [createAction] that throws is not rolled back.  Either
    the action table is as before, or the action was stored and the
    exception came from [getIsPersonMonthlyActive], asked about the person of
    the stored action; it reaches the caller through the [catch] clause, so
    a known request error is reported as a [DatabaseError]. *)
Theorem createAction_throw_is_not_a_rollback (data : TActionInput) (w w' : World)
    (e : Error) :
  createAction data w = (Throw e, w') →
  table_action w' = table_action w ∨
  ∃ row e0,
    table_action w' = table_action w ++ [row] ∧
    getIsPersonMonthlyActive (Action.personId row) w' = Throw e0 ∧
    e = (if isPrismaClientKnownRequestError e0
         then DatabaseError "Database operation failed" else e0).
Proof.
  unfold createAction.
  unfold bind at 1. unfold validateInputs. rewrite forallb_safeParse_1.
  destruct (ZActionInput data); [|intros [= _ <-]; by left].
  unfold try_catch, bind at 1. unfold read at 1.
  destruct (getActionClassByEnvironmentIdAndName _ _ w) as [found|e0];
    [|rewrite rethrowAsDatabaseError_run; intros [= _ <-]; by left].
  unfold bind at 1.
  set (input := mkTActionClassInput _ _ _).
  assert (∃ r, (match found with
                | Some actionClass => ret actionClass
                | None => call_createActionClass (input_environmentId data) input
                end) w = r ∧ table_action r.2 = table_action w) as ([o w1] & -> & Hw1).
  { eexists. split; [done|]. destruct found as [c|]; simpl; [done|].
    unfold call_createActionClass. by destruct (createActionClass _ _ w). }
  simpl in Hw1. rewrite <- Hw1.
  destruct o as [c|e0];
    [|rewrite rethrowAsDatabaseError_run; intros [= _ <-]; by left].
  unfold bind at 1. unfold prisma_action_create, prisma.
  change (prisma_failure (log_call action_create w1)) with (prisma_failure w1).
  destruct (prisma_failure w1) as [e0|];
    [rewrite rethrowAsDatabaseError_run; intros [= _ <-]; by left|].
  destruct (List.find _ (table_person _)) as [p|];
    [|rewrite rethrowAsDatabaseError_run; intros [= _ <-]; by left].
  destruct (List.find _ (table_actionClass _)) as [c'|];
    [|rewrite rethrowAsDatabaseError_run; intros [= _ <-]; by left].
  unfold bind at 1. unfold read at 1.
  destruct (getIsPersonMonthlyActive _ _) as [active|e0] eqn:Hactive.
  - unfold activePersonCache_revalidate, actionCache_revalidate.
    destruct active; unfold_monad; done.
  - rewrite rethrowAsDatabaseError_run. intros [= <- <-]. right.
    eexists _, e0. split; [reflexivity|]. split; [exact Hactive|done].
Qed.

(** X12.  An unknown user: when the data pass [ZActionInput], the action
    class is resolved and the database answers, but no person has the
    [environmentId] and [userId] of the data, [createAction] throws
    [DatabaseError("Database operation failed")] and stores no action; an
    action class created on the way stays. *)
Theorem createAction_for_unknown_user (data : TActionInput) (w w1 : World)
    (c : TActionClass) :
  ZActionInput data = true → resolvesActionClass data w c w1 →
  prisma_failure w = None →
  (∀ p, p ∈ table_person w →
        ¬ (Person.environmentId p = input_environmentId data ∧
           Person.userId p = input_userId data)) →
  createAction data w =
    (Throw (DatabaseError "Database operation failed"), log_call action_create w1) ∧
  table_action w1 = table_action w.
Proof.
  intros Hvalid Hresolved Hdb Hnobody.
  pose proof (resolved_world _ _ _ _ Hresolved) as (Ha1 & Hp1 & Hdb1 & _ & _).
  split; [|done]. unfold createAction.
  unfold bind at 1. unfold validateInputs. rewrite forallb_safeParse_1, Hvalid.
  unfold try_catch, bind at 1. unfold read at 1. rewrite actionType_decide.
  unfold resolvesActionClass in Hresolved.
  assert (List.find
            (λ p, bool_decide (Person.environmentId p = input_environmentId data)
                  && bool_decide (Person.userId p = input_userId data))
            (table_person w1) = None) as Hfind.
  { destruct (List.find _ _) as [p|] eqn:Hp; [|done].
    apply List.find_some in Hp as [Hp [Henv Huser]%andb_prop].
    apply bool_decide_eq_true in Henv, Huser.
    rewrite Hp1 in Hp. apply list_elem_of_In in Hp. by destruct (Hnobody p Hp). }
  rewrite Hdb in Hdb1.
  unfold bind at 1.
  destruct Hresolved as [[-> ->]|(-> & Hcreated & ->)].
  - unfold ret at 1. unfold bind at 1. unfold prisma_action_create, prisma.
    change (prisma_failure (log_call action_create w)) with (prisma_failure w).
    rewrite Hdb.
    change (table_person (log_call action_create w)) with (table_person w).
    by rewrite Hfind.
  - unfold call_createActionClass. rewrite Hcreated.
    unfold bind at 1. unfold prisma_action_create, prisma.
    change (prisma_failure (log_call action_create ?x)) with (prisma_failure x).
    rewrite Hdb1.
    change (table_person (log_call action_create ?x)) with (table_person x).
    by rewrite Hfind.
Qed.

(** X13.  A call of [createAction] that returns revalidates the tags under
    which the lists it changes are cached: every tag of
    [getActionsByPersonId] for the person of the returned action, and every
    tag of [getActionsByEnvironmentId] for the environment of the data,
    whatever the page. *)
Theorem createAction_revalidates_the_cached_lists (data : TActionInput) (w w' : World)
    (action : TAction) (page : option Z) :
  createAction data w = (Return action, w') →
  Forall (λ tag, tag ∈ revalidated w')
    (tags (options (cached_getActionsByPersonId (personId action) page))) ∧
  Forall (λ tag, tag ∈ revalidated w')
    (tags (options (cached_getActionsByEnvironmentId (input_environmentId data) page))).
Proof.
  intros (c & w1 & p & active & _ & _ & _ & _ & _ & _ & _ & -> & ->)%createAction_Return.
  simpl. split; apply Forall_singleton.
  - apply elem_of_app. right. by left.
  - apply elem_of_app. left. apply elem_of_app. right. by left.
Qed.

Lemma occurrence_returns order actionClassId pid w :
  prisma_failure w = None →
  try_catch
    (await event ← prisma_action_findFirst
                     [where_personId pid; where_actionClass_id actionClassId] order ;;
     match event with
     | None => ret None
     | Some createdAt =>
         await today ← Date_now ;;
         ret (Some (differenceInDays today createdAt))
     end)
    (λ error, throw error) w =
  (Return (differenceInDays (now w) <$>
             (Action.createdAt <$>
                head (orderBy_createdAt order
                        (selected w [where_personId pid;
                                     where_actionClass_id actionClassId])))),
   log_call action_findFirst w).
Proof.
  intros Hdb. unfold Date_now. unfold_monad.
  rewrite prisma_action_findFirst_returns by done. by destruct (head _).
Qed.

(** In the database the action occurred today: when no stored action lies
    in the future, then after a call that returned, the callbacks of the
    occurrence functions compute, for the class of the returned action and
    its person, a last occurrence 0 days ago and a first occurrence a
    non-negative number of days ago. *)
Lemma createAction_occurrences_in_database (data : TActionInput) (w w' : World)
    (action : TAction) :
  createAction data w = (Return action, w') →
  ZId (ActionClass.id (actionClass action)) = true → ZId (personId action) = true →
  (∀ a, a ∈ table_action w → Action.createdAt a ≤ now w) →
  (getLastOccurrenceDaysAgo (ActionClass.id (actionClass action)) (personId action) w').1
    = Return (Some 0) ∧
  ∃ days,
    (getFirstOccurrenceDaysAgo (ActionClass.id (actionClass action))
       (personId action) w').1 = Return (Some days) ∧
    0 ≤ days.
Proof.
  intros Hrun Hclass Hperson Hpast.
  apply stored_row_relations in Hrun
    as (row & c'' & p'' & Hactions & _ & Hcreated & _ & Hrowp & _ & Hrowc
        & Hc'' & _ & _ & Hdb' & Hnow & _).
  set (conds := [where_personId (personId action);
                 where_actionClass_id (ActionClass.id (actionClass action))]).
  assert (row ∈ selected w' conds) as Hrow.
  { apply selected_elem. split.
    - rewrite Hactions. apply elem_of_app. right. by left.
    - apply matches_person_class. split; [done|].
      unfold ofActionClass. by rewrite Hrowc, <- Hc''. }
  assert (∀ a, a ∈ selected w' conds → Action.createdAt a ≤ now w) as Hbound.
  { intros a [Ha _]%selected_elem. rewrite Hactions in Ha.
    apply elem_of_app in Ha as [Ha|Ha%list_elem_of_singleton].
    - by apply Hpast.
    - subst a. lia. }
  split.
  - unfold getLastOccurrenceDaysAgo, invoke. simpl callback.
    unfold bind at 1. unfold validateInputs.
    rewrite forallb_safeParse_2, Hclass, Hperson. simpl andb. cbv iota.
    rewrite (occurrence_returns desc) by done. fold conds. cbn [fst]. rewrite Hnow.
    destruct (head (orderBy_createdAt desc (selected w' conds))) as [x|] eqn:Hx.
    + apply head_orderBy_desc in Hx as [Hin Hmax].
      specialize (Hmax row Hrow). specialize (Hbound x Hin).
      cbn. do 2 f_equal. unfold differenceInDays.
      replace (now w - Action.createdAt x) with 0 by lia. done.
    + apply head_orderBy_None in Hx. rewrite Hx in Hrow. by apply elem_of_nil in Hrow.
  - unfold getFirstOccurrenceDaysAgo, invoke. simpl callback.
    unfold bind at 1. unfold validateInputs.
    rewrite forallb_safeParse_2, Hclass, Hperson. simpl andb. cbv iota.
    rewrite (occurrence_returns asc) by done. fold conds. cbn [fst]. rewrite Hnow.
    destruct (head (orderBy_createdAt asc (selected w' conds))) as [y|] eqn:Hy.
    + apply head_orderBy_asc in Hy as [Hin _]. specialize (Hbound y Hin).
      cbn. eexists. split; [reflexivity|]. unfold differenceInDays.
      apply Z.quot_pos; lia.
    + apply head_orderBy_None in Hy. rewrite Hy in Hrow. by apply elem_of_nil in Hrow.
Qed.

Lemma getLastOccurrenceDaysAgo_returns actionClassId pid w :
  ZId actionClassId = true → ZId pid = true → prisma_failure w = None →
  ∃ last, getLastOccurrenceDaysAgo actionClassId pid w
            = (Return last, log_call action_findFirst w).
Proof.
  intros Hclass Hperson Hdb. unfold getLastOccurrenceDaysAgo, invoke. simpl callback.
  unfold bind at 1. unfold validateInputs.
  rewrite forallb_safeParse_2, Hclass, Hperson. simpl andb. cbv iota.
  rewrite (occurrence_returns desc) by done. by eexists.
Qed.

(** X14.  [createAction] does not refresh the cached occurrences.  On a
    server whose data cache has no entry for the last occurrence of an
    action class for a person, and with no stored action in the future:
    read the last occurrence, let [createAction] store an action of that
    person and class, and read it again.  While the entry is young and
    unless the tag of the action class is among the tags revalidated in
    between, the second read is answered from the cache with the answer of
    the first read, be it [null], although the callback would now answer 0
    days. *)
Theorem createAction_leaves_the_last_occurrence_stale (data : TActionInput)
    (cache : DataCache) (w w' : World) (action : TAction) (actionClassId pid : string) :
  cache !! keyParts (cached_getLastOccurrenceDaysAgo actionClassId pid) = None →
  ZId actionClassId = true → ZId pid = true →
  prisma_failure w = None →
  (∀ a, a ∈ table_action w → Action.createdAt a ≤ now w) →
  0 < SERVICES_REVALIDATION_INTERVAL →
  createAction data (log_call action_findFirst w) = (Return action, w') →
  personId action = pid → ActionClass.id (actionClass action) = actionClassId →
  actionClassCache_tag_byId actionClassId
    ∉ drop (length (revalidated w)) (revalidated w') →
  ∃ last cache1,
    serve (cached_getLastOccurrenceDaysAgo actionClassId pid) cache w
      = (Return last, log_call action_findFirst w, cache1) ∧
    serve (cached_getLastOccurrenceDaysAgo actionClassId pid) cache1 w'
      = (Return last, w', cache1) ∧
    (getLastOccurrenceDaysAgo actionClassId pid w').1 = Return (Some 0).
Proof.
  intros Hnone Hclass Hperson Hdb Hpast Hpositive Hrun Hp Hc Htag.
  destruct (getLastOccurrenceDaysAgo_returns actionClassId pid w Hclass Hperson Hdb)
    as [last Hfirst].
  exists last. eexists. split_and!.
  - rewrite serve_miss by done.
    change (callback (cached_getLastOccurrenceDaysAgo actionClassId pid) w)
      with (getLastOccurrenceDaysAgo actionClassId pid w).
    rewrite Hfirst. reflexivity.
  - apply serve_again; [|done| |done].
    + by apply stored_row_relations in Hrun
        as (_ & _ & _ & _ & _ & _ & _ & _ & _ & _ & _ & _ & _ & _ & Hnow & _).
    + by apply Forall_singleton.
  - subst actionClassId pid.
    by apply (createAction_occurrences_in_database data _ w' action) in Hrun as [? _].
Qed.

(** X18.  For a missing action class [createAction] asks
    [createActionClass] for one with the name and the environment of the
    data, of type [automatic] exactly for the names "Exit Intent (Desktop)"
    and "50% Scroll" and of type [code] otherwise; when that call throws,
    the exception passes the [catch] clause, so a known request error is
    reported as a [DatabaseError], and nothing has been stored or asked of
    the ORM. *)
Theorem createAction_creates_the_missing_class (data : TActionInput) (w : World)
    (e : Error) :
  ZActionInput data = true →
  getActionClassByEnvironmentIdAndName (input_environmentId data) (input_name data) w
    = Return None →
  createActionClass (input_environmentId data)
    (mkTActionClassInput (input_name data)
       (if decide (input_name data = "Exit Intent (Desktop)" ∨
                   input_name data = "50% Scroll")
        then automatic else code)
       (input_environmentId data)) w = Throw e →
  createAction data w =
    (Throw (if isPrismaClientKnownRequestError e
            then DatabaseError "Database operation failed" else e), w).
Proof.
  intros Hvalid Hlookup Hcreate. unfold createAction.
  unfold bind at 1. unfold validateInputs. rewrite forallb_safeParse_1, Hvalid.
  unfold try_catch, bind at 1. unfold read at 1. rewrite actionType_decide, Hlookup.
  unfold bind at 1. unfold call_createActionClass. rewrite Hcreate.
  by rewrite rethrowAsDatabaseError_run.
Qed.

End Stored.

(** ** Keys of hyphenated arguments *)

Lemma append_assoc (a b c : string) : (a +:+ b) +:+ c = a +:+ b +:+ c.
Proof.
  induction a as [|x a IH]; [done|].
  change (String x ((a +:+ b) +:+ c) = String x (a +:+ b +:+ c)).
  by rewrite IH.
Qed.

Lemma length_append (a b : string) :
  String.length (a +:+ b) = (String.length a + String.length b)%nat.
Proof.
  induction a as [|x a IH]; [done|].
  change (S (String.length (a +:+ b)) = S (String.length a + String.length b)).
  by rewrite IH.
Qed.

(** X19.  The key of an operation with two string arguments does not mark
    where the first ends: moving a part after a hyphen from the end of the
    first argument to the front of the second leaves the key unchanged.  So
    two such calls with different arguments have one key. *)
Theorem keys_do_not_separate_hyphenated_arguments `{Imports} (a b c : string) :
  cacheKey (call_canUserAccessWebhook (a +:+ "-" +:+ b) c)
    = cacheKey (call_canUserAccessWebhook a (b +:+ "-" +:+ c)) ∧
  cacheKey (call_canUserAccessAttributeClass (a +:+ "-" +:+ b) c)
    = cacheKey (call_canUserAccessAttributeClass a (b +:+ "-" +:+ c)) ∧
  cacheKey (call_getTotalOccurrencesForAction (a +:+ "-" +:+ b) c)
    = cacheKey (call_getTotalOccurrencesForAction a (b +:+ "-" +:+ c)) ∧
  call_canUserAccessWebhook (a +:+ "-" +:+ b) c
    ≠ call_canUserAccessWebhook a (b +:+ "-" +:+ c).
Proof.
  assert ((a +:+ "-" +:+ b) +:+ "-" +:+ c = a +:+ "-" +:+ b +:+ "-" +:+ c) as Hassoc.
  { by rewrite !append_assoc. }
  split_and!; simpl; try (by rewrite Hassoc).
  intros [= Ha _]. apply (f_equal String.length) in Ha.
  rewrite length_append in Ha.
  change (String.length ("-" +:+ b)) with (S (String.length b)) in Ha. lia.
Qed.

(** X20.  The key of [sendFreeLimitReachedEventToPosthogBiWeekly] does
    separate its arguments, whatever the environment id: the plan comes
    first and neither plan name contains a hyphen or starts the other, so
    two calls with one key have the same plan and the same environment. *)
Theorem posthog_key_determines_its_arguments `{Imports}
    (environmentId environmentId' : string) (plan plan' : Plan) :
  cacheKey (call_sendFreeLimitReachedEventToPosthogBiWeekly environmentId plan)
    = cacheKey (call_sendFreeLimitReachedEventToPosthogBiWeekly environmentId' plan') →
  environmentId = environmentId' ∧ plan = plan'.
Proof.
  destruct plan, plan'; intros Hkey; by simplify_eq/=.
Qed.

(** ** Exceptions in the access checks *)

Section AccessErrors.
Context `{Imports}.

(** X15.  The access checks grant nothing on an error.  Identifiers that
    fail [ZId] are rejected before any lookup; an exception of the resource
    lookup or of [hasUserEnvironmentAccess] reaches the caller unchanged,
    in the unchanged world; so neither check returns [true] unless both
    lookups returned. *)
Theorem access_checks_pass_exceptions_on (userId resourceId : string) (w : World)
    (e : Error) :
  (ZId userId && ZId resourceId = false →
     canUserAccessWebhook userId resourceId w = (Throw ValidationError, w) ∧
     canUserAccessAttributeClass userId resourceId w = (Throw ValidationError, w)) ∧
  (ZId userId = true → ZId resourceId = true → ZId "" = false →
     (getWebhook resourceId w = Throw e →
        canUserAccessWebhook userId resourceId w = (Throw e, w)) ∧
     (getAttributeClass resourceId w = Throw e →
        canUserAccessAttributeClass userId resourceId w = (Throw e, w)) ∧
     (∀ webhook, getWebhook resourceId w = Return (Some webhook) →
        hasUserEnvironmentAccess userId (Webhook.environmentId webhook) w = Throw e →
        canUserAccessWebhook userId resourceId w = (Throw e, w)) ∧
     (∀ attributeClass, getAttributeClass resourceId w = Return (Some attributeClass) →
        hasUserEnvironmentAccess userId
          (AttributeClass.environmentId attributeClass) w = Throw e →
        canUserAccessAttributeClass userId resourceId w = (Throw e, w))).
Proof.
  split.
  - intros Hinvalid.
    by rewrite canUserAccessWebhook_unfold, canUserAccessAttributeClass_unfold, Hinvalid.
  - intros Hu Hr Hempty.
    rewrite canUserAccessWebhook_unfold, canUserAccessAttributeClass_unfold, Hu, Hr.
    rewrite (valid_not_empty _ Hempty Hu). simpl. split_and!.
    + by intros ->.
    + by intros ->.
    + by intros webhook -> ->.
    + by intros attributeClass -> ->.
Qed.

End AccessErrors.

(** ** The onboarding pathway *)

(** X16.  What [handleSelect] stores is what it sets: it calls
    [setCurrentStep] once and then [setSelectedPathway] with the chosen
    pathway, and leaves in [localStorage] the chosen pathway under
    ["onboardingPathway"] and the decimal of the very step it set under
    ["onboardingCurrentStep"].  The step is 5 exactly for a link survey
    outside Formbricks Cloud and 2 otherwise; no other key is touched. *)
Theorem handleSelect_stores_what_it_sets (isFormbricksCloud : bool)
    (pathway : PathwayOptionType) (b : Browser) :
  ∃ step : Z,
    propCalls (handleSelect isFormbricksCloud pathway b) =
      propCalls b ++ [setCurrentStep step; setSelectedPathway (Some pathway)] ∧
    localStorage (handleSelect isFormbricksCloud pathway b) !! "onboardingCurrentStep"
      = Some (pretty step) ∧
    localStorage (handleSelect isFormbricksCloud pathway b) !! "onboardingPathway"
      = Some (PathwayOptionType_toString pathway) ∧
    (step = 5 ↔ pathway = link ∧ isFormbricksCloud = false) ∧
    (step = 2 ↔ ¬ (pathway = link ∧ isFormbricksCloud = false)) ∧
    ∀ key, key ≠ "onboardingPathway" → key ≠ "onboardingCurrentStep" →
      localStorage (handleSelect isFormbricksCloud pathway b) !! key
        = localStorage b !! key.
Proof.
  destruct pathway, isFormbricksCloud; simpl;
    [exists 2|exists 5|exists 2|exists 2]; split_and!.
  all: try (by rewrite <- app_assoc).
  all: try (by rewrite lookup_insert_eq).
  all: try (by rewrite lookup_insert_ne, lookup_insert_eq).
  all: try (intros key ? ?; by rewrite !lookup_insert_ne).
  all: split; try done.
  all: try (by intros [? ?]).
  all: try (by intros ? [? ?]).
  all: intros Hno; by destruct Hno.
Qed.

(** X17.  The last selection wins: whatever was selected before, the
    [localStorage] after a selection is the one the same selection leaves
    when made first, so selecting twice stores what selecting once stores;
    every selection adds its two setter calls. *)
Theorem handleSelect_last_selection_wins (cloud1 cloud2 : bool)
    (pathway1 pathway2 : PathwayOptionType) (b : Browser) :
  localStorage (handleSelect cloud2 pathway2 (handleSelect cloud1 pathway1 b))
    = localStorage (handleSelect cloud2 pathway2 b) ∧
  length (propCalls (handleSelect cloud2 pathway2 (handleSelect cloud1 pathway1 b)))
    = (length (propCalls b) + 4)%nat.
Proof.
  split.
  - apply map_eq. intros key.
    destruct pathway1, pathway2, cloud1, cloud2; simpl;
      rewrite !lookup_insert; repeat case_decide; done.
  - destruct pathway1, pathway2, cloud1, cloud2; simpl;
      rewrite !length_app; simpl; lia.
Qed.

(** * The properties on the sample installation *)

#[local] Existing Instance Sample.installation.



Lemma invalid_input_throws_in_unchanged_world_witness :
  getActionsByPersonId "Not-An-Id" (Some 1) Sample.world
    = (Throw ValidationError, Sample.world) ∧
  getActionsByEnvironmentId "" None Sample.world = (Throw ValidationError, Sample.world) ∧
  createAction (mkTActionInput "env 1" "user1" "signup") Sample.world
    = (Throw ValidationError, Sample.world) ∧
  getActionCountInLast7Days "AC1" Sample.world = (Throw ValidationError, Sample.world) ∧
  getLastOccurrenceDaysAgo "ac1" "p-1" Sample.world = (Throw ValidationError, Sample.world).
Proof.
  destruct (@invalid_input_throws_in_unchanged_world Sample.installation "Not-An-Id" "" "AC1" (Some 1)
              (mkTActionInput "env 1" "user1" "signup") Sample.world)
    as (Hperson & _ & Hdata & Hclass & _).
  destruct (@invalid_input_throws_in_unchanged_world Sample.installation "p-1" "" "ac1" None
              (mkTActionInput "env 1" "user1" "signup") Sample.world)
    as (_ & Henvironment & _ & _ & Hpair).
  split; [exact (Hperson eq_refl)|].
  split; [exact (Henvironment eq_refl)|].
  split; [exact (Hdata eq_refl)|].
  split; [exact (proj2 (proj2 (Hclass eq_refl)))|].
  exact (proj1 (proj2 (proj2 (proj2 (proj2 (Hpair eq_refl)))))).
Defined.

Lemma createAction_revalidates_its_tags_witness :
  revalidated Visit.scrolled.2
    = ["activePeople-p2"; "environments-env2-actions"; "people-p2-actions"] ∧
  revalidated Sample.created.2
    = ["actionClasses-ac3"; "environments-env2-actionClasses"; "activePeople-p2";
       "environments-env2-actions"; "people-p2-actions"] ∧
  createAction Visit.stranger Sample.world
    = (Throw (DatabaseError "Database operation failed"),
       log_call action_create Sample.world) ∧
  (∃ w', createAction Visit.newcomer Sample.world
           = (Throw (DatabaseError "Database operation failed"), w') ∧
         revalidated w' = ["actionClasses-ac3"; "environments-env2-actionClasses"]).
Proof.
  assert (createAction Visit.scroll Sample.world = Visit.scrolled) as Hscrolled.
  { vm_compute. reflexivity. }
  assert (createAction Sample.newAction Sample.world = Sample.created) as Hcreated.
  { vm_compute. reflexivity. }
  assert (createAction Visit.stranger Sample.world
          = (Throw (DatabaseError "Database operation failed"),
             log_call action_create Sample.world)) as Hstranger.
  { vm_compute. reflexivity. }
  destruct (createAction Visit.newcomer Sample.world) as [o w'] eqn:Hnewcomer.
  assert (o = Throw (DatabaseError "Database operation failed")) as ->.
  { apply (f_equal fst) in Hnewcomer. vm_compute in Hnewcomer. by subst o. }
  unfold Visit.scrolled in Hscrolled. unfold Sample.created in Hcreated.
  destruct (@createAction_revalidates_its_tags Sample.installation Visit.scroll
              Sample.world) as [Hfound _].
  destruct (@createAction_revalidates_its_tags Sample.installation Sample.newAction
              Sample.world) as [Hmade _].
  destruct (@createAction_revalidates_its_tags Sample.installation Visit.stranger
              Sample.world) as [_ Hthrown].
  destruct (@createAction_revalidates_its_tags Sample.installation Visit.newcomer
              Sample.world) as [_ Hleft].
  assert (∀ stored row (active : bool),
            table_action stored = table_action Sample.world ++ [row] →
            Action.personId row = "p2" →
            @getIsPersonMonthlyActive Sample.installation "p2" stored = Return active →
            active = false) as Hinactive.
  { intros stored row active Htable Hrow. simpl.
    unfold Sample.actionsOfPerson. rewrite Htable, List.filter_app. simpl.
    rewrite Hrow. intros [= <-]. reflexivity. }
  split_and!.
  - destruct (Hfound _ _ Hscrolled)
      as (w1 & stored & row & active & _ & _ & Htable & _ & Hrow & _ & Hactive & Htags).
    rewrite (Hinactive stored row active Htable Hrow Hactive) in Htags. exact Htags.
  - destruct (Hmade _ _ Hcreated)
      as (w1 & stored & row & active & _ & _ & Htable & _ & Hrow & _ & Hactive & Htags).
    rewrite (Hinactive stored row active Htable Hrow Hactive) in Htags. exact Htags.
  - exact Hstranger.
  - exists w'. split; [reflexivity|].
    destruct (Hleft _ _ Hnewcomer) as [Hnone|(c & w1 & _ & Hresolved & Htags)].
    + apply (f_equal snd) in Hnewcomer. simpl in Hnewcomer. subst w'.
      vm_compute in Hnone. discriminate Hnone.
    + destruct Hresolved as [[Hfind _]|(_ & Hclass & _)]; [discriminate Hfind|].
      injection Hclass as <-. exact Htags.
Defined.

(** The tags of an action class created on the way are revalidated too,
    also by a call that throws afterwards. *)
Lemma createAction_revalidates_its_tags_counterexample :
  (∃ action w',
     createAction Sample.newAction Sample.world = (Return action, w') ∧
     "actionClasses-ac3" ∈ revalidated w' ∧
     "actionClasses-ac3" ∉ [actionCache_tag_byEnvironmentId "env2";
                            actionCache_tag_byPersonId (personId action);
                            activePersonCache_tag_byId (personId action)]) ∧
  (∃ e w',
     createAction Visit.newcomer Sample.world = (Throw e, w') ∧
     revalidated w' ≠ revalidated Sample.world).
Proof.
  split.
  - eexists _, _. split; [vm_compute; reflexivity|].
    split; apply (bool_decide_unpack _); vm_compute; exact I.
  - eexists _, _. split; [vm_compute; reflexivity|]. discriminate.
Qed.

Lemma action_lists_return_shaped_matching_actions_witness :
  ∃ rs actions,
    (* the first request runs the callback *)
    served_getActionsByPersonId "p1" None ∅ Sample.world
      = (Return rs, Visit.requested, Visit.cache1) ∧
    (* the second request is answered from the cache *)
    serve (cached_getActionsByPersonId "p1" None) Visit.cache1 Visit.requested
      = (Return actions, Visit.requested, Visit.cache1) ∧
    served_getActionsByPersonId "p1" None Visit.cache1 Visit.requested
      = (Return rs, Visit.requested, Visit.cache1) ∧
    actions = toJSON <$> rs ∧
    createdAt <$> actions
      = [DateString (110 * Sample.day - 1800000);
         DateString (109 * Sample.day + 12 * Sample.hour);
         DateString (100 * Sample.day)] ∧
    Forall (λ t, personId t = "p1" ∧ ∃ ms, createdAt t = DateObject ms) rs.
Proof.
  set (c := @cached_getActionsByPersonId Sample.installation "p1" None).
  assert (storedBy c Visit.cache1) as Hstored.
  { apply (serve_storedBy c ∅ Sample.world
             (Return (returned (getActionsByPersonId "p1" None Sample.world)))
             Visit.requested).
    - apply storedBy_empty.
    - rewrite serve_miss by apply lookup_empty. reflexivity. }
  assert (cachedValue c Visit.cache1 Visit.requested
          = Some (toJSON <$> returned (getActionsByPersonId "p1" None Sample.world)))
    as Hcached.
  { unfold cachedValue, Visit.cache1. rewrite lookup_insert_eq. reflexivity. }
  assert (served_getActionsByPersonId "p1" None Visit.cache1 Visit.requested
          = (Return (returned (getActionsByPersonId "p1" None Sample.world)),
             Visit.requested, Visit.cache1)) as Hagain.
  { unfold served_getActionsByPersonId, served_bind, serve. fold c.
    rewrite Hcached. reflexivity. }
  destruct (@action_lists_return_shaped_matching_actions Sample.installation
              "p1" "env1" None Visit.cache1 Visit.requested) as [Hperson _].
  destruct (Hperson Hstored _ _ _ Hagain)
    as (actions & w0 & Hserved & Hformat & Hhanded & Hrows).
  fold c in Hhanded. rewrite Hcached in Hhanded.
  eexists _, actions. split_and!.
  - unfold served_getActionsByPersonId, served_bind.
    rewrite serve_miss by apply lookup_empty. reflexivity.
  - exact Hserved.
  - exact Hagain.
  - exact Hhanded.
  - rewrite Hhanded. reflexivity.
  - eapply Forall_impl; [exact Hrows|]. intros t (Hid & Hdate & _). by split.
Defined.

Lemma cache_entries_are_keyed_by_operation_and_arguments_witness :
  let c := call_getActionsByPersonId "p1" (Some 2) in
  cacheKey c = ["getActionsByPersonId-p1-2"] ∧
  tags (cacheOptions c) = ["people-p1-actions"] ∧
  revalidate (cacheOptions c) = 1800 ∧
  cacheKey (call_sendFreeLimitReachedEventToPosthogBiWeekly "env1" inAppSurvey)
    = ["sendFreeLimitReachedEventToPosthogBiWeekly-inAppSurvey-env1"] ∧
  revalidate (cacheOptions (call_sendFreeLimitReachedEventToPosthogBiWeekly "env1"
                              inAppSurvey)) = 1296000 ∧
  c = call_getActionsByPersonId ("p" +:+ "1") (Some (1 + 1)) ∧
  cacheKey c ≠ cacheKey (call_getActionsByEnvironmentId "p1" (Some 2)) ∧
  cacheKey (call_getTotalOccurrencesForAction "ac1" "p1")
    ≠ cacheKey (call_getTotalOccurrencesForAction "ac" "1p1").
Proof.
  intros c.
  destruct (@cache_entries_are_keyed_by_operation_and_arguments Sample.installation
              c (call_getActionsByPersonId ("p" +:+ "1") (Some (1 + 1))))
    as (Hkey & Htags & Hrevalidate & Hsame & _).
  destruct (@cache_entries_are_keyed_by_operation_and_arguments Sample.installation
              c (call_getActionsByEnvironmentId "p1" (Some 2)))
    as (_ & _ & _ & Hother & _).
  destruct (@cache_entries_are_keyed_by_operation_and_arguments Sample.installation
              (call_getTotalOccurrencesForAction "ac1" "p1")
              (call_getTotalOccurrencesForAction "ac" "1p1"))
    as (_ & _ & _ & _ & Hvalid).
  assert (∀ s, ZId s = true → hyphen_free s) as Hschema.
  { intros s [_ Hs]%andb_prop. unfold hyphen_free.
    induction s as [|a s IH]; [apply not_elem_of_nil|].
    simpl in Hs. apply andb_prop in Hs as [Ha Hs].
    apply not_elem_of_cons. split; [|by apply IH].
    intros <-. discriminate Ha. }
  destruct (@cache_entries_are_keyed_by_operation_and_arguments Sample.installation
              (call_sendFreeLimitReachedEventToPosthogBiWeekly "env1" inAppSurvey) c)
    as (Hposthog & _ & Hdays & _).
  assert (Forall hyphen_free ["p1"]) as Hid.
  { apply (bool_decide_unpack _). vm_compute. exact I. }
  split; [exact Hkey|]. split; [exact Htags|]. split; [exact Hrevalidate|].
  split; [exact Hposthog|]. split; [exact Hdays|].
  split; [exact (Hsame Hid Hid eq_refl)|]. split.
  - intros Hequal. discriminate (Hother Hid Hid Hequal).
  - intros Hequal.
    assert (Forall (λ s, ZId s = true) ["ac1"; "p1"]) as H1 by (by repeat constructor).
    assert (Forall (λ s, ZId s = true) ["ac"; "1p1"]) as H2 by (by repeat constructor).
    discriminate (Hvalid Hschema H1 H2 Hequal).
Defined.

(** Two different calls of [canUserAccessWebhook] with one key: on a server
    whose [ZId] accepts hyphens, the second is answered [true] from the
    entry of the first, although its own webhook does not exist. *)
Lemma cache_entries_are_keyed_by_operation_and_arguments_counterexample :
  call_canUserAccessWebhook "user-1" "wh1" ≠ call_canUserAccessWebhook "user" "1-wh1" ∧
  @cacheKey Lenient.installation (call_canUserAccessWebhook "user-1" "wh1")
    = @cacheKey Lenient.installation (call_canUserAccessWebhook "user" "1-wh1") ∧
  @canUserAccessWebhook Lenient.installation "user-1" "wh1" Sample.world
    = (Return true, Sample.world) ∧
  @canUserAccessWebhook Lenient.installation "user" "1-wh1" Sample.world
    = (Return false, Sample.world) ∧
  ∃ cache1,
    serve (@cached_canUserAccessWebhook Lenient.installation "user-1" "wh1")
      ∅ Sample.world = (Return true, Sample.world, cache1) ∧
    serve (@cached_canUserAccessWebhook Lenient.installation "user" "1-wh1")
      cache1 Sample.world = (Return true, Sample.world, cache1).
Proof.
  split; [discriminate|]. split; [reflexivity|].
  split; [reflexivity|]. split; [reflexivity|].
  eexists. split.
  - rewrite serve_miss by apply lookup_empty. reflexivity.
  - eapply serve_fresh; [apply lookup_insert_eq|reflexivity|reflexivity].
Qed.


Lemma known_request_errors_become_database_errors_witness :
  let known := PrismaClientKnownRequestError "P1001" in
  let other := OtherError "connection reset" in
  (getActionsByPersonId "p1" None (Sample.broken known)).1
    = Throw (DatabaseError "Database operation failed") ∧
  (getActionsByEnvironmentId "env1" (Some 1) (Sample.broken other)).1 = Throw other ∧
  (createAction (mkTActionInput "env1" "user1" "signup") (Sample.broken known)).1
    = Throw (DatabaseError "Database operation failed") ∧
  (getActionCountInLastHour "ac1" (Sample.broken known)).1 = Throw known ∧
  (getFirstOccurrenceDaysAgo "ac1" "p1" (Sample.broken known)).1 = Throw known.
Proof.
  intros known other.
  pose proof (@known_request_errors_become_database_errors Sample.installation
                "p1" "env1" "ac1" None (mkTActionInput "env1" "user1" "signup")
                (Sample.broken known) known eq_refl) as Hknown.
  pose proof (@known_request_errors_become_database_errors Sample.installation
                "p1" "env1" "ac1" (Some 1) (mkTActionInput "env1" "user1" "signup")
                (Sample.broken other) other eq_refl) as Hother.
  cbv zeta in Hknown, Hother.
  destruct Hknown as (Hperson & _ & Hcreate & Hcounts).
  destruct Hother as (_ & Henvironment & _ & _).
  split; [exact (Hperson eq_refl eq_refl)|].
  split; [exact (Henvironment eq_refl eq_refl)|].
  split.
  { apply (proj1 (Hcreate eq_refl) (ActionClass.mk "ac1" "signup" code "env1")
             (Sample.broken known)).
    left. split; reflexivity. }
  destruct (Hcounts eq_refl eq_refl) as (Hhour & _ & _ & _ & _ & _ & _ & _ & Hfirst).
  split; [exact Hhour|exact Hfirst].
Defined.


(** * The further properties on the sample installation *)

Lemma page_zero_lists_everything_witness :
  getActionsByPersonId "p1" (Some 0) Sample.world
    = getActionsByPersonId "p1" None Sample.world ∧
  getActionsByEnvironmentId "env1" (Some 0) Sample.world
    = getActionsByEnvironmentId "env1" None Sample.world ∧
  length (returned (getActionsByPersonId "p1" (Some 0) Sample.world)) = 3%nat.
Proof.
  destruct (@page_zero_lists_everything Sample.installation "p1" "env1" Sample.world
              eq_refl) as [Hperson Henvironment].
  split; [exact Hperson|]. split; [exact Henvironment|]. reflexivity.
Defined.


Lemma pages_concatenate_to_the_whole_list_witness :
  pagesUpTo 2 (getActionsByPersonId "p1")
      (λ p, if decide (p = 1%nat) then Sample.world else Visit.reorganised)
    = returned (getActionsByPersonId "p1" None Sample.world) ∧
  pagesUpTo 5 (getActionsByEnvironmentId "env1") (λ _, Visit.reorganised)
    = returned (getActionsByEnvironmentId "env1" None Sample.world) ∧
  id <$> pagesUpTo 2 (getActionsByPersonId "p1") (λ _, Visit.reorganised)
    = ["a3"; "a1"; "a0"].
Proof.
  assert (same_rows Sample.world Visit.reorganised) as Hreorganised.
  { split_and!; try reflexivity. simpl. by rewrite reverse_Permutation. }
  assert (same_rows Sample.world Sample.world) as Hsame by (by split_and!).
  destruct (@pages_concatenate_to_the_whole_list Sample.installation "p1" "env1" 2
              Sample.world
              (λ p, if decide (p = 1%nat) then Sample.world else Visit.reorganised)
              (λ _, eq_refl) eq_refl) as [Hperson _].
  { intros p. by case_decide. }
  { discriminate. }
  destruct (@pages_concatenate_to_the_whole_list Sample.installation "p1" "env1" 5
              Sample.world (λ _, Visit.reorganised) (λ _, eq_refl) eq_refl
              (λ _, Hreorganised)) as [_ Henvironment].
  { discriminate. }
  split; [|split; [|reflexivity]].
  - apply (Hperson eq_refl).
    + apply (bool_decide_unpack _). vm_compute. exact I.
    + apply (bool_decide_unpack _). vm_compute. exact I.
  - apply (Henvironment eq_refl).
    + apply (bool_decide_unpack _). vm_compute. exact I.
    + apply (bool_decide_unpack _). vm_compute. exact I.
Defined.

Lemma action_lists_keep_ids_unique_witness :
  NoDup (Action.id <$> table_action Sample.world) ∧
  (∃ rs w', getActionsByPersonId "p1" (Some 1) Sample.world = (Return rs, w') ∧
            NoDup (id <$> rs)) ∧
  (∃ rs w', getActionsByEnvironmentId "env1" None Sample.world = (Return rs, w') ∧
            NoDup (id <$> rs)).
Proof.
  assert (NoDup (Action.id <$> table_action Sample.world)) as Hunique.
  { apply (bool_decide_unpack _). vm_compute. exact I. }
  destruct (@action_lists_keep_ids_unique Sample.installation "p1" "env1" (Some 1)
              Sample.world Hunique) as [Hperson _].
  destruct (@action_lists_keep_ids_unique Sample.installation "p1" "env1" None
              Sample.world Hunique) as [_ Henvironment].
  assert (getActionsByPersonId "p1" (Some 1) Sample.world = Sample.firstPage) as Hfirst.
  { vm_compute. reflexivity. }
  assert (getActionsByEnvironmentId "env1" None Sample.world = Sample.ofEnvironment)
    as Hall.
  { vm_compute. reflexivity. }
  unfold Sample.firstPage in Hfirst. unfold Sample.ofEnvironment in Hall.
  split; [exact Hunique|]. split.
  - eexists _, _. split; [exact Hfirst|]. exact (Hperson _ _ Hfirst).
  - eexists _, _. split; [exact Hall|]. exact (Henvironment _ _ Hall).
Defined.

Lemma unpaged_list_counts_the_actions_of_the_person_witness :
  foreign_keys Sample.world ∧
  Z.of_nat (length (returned (getActionsByPersonId "p1" None Sample.world)))
    = numberOfActions Sample.world (λ a, Action.personId a = "p1") ∧
  ∃ total, (getTotalOccurrencesForAction "ac1" "p1" Sample.world).1 = Return total ∧
           total ≤ Z.of_nat (length (returned (getActionsByPersonId "p1" None
                                                 Sample.world))).
Proof.
  assert (foreign_keys Sample.world) as Hfk.
  { unfold foreign_keys. apply (bool_decide_unpack _). vm_compute. exact I. }
  destruct (@unpaged_list_counts_the_actions_of_the_person Sample.installation
              "p1" "ac1" Sample.world Hfk eq_refl eq_refl eq_refl) as [Hlength Htotal].
  split; [exact Hfk|]. split; [exact Hlength|]. exact (Htotal eq_refl).
Defined.


Lemma createAction_stores_one_action_witness :
  createAction Visit.scroll Sample.world = Visit.scrolled ∧
  (∃ row, table_action Visit.scrolled.2 = table_action Sample.world ++ [row] ∧
          Action.id row = "a4" ∧ Action.personId row = "p2" ∧
          Action.actionClassId row = "ac2" ∧
          Action.createdAt row = now Sample.world) ∧
  table_actionClass Visit.scrolled.2 = table_actionClass Sample.world ∧
  foreign_keys Visit.scrolled.2.
Proof.
  assert (createAction Visit.scroll Sample.world = Visit.scrolled) as Hrun.
  { vm_compute. reflexivity. }
  split; [exact Hrun|]. unfold Visit.scrolled in Hrun.
  destruct (@createAction_stores_one_action Sample.installation _ _ _ _ Hrun)
    as ((row & p & Hrows & Hid & Hcreated & _ & Hperson & Hclass & _) & _ & _ & Hfk).
  split; [|split; [reflexivity|]].
  - exists row. split; [exact Hrows|]. split; [exact Hid|]. split; [exact Hperson|].
    split; [exact Hclass|exact Hcreated].
  - apply Hfk. unfold foreign_keys. apply (bool_decide_unpack _). vm_compute. exact I.
Defined.

Lemma createAction_leaves_the_total_stale_witness :
  ∃ cache1 w1 w2,
    (* read, write, read again *)
    serve (cached_getTotalOccurrencesForAction "ac2" "p2") ∅ Sample.world
      = (Return 1, w1, cache1) ∧
    (createAction Visit.scroll w1).2 = w2 ∧
    serve (cached_getTotalOccurrencesForAction "ac2" "p2") cache1 w2
      = (Return 1, w2, cache1) ∧
    (* what the database holds by then *)
    (getTotalOccurrencesForAction "ac2" "p2" w2).1 = Return 2.
Proof.
  destruct (createAction Visit.scroll (log_call action_count Sample.world))
    as [o w2] eqn:Hrun.
  assert (o = Return (mkTAction "a4" (DateObject (now Sample.world)) "p2" []
                        (ActionClass.mk "ac2" "50% Scroll" automatic "env2"))) as ->.
  { apply (f_equal fst) in Hrun. vm_compute in Hrun. subst o. reflexivity. }
  assert (revalidated w2
          = ["activePeople-p2"; "environments-env2-actions"; "people-p2-actions"])
    as Hrevalidated.
  { apply (f_equal snd) in Hrun. simpl in Hrun. subst w2.
    vm_compute. reflexivity. }
  assert (foreign_keys Sample.world) as Hfk.
  { unfold foreign_keys. apply (bool_decide_unpack _). vm_compute. exact I. }
  destruct (@createAction_leaves_the_total_stale Sample.installation Visit.scroll ∅
              Sample.world w2 _ "ac2" "p2"
              (lookup_empty _) eq_refl eq_refl eq_refl Hfk eq_refl Hrun eq_refl eq_refl)
    as (total & cache1 & Hfirst & Hsecond & Hdatabase).
  { rewrite Hrevalidated. apply (bool_decide_unpack _). vm_compute. exact I. }
  assert (total = 1) as ->.
  { rewrite serve_miss in Hfirst by apply lookup_empty.
    apply (f_equal (λ r, r.1.1)) in Hfirst. vm_compute in Hfirst. by injection Hfirst. }
  exists cache1, (log_call action_count Sample.world), w2.
  split; [exact Hfirst|]. split; [by rewrite Hrun|]. split; [exact Hsecond|].
  exact Hdatabase.
Defined.

Lemma createAction_is_listed_witness :
  ∃ t, t ∈ returned (getActionsByPersonId "p2" None Visit.scrolled.2) ∧
       id t = "a4" ∧ personId t = "p2" ∧ ActionClass.id (actionClass t) = "ac2".
Proof.
  assert (createAction Visit.scroll Sample.world = Visit.scrolled) as Hrun.
  { vm_compute. reflexivity. }
  unfold Visit.scrolled in Hrun.
  destruct (@createAction_is_listed Sample.installation _ _ _ _ Hrun eq_refl eq_refl)
    as (t & Hin & Hid & _ & Hperson & _ & Hclass).
  exists t. split; [exact Hin|]. split; [exact Hid|]. split; [exact Hperson|exact Hclass].
Defined.

Lemma createAction_throw_is_not_a_rollback_witness :
  @createAction Outage.installation Visit.scroll Sample.world = Visit.interrupted ∧
  Visit.interrupted.1 = Throw (DatabaseError "Database operation failed") ∧
  ∃ row, table_action Visit.interrupted.2 = table_action Sample.world ++ [row].
Proof.
  assert (@createAction Outage.installation Visit.scroll Sample.world = Visit.interrupted)
    as Hrun.
  { vm_compute. reflexivity. }
  split; [exact Hrun|]. split; [reflexivity|]. unfold Visit.interrupted in Hrun.
  destruct (@createAction_throw_is_not_a_rollback Outage.installation _ _ _ _ Hrun)
    as [Hsame|(row & e0 & Hrows & _ & _)].
  - apply (f_equal length) in Hsame. vm_compute in Hsame. discriminate Hsame.
  - exists row. exact Hrows.
Defined.

Lemma createAction_for_unknown_user_witness :
  createAction Visit.stranger Sample.world =
    (Throw (DatabaseError "Database operation failed"),
     log_call action_create Sample.world).
Proof.
  assert (∀ p, p ∈ table_person Sample.world →
               ¬ (Person.environmentId p = input_environmentId Visit.stranger ∧
                  Person.userId p = input_userId Visit.stranger)) as Hnobody.
  { intros p Hp [_ Huser]. simpl in Hp.
    apply elem_of_cons in Hp as [-> | Hp]; [discriminate Huser|].
    apply elem_of_cons in Hp as [-> | Hp]; [discriminate Huser|].
    by apply elem_of_nil in Hp. }
  apply (@createAction_for_unknown_user Sample.installation Visit.stranger Sample.world
           Sample.world (ActionClass.mk "ac2" "50% Scroll" automatic "env2")
           eq_refl (or_introl (conj eq_refl eq_refl)) eq_refl Hnobody).
Defined.

Lemma createAction_revalidates_the_cached_lists_witness :
  Forall (λ tag, tag ∈ revalidated Visit.scrolled.2) ["people-p2-actions"] ∧
  Forall (λ tag, tag ∈ revalidated Visit.scrolled.2) ["environments-env2-actions"].
Proof.
  assert (createAction Visit.scroll Sample.world = Visit.scrolled) as Hrun.
  { vm_compute. reflexivity. }
  unfold Visit.scrolled in Hrun.
  exact (@createAction_revalidates_the_cached_lists Sample.installation _ _ _ _
           (Some 2) Hrun).
Defined.

Lemma createAction_leaves_the_last_occurrence_stale_witness :
  ∃ cache1 w1 w2,
    serve (cached_getLastOccurrenceDaysAgo "ac2" "p2") ∅ Sample.world
      = (Return (Some 7), w1, cache1) ∧
    (createAction Visit.scroll w1).2 = w2 ∧
    serve (cached_getLastOccurrenceDaysAgo "ac2" "p2") cache1 w2
      = (Return (Some 7), w2, cache1) ∧
    (getLastOccurrenceDaysAgo "ac2" "p2" w2).1 = Return (Some 0).
Proof.
  destruct (createAction Visit.scroll (log_call action_findFirst Sample.world))
    as [o w2] eqn:Hrun.
  assert (o = Return (mkTAction "a4" (DateObject (now Sample.world)) "p2" []
                        (ActionClass.mk "ac2" "50% Scroll" automatic "env2"))) as ->.
  { apply (f_equal fst) in Hrun. vm_compute in Hrun. subst o. reflexivity. }
  assert (revalidated w2
          = ["activePeople-p2"; "environments-env2-actions"; "people-p2-actions"])
    as Hrevalidated.
  { apply (f_equal snd) in Hrun. simpl in Hrun. subst w2.
    vm_compute. reflexivity. }
  assert (∀ a, a ∈ table_action Sample.world → Action.createdAt a ≤ now Sample.world)
    as Hpast.
  { apply Forall_forall. apply (bool_decide_unpack _). vm_compute. exact I. }
  destruct (@createAction_leaves_the_last_occurrence_stale Sample.installation
              Visit.scroll ∅ Sample.world w2 _ "ac2" "p2"
              (lookup_empty _) eq_refl eq_refl eq_refl Hpast eq_refl Hrun
              eq_refl eq_refl)
    as (last & cache1 & Hfirst & Hsecond & Hdatabase).
  { rewrite Hrevalidated. apply (bool_decide_unpack _). vm_compute. exact I. }
  assert (last = Some 7) as ->.
  { rewrite serve_miss in Hfirst by apply lookup_empty.
    apply (f_equal (λ r, r.1.1)) in Hfirst. vm_compute in Hfirst. by injection Hfirst. }
  exists cache1, (log_call action_findFirst Sample.world), w2.
  split; [exact Hfirst|]. split; [by rewrite Hrun|]. split; [exact Hsecond|].
  exact Hdatabase.
Defined.

Lemma access_checks_pass_exceptions_on_witness :
  @canUserAccessWebhook Outage.installation "user 1" "wh1" Sample.world
    = (Throw ValidationError, Sample.world) ∧
  @canUserAccessWebhook Outage.installation "user1" "wh1" Sample.world
    = (Throw (OtherError "webhook service is down"), Sample.world) ∧
  @canUserAccessAttributeClass Outage.installation "user1" "at1" Sample.world
    = (Throw (OtherError "environment service is down"), Sample.world).
Proof.
  destruct (@access_checks_pass_exceptions_on Outage.installation "user 1" "wh1"
              Sample.world ValidationError) as [Hinvalid _].
  destruct (@access_checks_pass_exceptions_on Outage.installation "user1" "wh1"
              Sample.world (OtherError "webhook service is down")) as [_ Hwebhook].
  destruct (@access_checks_pass_exceptions_on Outage.installation "user1" "at1"
              Sample.world (OtherError "environment service is down"))
    as [_ Hattribute].
  split; [exact (proj1 (Hinvalid eq_refl))|]. split.
  - exact (proj1 (Hwebhook eq_refl eq_refl eq_refl) eq_refl).
  - destruct (Hattribute eq_refl eq_refl eq_refl) as (_ & _ & _ & Haccess).
    exact (Haccess (AttributeClass.mk "at1" "env1") eq_refl eq_refl).
Defined.

Lemma handleSelect_stores_what_it_sets_witness :
  ∃ step : Z,
    propCalls (handleSelect false link Visit.browser)
      = [setCurrentStep step; setSelectedPathway (Some link)] ∧
    localStorage (handleSelect false link Visit.browser) !! "onboardingCurrentStep"
      = Some (pretty step) ∧
    localStorage (handleSelect false link Visit.browser) !! "onboardingPathway"
      = Some "link" ∧
    step = 5 ∧
    localStorage (handleSelect false link Visit.browser) !! "theme" = Some "dark".
Proof.
  destruct (handleSelect_stores_what_it_sets false link Visit.browser)
    as (step & Hcalls & Hstep & Hpathway & Hfive & _ & Hframe).
  exists step. split; [exact Hcalls|]. split; [exact Hstep|]. split; [exact Hpathway|].
  split; [by apply Hfive|]. by rewrite Hframe.
Defined.

Lemma handleSelect_last_selection_wins_witness :
  localStorage (handleSelect true website (handleSelect false link Visit.browser))
    = localStorage (handleSelect true website Visit.browser) ∧
  localStorage (handleSelect false link (handleSelect false link Visit.browser))
    = localStorage (handleSelect false link Visit.browser).
Proof.
  split.
  - exact (proj1 (handleSelect_last_selection_wins false true link website
                    Visit.browser)).
  - exact (proj1 (handleSelect_last_selection_wins false false link link
                    Visit.browser)).
Defined.

Lemma createAction_creates_the_missing_class_witness :
  @createAction Outage.installation Sample.newAction Sample.world
    = (Throw (DatabaseError "Database operation failed"), Sample.world).
Proof.
  exact (@createAction_creates_the_missing_class Outage.installation
           Sample.newAction Sample.world (PrismaClientKnownRequestError "P1001")
           eq_refl eq_refl eq_refl).
Defined.

Lemma posthog_key_determines_its_arguments_witness :
  "env1" = "env1" ∧ inAppSurvey = inAppSurvey.
Proof.
  exact (@posthog_key_determines_its_arguments Sample.installation
           "env1" "env1" inAppSurvey inAppSurvey eq_refl).
Defined.
